(** * Bot detection and access control of the server promoter

    A shallow embedding of the request-security code of the server, the
    JavaScript in [src/reset-database.bat] (heuristic scorer, reputation
    store, blacklist guard, CAPTCHA challenges, the decision middleware
    and the vote route), and of the session guards with the account,
    listing and banner routes behind them, followed by the properties
    the specification states about the former and by further properties
    of both.

    Conventions of the embedding.
    - An SQLite table is a finite map keyed by the columns of its UNIQUE
      constraint; a statement is the function it computes on the tables.
      A constraint violation is modelled (it is what [INSERT OR IGNORE]
      and [INSERT OR REPLACE] are about); a failing disk is not, so the
      [err] branches (the answers 500, and [next()] from the [catch] of
      the middleware) have no counterpart here; where a plain INSERT or
      UPDATE breaks a UNIQUE constraint, the error branch the route
      takes is modelled. A statement is served whole, but the statements
      of one call need not follow each other: where that matters the
      statements are served apart. An AUTOINCREMENT key is
      one above a counter kept with the table. The server does not turn
      on the enforcement of foreign keys, so no statement reaches
      beyond the table it names.
    - A JavaScript string is a [string] of code units below 256, which is
      what Node hands out for header values, addresses and paths.
    - A JavaScript number that the code handles is an integer well inside
      the exact range of a double and is a [Z]; the 32-bit wrap-around of
      the bitwise operators is written out.
    - The clock is the number of milliseconds since the epoch (UTC). A
      timestamp column holds the text that was written to it, and SQLite
      compares such texts byte by byte. *)

From Stdlib Require Import ZArith String Ascii List Bool Lia.
From stdpp Require Import base option gmap strings pretty.
Import ListNotations.

#[local] Open Scope string_scope.
#[local] Open Scope Z_scope.

(** ** JavaScript strings *)

Module JS.

(** [String.prototype.toLowerCase] on code units below 256: the ASCII
    capitals and the Latin-1 capitals (all of 0xC0..0xDE but the
    multiplication sign) move up by 32. *)
Definition lower_char (c : ascii) : ascii :=
  let n := N_of_ascii c in
  if ((65 <=? n) && (n <=? 90))%N then ascii_of_N (n + 32)
  else if ((192 <=? n) && (n <=? 222) && negb (n =? 215))%N then ascii_of_N (n + 32)
  else c.

Fixpoint toLowerCase (s : string) : string :=
  match s with
  | EmptyString => EmptyString
  | String c s' => String (lower_char c) (toLowerCase s')
  end.

(** Does the literal [p] match at the start of [s], letters compared
    without regard to case (the [i] flag)? *)
Fixpoint prefix_ci (p s : string) : bool :=
  match p, s with
  | EmptyString, _ => true
  | String _ _, EmptyString => false
  | String a p', String b s' => Ascii.eqb (lower_char a) (lower_char b) && prefix_ci p' s'
  end.

(** [/p/i.test(s)] for a pattern [p] without metacharacters: [p] occurs
    somewhere in [s], case-insensitively. *)
Fixpoint test_ci (p s : string) : bool :=
  prefix_ci p s ||
  match s with
  | EmptyString => false
  | String _ s' => test_ci p s'
  end.

(** [/p1|p2|.../i.test(s)]. *)
Definition test_alt_ci (ps : list string) (s : string) : bool :=
  existsb (fun p => test_ci p s) ps.

(** [!s] for a string: only the empty string is falsy. *)
Definition falsy (s : string) : bool := String.eqb s "".

(** [o || ''] where [o] is a string or [undefined]. *)
Definition orEmpty (o : option string) : string := default "" o.

(** [!o] where [o] is a string or [undefined]. *)
Definition absent (o : option string) : bool := falsy (orEmpty o).

(** [ToInt32]: the value modulo 2^32, read as a signed 32-bit integer. *)
Definition toInt32 (x : Z) : Z := (x + 2 ^ 31) mod 2 ^ 32 - 2 ^ 31.

(** [String(n)] and [n.toString()] for an integer [n]. *)
Definition numToString (n : Z) : string := pretty n.

(** White space that [parseInt] skips, among the code units below 256. *)
Definition is_space (c : ascii) : bool :=
  let n := N_of_ascii c in
  ((9 <=? n) && (n <=? 13) || (n =? 32) || (n =? 160))%N.

Definition digit_of (c : ascii) : option Z :=
  let n := N_of_ascii c in
  if ((48 <=? n) && (n <=? 57))%N then Some (Z.of_N n - 48) else None.

(** The longest run of decimal digits at the start of [s], read as a
    number after the digits [acc] read before; [None] when there is none. *)
Fixpoint digits (acc : option Z) (s : string) : option Z :=
  match s with
  | EmptyString => acc
  | String c s' =>
      match digit_of c with
      | Some k => digits (Some (10 * default 0 acc + k)) s'
      | None => acc
      end
  end.

Fixpoint skip_spaces (s : string) : string :=
  match s with
  | EmptyString => EmptyString
  | String c s' => if is_space c then skip_spaces s' else s
  end.

(** [parseInt(s, 10)]; [None] is NaN. *)
Definition parseInt10 (s : string) : option Z :=
  match skip_spaces s with
  | String "-" s' => Z.opp <$> digits None s'
  | String "+" s' => digits None s'
  | s' => digits None s'
  end.

End JS.

(** ** Requests *)

(** The part of an Express request the code reads. [headers] is Node's
    header object: names in lower case, a missing header has no entry. *)
Record request := {
  ip : string;
  method : string;
  path : string;
  headers : gmap string string
}.

(** [req.get(name)], called in the source with lower-case names only.
    Express answers [referer] and [referrer] from either spelling of the
    header. *)
Definition get (req : request) (name : string) : option string :=
  if String.eqb name "referer" || String.eqb name "referrer" then
    match headers req !! "referrer" with
    | Some v => if JS.falsy v then headers req !! "referer" else Some v
    | None => headers req !! "referer"
    end
  else headers req !! name.

(** ** simpleHash *)

Fixpoint simpleHash_loop (h : Z) (str : string) : Z :=
  match str with
  | EmptyString => h
  | String c rest =>
      let h := JS.toInt32 (Z.shiftl h 5) - h + Z.of_N (N_of_ascii c) in
      let h := JS.toInt32 h in   (* h |= 0 *)
      simpleHash_loop h rest
  end.

Definition simpleHash (str : string) : string :=
  JS.numToString (simpleHash_loop 0 str).

(** ** Heuristic scorer *)

Definition botPatterns : list string :=
  [ "bot"; "crawler"; "spider"; "scraper"; "curl"; "wget";
    "python"; "java"; "apache"; "http"; "libwww"; "perl";
    "php"; "ruby"; "go-http"; "node"; "axios"; "requests" ].

Definition browserTokens : list string :=
  [ "Mozilla"; "Chrome"; "Safari"; "Firefox"; "Edge" ].

Definition add_if (b : bool) (points score : Z) : Z :=
  if b then score + points else score.

Definition calculateBotScore (req : request) : Z :=
  let userAgent := JS.orEmpty (get req "user-agent") in
  let accept := JS.orEmpty (get req "accept") in
  let acceptLanguage := JS.orEmpty (get req "accept-language") in
  let acceptEncoding := JS.orEmpty (get req "accept-encoding") in
  let connection := JS.orEmpty (get req "connection") in
  let score := 0 in
  (* the loop over botPatterns stops at the first match *)
  let score := add_if (existsb (fun p => JS.test_ci p userAgent) botPatterns) 30 score in
  let score := add_if (JS.falsy accept || String.eqb accept "*/*") 10 score in
  let score := add_if (JS.falsy acceptLanguage) 15 score in
  let score := add_if (JS.falsy acceptEncoding) 10 score in
  let score := add_if (JS.falsy userAgent) 25 score in
  let score := add_if (Z.of_nat (String.length userAgent) <? 20) 20 score in
  let score := add_if (negb (JS.test_alt_ci browserTokens userAgent) && negb (JS.falsy userAgent)) 15 score in
  let score := add_if (JS.absent (get req "referer") && negb (String.eqb (path req) "/")) 5 score in
  let score := add_if (String.eqb (JS.toLowerCase connection) "close") 5 score in
  let score := add_if (JS.absent (get req "x-requested-with") && String.eqb (method req) "POST") 5 score in
  Z.min score 100.

(** ** Clock and timestamp formats *)

Module Clock.

(** Date (year of the era, month, day) of day [doe] of an era of 400
    years that starts on the first of March. *)
Definition era_date (doe : Z) : Z * Z * Z :=
  let yoe := (doe - doe / 1460 + doe / 36524 - doe / 146096) / 365 in
  let doy := doe - (365 * yoe + yoe / 4 - yoe / 100) in
  let mp := (5 * doy + 2) / 153 in
  let d := doy - (153 * mp + 2) / 5 + 1 in
  let m := if mp <? 10 then mp + 3 else mp - 9 in
  (yoe + (if m <=? 2 then 1 else 0), m, d).

(** Proleptic Gregorian date (year, month, day) of a day count since
    1970-01-01. *)
Definition civil_from_days (days : Z) : Z * Z * Z :=
  let z := days + 719468 in
  let era := z / 146097 in
  let '(y, m, d) := era_date (z - era * 146097) in
  (y + era * 400, m, d).

(** The character of a decimal digit. *)
Definition digit (n : Z) : ascii := ascii_of_N (Z.to_N (48 + n)).

(** The [width] lowest decimal digits of [n >= 0], highest first: what
    [%02d] and [%04d] print for a number that fits. *)
Fixpoint pad (width : nat) (n : Z) : string :=
  match width with
  | O => ""
  | S w => String (digit (n / 10 ^ Z.of_nat w mod 10)) (pad w n)
  end.

(** [YYYY-MM-DD] of a day count. *)
Definition date_of_day (day : Z) : string :=
  let '(y, m, d) := civil_from_days day in
  pad 4 y +:+ "-" +:+ pad 2 m +:+ "-" +:+ pad 2 d.

(** [HH:MM:SS] of a second of the day. *)
Definition time_of_second (s : Z) : string :=
  pad 2 (s / 3600) +:+ ":" +:+ pad 2 (s / 60 mod 60) +:+ ":" +:+ pad 2 (s mod 60).

(** Whole seconds since the epoch. *)
Definition seconds (ms : Z) : Z := ms / 1000.

(** [YYYY-MM-DD] of an instant. *)
Definition date (ms : Z) : string := date_of_day (seconds ms / 86400).

(** [HH:MM:SS] of an instant. *)
Definition time (ms : Z) : string := time_of_second (seconds ms mod 86400).

(** SQLite's [datetime('now')] and [CURRENT_TIMESTAMP] at instant [ms]:
    [YYYY-MM-DD HH:MM:SS]. *)
Definition datetime (ms : Z) : string := date ms +:+ " " +:+ time ms.

(** SQLite's [strftime('%Y-%m-%d', CURRENT_TIMESTAMP)]. *)
Definition strftime_Ymd (ms : Z) : string := date ms.

(** JavaScript's [new Date(ms).toISOString()]:
    [YYYY-MM-DDTHH:MM:SS.mmmZ]. *)
Definition toISOString (ms : Z) : string :=
  date ms +:+ "T" +:+ time ms +:+ "." +:+ pad 3 (ms mod 1000) +:+ "Z".

(** The first instant of the year 10000, where the formats above end. *)
Definition end_of_time : Z := 253402300800000.

(** The instants from 1970 to 9999. *)
Definition in_range (ms : Z) : Prop := 0 <= ms < end_of_time.

(** Dates in their order. *)
Definition civil_lt (a b : Z * Z * Z) : Prop :=
  let '(y, m, d) := a in
  let '(y', m', d') := b in
  y < y' \/ (y = y' /\ (m < m' \/ (m = m' /\ d < d'))).

Definition civil_ltb (a b : Z * Z * Z) : bool :=
  let '(y, m, d) := a in
  let '(y', m', d') := b in
  (y <? y') || ((y =? y') && ((m <? m') || ((m =? m') && (d <? d')))).

Definition well_formed (a : Z * Z * Z) : bool :=
  let '(y, m, d) := a in
  (0 <=? y) && (y <=? 400) && (1 <=? m) && (m <=? 12) && (1 <=? d) && (d <=? 31).

(** On the [n] days from [doe] on, [era_date] is well formed and each
    date is later than the one before, [prev] being the date before that
    of [doe]. *)
Fixpoint increasing (n : nat) (doe : Z) (prev : Z * Z * Z) : bool :=
  match n with
  | O => true
  | S n' =>
      let cur := era_date doe in
      if well_formed cur && civil_ltb prev cur then increasing n' (doe + 1) cur else false
  end.

End Clock.

(** ** Tables *)

(** [bot_scores], unique on (ip_address, user_agent). *)
Record bot_score_row := {
  device_fingerprint : string;
  bot_score : Z;
  request_count : Z;
  suspicious_patterns : Z;
  last_updated : string
}.

(** [ip_blacklist], unique on ip_address. [blocked_until] holds the text
    the blacklist route bound to it, or NULL. *)
Record blacklist_row := {
  reason : string;
  blocked_at : string;
  blocked_until : option string;
  created_by : option Z
}.

(** [captcha_challenges], unique on challenge_id; [row_id] is the integer
    primary key. [created_at] and [expires_at] hold the texts of their
    defaults, [CURRENT_TIMESTAMP] and [datetime('now', '+5 minutes')]. *)
Record captcha_row := {
  row_id : Z;
  ip_address : string;
  solution : string;
  solved : bool;
  created_at : string;
  expires_at : string
}.

(** [security_events], append-only. *)
Record security_event := {
  ev_ip : string;
  ev_user_id : option Z;
  event_type : string;
  severity : string;
  details : string;
  ev_user_agent : option string;
  endpoint : string
}.

(** [servers], keyed by id; of its columns the vote route reads and
    writes [votes] only. *)
Record server_row := {
  name : string;
  votes : Z
}.

(** [votes], unique on (server_id, voter_hash, voted_date); the value is
    the [created_at] column. *)
Abbreviation vote_key := (Z * string * string)%type.

Record db := {
  servers : gmap Z server_row;
  votes_table : gmap vote_key string;
  security_events : list security_event;
  ip_blacklist : gmap string blacklist_row;
  bot_scores : gmap (string * string) bot_score_row;
  captcha_challenges : gmap string captcha_row;
  captcha_seq : Z   (* AUTOINCREMENT counter of captcha_challenges *)
}.

Definition set_servers (d : db) (x : gmap Z server_row) : db :=
  {| servers := x; votes_table := votes_table d; security_events := security_events d;
     ip_blacklist := ip_blacklist d; bot_scores := bot_scores d;
     captcha_challenges := captcha_challenges d; captcha_seq := captcha_seq d |}.

Definition set_votes_table (d : db) (x : gmap vote_key string) : db :=
  {| servers := servers d; votes_table := x; security_events := security_events d;
     ip_blacklist := ip_blacklist d; bot_scores := bot_scores d;
     captcha_challenges := captcha_challenges d; captcha_seq := captcha_seq d |}.

Definition set_security_events (d : db) (x : list security_event) : db :=
  {| servers := servers d; votes_table := votes_table d; security_events := x;
     ip_blacklist := ip_blacklist d; bot_scores := bot_scores d;
     captcha_challenges := captcha_challenges d; captcha_seq := captcha_seq d |}.

Definition set_ip_blacklist (d : db) (x : gmap string blacklist_row) : db :=
  {| servers := servers d; votes_table := votes_table d; security_events := security_events d;
     ip_blacklist := x; bot_scores := bot_scores d;
     captcha_challenges := captcha_challenges d; captcha_seq := captcha_seq d |}.

Definition set_bot_scores (d : db) (x : gmap (string * string) bot_score_row) : db :=
  {| servers := servers d; votes_table := votes_table d; security_events := security_events d;
     ip_blacklist := ip_blacklist d; bot_scores := x;
     captcha_challenges := captcha_challenges d; captcha_seq := captcha_seq d |}.

Definition set_captcha (d : db) (x : gmap string captcha_row) (seq : Z) : db :=
  {| servers := servers d; votes_table := votes_table d; security_events := security_events d;
     ip_blacklist := ip_blacklist d; bot_scores := bot_scores d;
     captcha_challenges := x; captcha_seq := seq |}.

Definition empty_db : db :=
  {| servers := ∅; votes_table := ∅; security_events := [];
     ip_blacklist := ∅; bot_scores := ∅; captcha_challenges := ∅; captcha_seq := 0 |}.

(** ** Responses *)

(** The JSON bodies the modelled routes send. *)
Inductive json :=
  | JError (error : string)
  | JRejection (error code : string) (botScore : option Z)
  | JMessage (message : string)
  | JChallenge (challengeId question : string)
  | JValid (valid : bool) (text : string)
  | JVote (server_id : Z) (votes : option Z).

Record response := { status : Z; body : json }.

(** ** Security functions *)

Definition logSecurityEvent (d : db) (ip : string) (userId : option Z)
    (eventType severity details : string) (userAgent : option string) (endpoint : string) : db :=
  set_security_events d
    (security_events d ++
     [ {| ev_ip := ip; ev_user_id := userId; event_type := eventType; severity := severity;
          details := details; ev_user_agent := userAgent; endpoint := endpoint |} ]).

(** A row of [ip_blacklist] passes
    [blocked_until IS NULL OR blocked_until > datetime("now")]; both
    sides of [>] are texts and SQLite compares them byte by byte. *)
Definition blacklist_active (now : Z) (r : blacklist_row) : bool :=
  match blocked_until r with
  | None => true
  | Some t => String.ltb (Clock.datetime now) t
  end.

Definition isBlacklisted (d : db) (now : Z) (ip : string) : bool :=
  match ip_blacklist d !! ip with
  | Some r => blacklist_active now r
  | None => false
  end.

(** What [parseDeviceInfo] keeps of the parser's result. *)
Record device_info := {
  ua : string;
  browser_name : option string;
  os_name : option string
}.

Definition generateDeviceFingerprint (req : request) (deviceInfo : device_info) : string :=
  simpleHash
    (ua deviceInfo +:+ "|" +:+
     ip req +:+ "|" +:+
     JS.orEmpty (browser_name deviceInfo) +:+ "|" +:+
     JS.orEmpty (os_name deviceInfo) +:+ "|" +:+
     JS.orEmpty (get req "accept-language")).

Section Pipeline.

(** The user-agent parser of the ua-parser-js package: from a user-agent
    string to the browser name and the operating system name it
    recognises, if any. *)
Variable UAParser : string -> option string * option string.

Definition parseDeviceInfo (req : request) : device_info :=
  let ua := JS.orEmpty (get req "user-agent") in
  let result := UAParser ua in
  {| ua := ua; browser_name := fst result; os_name := snd result |}.

(** [INSERT OR REPLACE INTO bot_scores]: the row of the key is replaced,
    its counters read from the row it replaces. *)
Definition updateBotScore (d : db) (now : Z) (req : request) : db * Z :=
  let userAgent := JS.orEmpty (get req "user-agent") in
  let deviceInfo := parseDeviceInfo req in
  let fingerprint := generateDeviceFingerprint req deviceInfo in
  let botScore := calculateBotScore req in
  let old := bot_scores d !! (ip req, userAgent) in
  let row :=
    {| device_fingerprint := fingerprint;
       bot_score := botScore;
       request_count := default 0 (request_count <$> old) + 1;
       suspicious_patterns :=
         default 0 (suspicious_patterns <$> old) + (if botScore >? 50 then 1 else 0);
       last_updated := Clock.datetime now |} in
  (set_bot_scores d (<[(ip req, userAgent) := row]> (bot_scores d)), botScore).

(** What the middleware did with a request: answered it, or called
    [next()] after setting [req.suspiciousActivity] and [req.botScore]. *)
Inductive decision :=
  | Respond (r : response)
  | Next (suspiciousActivity : bool) (botScore : Z).

Definition botDetectionMiddleware (d : db) (now : Z) (req : request) : db * decision :=
  if isBlacklisted d now (ip req) then
    (logSecurityEvent d (ip req) None "blocked_request" "high"
       "Blacklisted IP attempted access" (get req "user-agent") (path req),
     Respond {| status := 403; body := JRejection "Access denied" "IP_BLACKLISTED" None |})
  else
    let '(d, botScore) := updateBotScore d now req in
    if botScore >=? 80 then
      (logSecurityEvent d (ip req) None "bot_detected" "high"
         ("High bot score: " +:+ JS.numToString botScore) (get req "user-agent") (path req),
       Respond {| status := 429;
                  body := JRejection
                            "Suspicious activity detected. Please complete CAPTCHA verification."
                            "CAPTCHA_REQUIRED" (Some botScore) |})
    else if botScore >=? 60 then
      (logSecurityEvent d (ip req) None "suspicious_behavior" "medium"
         ("Medium bot score: " +:+ JS.numToString botScore) (get req "user-agent") (path req),
       Next true botScore)
    else (d, Next false botScore).

End Pipeline.

(** ** CAPTCHA challenges *)

(** What the three calls of [Math.random()] amount to:
    [Math.floor(Math.random() * 20)] twice, each in 0..19, and
    [Math.random() > 0.5]. *)
Record draws := {
  draw1 : Z;
  draw2 : Z;
  draw_plus : bool
}.

Definition generateSimpleCaptcha (r : draws) : string * Z :=
  let num1 := draw1 r + 1 in
  let num2 := draw2 r + 1 in
  let operation := if draw_plus r then "+" else "-" in
  let question := JS.numToString num1 +:+ " " +:+ operation +:+ " " +:+ JS.numToString num2 in
  let answer := if String.eqb operation "+" then num1 + num2 else num1 - num2 in
  (question, answer).

(** [uuid] is the value [uuidv4()] returns. The INSERT fails on a
    challenge id that is already stored, and the promise is rejected:
    [None]. *)
Definition createCaptchaChallenge (d : db) (now : Z) (uuid : string) (r : draws) (ip : string)
    : option (db * (string * string)) :=
  let challengeId := uuid in
  let '(question, answer) := generateSimpleCaptcha r in
  match captcha_challenges d !! challengeId with
  | Some _ => None
  | None =>
      let row :=
        {| row_id := captcha_seq d + 1;
           ip_address := ip;
           solution := JS.numToString answer;
           solved := false;
           created_at := Clock.datetime now;
           expires_at := Clock.datetime (now + 300000) |} in
      Some (set_captcha d (<[challengeId := row]> (captcha_challenges d)) (captcha_seq d + 1),
            (challengeId, question))
  end.

(** A solution as the verify route receives it in the JSON body, which
    [express.json] parses: any JSON value other than [null]. An item of
    an array is a value or [null]. A number is an integer (any other
    number prints with a fraction or an exponent, which no stored
    solution has), and an object has no member named [toString] (with
    one, the call [solution.toString()] throws). *)
#[warnings="-register-all"] Inductive js_solution :=
  | SNum (n : Z)
  | SStr (s : string)
  | SBool (b : bool)
  | SArr (items : list (option js_solution))
  | SObj.

(** [v.toString()]: an array prints its items with commas between them,
    [null] as nothing. *)
Fixpoint solution_toString (v : js_solution) : string :=
  match v with
  | SNum n => JS.numToString n
  | SStr s => s
  | SBool b => if b then "true" else "false"
  | SArr items =>
      String.concat ","
        (map (fun item => match item with
                          | Some x => solution_toString x
                          | None => ""
                          end) items)
  | SObj => "[object Object]"
  end.

(** [!v]: the number 0, the empty string and [false] are falsy; arrays
    and objects never are. *)
Definition solution_falsy (v : js_solution) : bool :=
  match v with
  | SNum n => n =? 0
  | SStr s => JS.falsy s
  | SBool b => negb b
  | SArr _ | SObj => false
  end.

(** [expires_at > datetime("now")], a comparison of two texts. *)
Definition unexpired (now : Z) (ch : captcha_row) : bool :=
  String.ltb (Clock.datetime now) (expires_at ch).

(** The row [SELECT * ... WHERE challenge_id = ? AND expires_at >
    datetime("now") AND solved = 0] returns. *)
Definition live_challenge (d : db) (now : Z) (challengeId : string) : option captcha_row :=
  match captcha_challenges d !! challengeId with
  | Some ch => if unexpired now ch && negb (solved ch) then Some ch else None
  | None => None
  end.

Definition mark_solved (ch : captcha_row) : captcha_row :=
  {| row_id := row_id ch; ip_address := ip_address ch; solution := solution ch;
     solved := true; created_at := created_at ch; expires_at := expires_at ch |}.

(** [UPDATE captcha_challenges SET solved = 1 WHERE id = ?]. *)
Definition set_solved (d : db) (id : Z) : db :=
  set_captcha d
    ((fun ch => if row_id ch =? id then mark_solved ch else ch) <$> captcha_challenges d)
    (captcha_seq d).

(** A call of [verifyCaptcha] whose two statements the store serves one
    after the other, nothing between them: the SELECT, then the UPDATE
    the callback issues before it resolves. *)
Definition verifyCaptcha (d : db) (now : Z) (challengeId : string) (sol : js_solution)
    : db * bool :=
  match live_challenge d now challengeId with
  | None => (d, false)
  | Some challenge =>
      let isCorrect := String.eqb (solution challenge) (solution_toString sol) in
      if isCorrect then (set_solved d (row_id challenge), true) else (d, false)
  end.

(** The two statements of a call apart. The SELECT and its callback:
    the answer the call resolves with and, after a correct answer, the
    id the UPDATE is bound to. The call does not wait for the UPDATE. *)
Definition verifyCaptcha_select (d : db) (now : Z) (challengeId : string) (sol : js_solution)
    : bool * option Z :=
  match live_challenge d now challengeId with
  | None => (false, None)
  | Some challenge =>
      let isCorrect := String.eqb (solution challenge) (solution_toString sol) in
      (isCorrect, if isCorrect then Some (row_id challenge) else None)
  end.

(** The UPDATE, when the store comes to it. *)
Definition verifyCaptcha_update (d : db) (pending : option Z) : db :=
  match pending with
  | Some id => set_solved d id
  | None => d
  end.

(** What the store serves for calls of [verifyCaptcha] in flight
    together: the SELECT of a call, or the UPDATE that the [n]-th SELECT
    of the run issued. *)
Inductive verify_event :=
  | Select (now : Z) (challengeId : string) (sol : js_solution)
  | Update (n : nat).

(** The answers of the calls, in the order of their SELECTs, and the
    store at the end; [pending] holds what each SELECT so far issued. *)
Fixpoint in_flight (d : db) (pending : list (option Z)) (events : list verify_event)
    : db * list bool :=
  match events with
  | [] => (d, [])
  | Select now challengeId sol :: rest =>
      let '(isCorrect, update) := verifyCaptcha_select d now challengeId sol in
      let '(d', answers) := in_flight d (pending ++ [update]) rest in
      (d', isCorrect :: answers)
  | Update n :: rest =>
      in_flight (verifyCaptcha_update d (default None (pending !! n))) pending rest
  end.

(** Calls of the challenge manager, each served alone, in the order in
    which the store serves them. *)
Inductive captcha_call :=
  | Create (now : Z) (uuid : string) (r : draws) (ip : string)
  | Verify (now : Z) (challengeId : string) (sol : js_solution).

(** The answers of the [Verify] calls of a run, each with its challenge
    id. *)
Fixpoint run_captcha (d : db) (calls : list captcha_call) : list (string * bool) :=
  match calls with
  | [] => []
  | Create now uuid r ip :: rest =>
      match createCaptchaChallenge d now uuid r ip with
      | Some (d', _) => run_captcha d' rest
      | None => run_captcha d rest
      end
  | Verify now challengeId sol :: rest =>
      let '(d', ok) := verifyCaptcha d now challengeId sol in
      (challengeId, ok) :: run_captcha d' rest
  end.

(** How many times a run answered [true] for the challenge [id]. *)
Fixpoint accepted (id : string) (answers : list (string * bool)) : nat :=
  match answers with
  | [] => 0%nat
  | (i, ok) :: rest => ((if String.eqb i id && ok then 1 else 0) + accepted id rest)%nat
  end.

(** ** Routes *)

(** GET /api/security/captcha *)
Definition getCaptcha (d : db) (now : Z) (uuid : string) (r : draws) (req : request)
    : db * response :=
  match createCaptchaChallenge d now uuid r (ip req) with
  | Some (d', (challengeId, question)) =>
      (d', {| status := 200; body := JChallenge challengeId question |})
  | None => (d, {| status := 500; body := JError "Failed to create CAPTCHA challenge" |})
  end.

(** The score amnesty:
    [UPDATE bot_scores SET bot_score = CASE WHEN bot_score > 30 THEN
    bot_score - 30 ELSE 0 END WHERE ip_address = ?]. *)
Definition reduce_score (r : bot_score_row) : bot_score_row :=
  {| device_fingerprint := device_fingerprint r;
     bot_score := if bot_score r >? 30 then bot_score r - 30 else 0;
     request_count := request_count r;
     suspicious_patterns := suspicious_patterns r;
     last_updated := last_updated r |}.

Definition amnesty (d : db) (ip : string) : db :=
  set_bot_scores d
    (map_imap (fun k r => Some (if String.eqb (fst k) ip then reduce_score r else r))
       (bot_scores d)).

(** The fields of the JSON body the verify route destructures: the
    challenge id, a string when it is there (a request that sends
    another kind of value as the id is left out), and the solution, any
    value, when it is there and not [null]. *)
Record verify_body := {
  challengeId : option string;
  solution_field : option js_solution
}.

(** POST /api/security/captcha/verify *)
Definition postCaptchaVerify (d : db) (now : Z) (req : request) (b : verify_body)
    : db * response :=
  match challengeId b, solution_field b with
  | Some cid, Some sol =>
      if JS.falsy cid || solution_falsy sol then
        (d, {| status := 400; body := JError "Challenge ID and solution are required" |})
      else
        let '(d, isValid) := verifyCaptcha d now cid sol in
        if isValid then
          (amnesty d (ip req),
           {| status := 200; body := JValid true "CAPTCHA verified successfully" |})
        else (d, {| status := 400; body := JValid false "Invalid CAPTCHA solution" |})
  | _, _ => (d, {| status := 400; body := JError "Challenge ID and solution are required" |})
  end.

(** POST /api/security/blacklist, past [requireAdmin]; [userId] is the
    administrator of the session and [duration] a number of minutes. *)
Definition postBlacklist (d : db) (now : Z) (userId : Z) (req : request)
    (ip reason : option string) (duration : option Z) : db * response :=
  if JS.absent ip || JS.absent reason then
    (d, {| status := 400; body := JError "IP address and reason are required" |})
  else
    let ip := JS.orEmpty ip in
    let reason := JS.orEmpty reason in
    let blockedUntil :=
      match duration with
      | Some m => if m =? 0 then None else Some (Clock.toISOString (now + m * 60000))
      | None => None
      end in
    let row :=
      {| reason := reason; blocked_at := Clock.datetime now;
         blocked_until := blockedUntil; created_by := Some userId |} in
    let d := set_ip_blacklist d (<[ip := row]> (ip_blacklist d)) in
    (logSecurityEvent d ip (Some userId) "ip_blacklisted" "high" reason
       (get req "user-agent") (path req),
     {| status := 200; body := JMessage "IP address blacklisted successfully" |}).

(** The key of the vote window. *)
Definition voterFingerprint (req : request) : string :=
  simpleHash (ip req +:+ "|" +:+ JS.orEmpty (get req "user-agent")).

Definition add_vote (s : server_row) : server_row :=
  {| name := name s; votes := votes s + 1 |}.

(** The answer 429 of the vote route. *)
Definition already_voted : response :=
  {| status := 429;
     body := JError "You can only vote once per day for this server from this device." |}.

(** POST /api/servers/:id/vote, past the rate limiter and the bot
    detection middleware; [id] is [req.params.id]. *)
Definition postVote (d : db) (now : Z) (req : request) (id : string) : db * response :=
  match JS.parseInt10 id with
  | None => (d, {| status := 400; body := JError "Invalid server id" |})
  | Some serverId =>
      let key : vote_key := (serverId, voterFingerprint req, Clock.strftime_Ymd now) in
      (* INSERT OR IGNORE INTO votes *)
      match votes_table d !! key with
      | Some _ =>
          (d, already_voted)
      | None =>
          let d := set_votes_table d (<[key := Clock.datetime now]> (votes_table d)) in
          (* UPDATE servers SET votes = votes + 1 WHERE id = ? *)
          let d := set_servers d (alter add_vote serverId (servers d)) in
          (d, {| status := 200;
                 body := JVote serverId (votes <$> servers d !! serverId) |})
      end
  end.

(** Vote attempts one after the other, each a clock reading, a request
    and its [:id] parameter. *)
Fixpoint run_votes (d : db) (attempts : list (Z * request * string)) : db * list response :=
  match attempts with
  | [] => (d, [])
  | (now, req, id) :: rest =>
      let '(d, r) := postVote d now req id in
      let '(d, rs) := run_votes d rest in
      (d, r :: rs)
  end.

(** The key a vote attempt is recorded under, if its [:id] is a number. *)
Definition vote_key_of (attempt : Z * request * string) : option vote_key :=
  let '(now, req, id) := attempt in
  (fun serverId => (serverId, voterFingerprint req, Clock.strftime_Ymd now))
    <$> JS.parseInt10 id.


(** ** Sample requests and states *)

Definition mkreq (ip method path : string) (hs : list (string * string)) : request :=
  {| ip := ip; method := method; path := path; headers := list_to_map hs |}.

(** A crawler that announces itself behind a browser-compatible prefix
    and sends no Accept-Language. *)
Definition googlebot : request :=
  mkreq "66.249.66.1" "GET" "/"
    [ ("user-agent", "Mozilla/5.0 (compatible; Googlebot/2.1; +http://www.google.com/bot.html)");
      ("accept", "text/html"); ("accept-encoding", "gzip, deflate") ].

(** curl with no header but its user-agent. *)
Definition curl_bare : request :=
  mkreq "203.0.113.7" "POST" "/api/servers/3/vote" [ ("user-agent", "curl/7.68.0") ].

(** curl with the headers of a browser. *)
Definition curl_dressed : request :=
  mkreq "203.0.113.7" "GET" "/"
    [ ("user-agent", "curl/7.68.0"); ("accept", "text/html");
      ("accept-language", "en-US,en;q=0.9"); ("accept-encoding", "gzip, deflate") ].

Definition firefox_ua : string :=
  "Mozilla/5.0 (X11; Linux x86_64; rv:125.0) Gecko/20100101 Firefox/125.0".

(** A browser posting from a page of the site, from the given address. *)
Definition browser_post (ip path : string) : request :=
  mkreq ip "POST" path
    [ ("user-agent", firefox_ua); ("accept", "application/json");
      ("accept-language", "en-US,en;q=0.9"); ("accept-encoding", "gzip, deflate, br");
      ("connection", "keep-alive"); ("referer", "https://promoter.example/");
      ("x-requested-with", "XMLHttpRequest") ].

(** A parser that recognises no browser and no operating system. *)
Definition no_names (_ : string) : option string * option string := (None, None).

(** 2024-05-01 10:00:00 UTC. *)
Definition t0 : Z := 1714557600000.

Definition minutes (n : Z) : Z := n * 60000.

(** The administrator's request to the blacklist route. *)
Definition admin_post : request := browser_post "192.0.2.10" "/api/security/blacklist".

Definition banned_ip : string := "203.0.113.7".

(** At [t0] administrator 1 blocks [banned_ip] for 60 minutes. *)
Definition db_blocked_1h : db :=
  fst (postBlacklist empty_db t0 1 admin_post (Some banned_ip) (Some "vote flooding") (Some 60)).

(** At [t0] administrator 1 blocks [banned_ip] for good. *)
Definition db_blocked_forever : db :=
  fst (postBlacklist empty_db t0 1 admin_post (Some banned_ip) (Some "vote flooding") None).

(** A vote from [banned_ip], sent by a browser. *)
Definition banned_vote : request := browser_post banned_ip "/api/servers/3/vote".

(** Two clients with a stored reputation. *)
Definition addr_a : string := "198.51.100.1".
Definition addr_b : string := "203.0.113.7".

Definition reputation (score : Z) : bot_score_row :=
  {| device_fingerprint := "0"; bot_score := score; request_count := 4;
     suspicious_patterns := 2; last_updated := Clock.datetime t0 |}.

Definition db_two_clients : db :=
  set_bot_scores empty_db
    (list_to_map [ ((addr_a, firefox_ua), reputation 90); ((addr_b, "curl/7.68.0"), reputation 100) ]).

Definition uuid1 : string := "0b0f7a4e-6f1c-4c58-9d0a-3a2f62a1c001".

(** The state after the client at [addr_a] asked for a challenge at [t0]
    and drew [7 + 2]. *)
Definition db_challenge_for_a : db :=
  fst (getCaptcha db_two_clients t0 uuid1
         {| draw1 := 6; draw2 := 1; draw_plus := true |} (browser_post addr_a "/")).

(** The row of that challenge. *)
Definition challenge_row_a : captcha_row :=
  {| row_id := 1; ip_address := addr_a; solution := "9"; solved := false;
     created_at := "2024-05-01 10:00:00"; expires_at := "2024-05-01 10:05:00" |}.

(** The answer to that challenge, posted from [addr_b]. *)
Definition answer_from_b : request := browser_post addr_b "/api/security/captcha/verify".

Definition answer_9 : verify_body :=
  {| challengeId := Some uuid1; solution_field := Some (SStr "9") |}.

(** A wrong answer to it. *)
Definition answer_8 : verify_body :=
  {| challengeId := Some uuid1; solution_field := Some (SNum 8) |}.

(** The draws behind the question [5 - 5]. *)
Definition draws_5_minus_5 : draws := {| draw1 := 4; draw2 := 4; draw_plus := false |}.

(** The state after the client at [addr_a] asked for a challenge at [t0]
    and drew [5 - 5]. *)
Definition db_zero_challenge : db :=
  fst (getCaptcha empty_db t0 uuid1 draws_5_minus_5 (browser_post addr_a "/")).

(** One listed server with ten votes. *)
Definition db_one_server : db :=
  set_servers empty_db {[ 3 := {| name := "Skyblock"; votes := 10 |} ]}.

(** A vote for server 3 from a browser at [addr_a]. *)
Definition vote_from_a : request := browser_post addr_a "/api/servers/3/vote".

(** The same vote from a browser set to another language. *)
Definition vote_from_a_in_french : request :=
  mkreq addr_a "POST" "/api/servers/3/vote"
    [ ("user-agent", firefox_ua); ("accept", "application/json");
      ("accept-language", "fr-FR,fr;q=0.9"); ("accept-encoding", "gzip, deflate, br");
      ("connection", "keep-alive"); ("referer", "https://promoter.example/");
      ("x-requested-with", "XMLHttpRequest") ].

(** A vote from a client that sends no user-agent. *)
Definition anonymous_vote : request :=
  mkreq addr_b "POST" "/api/servers/3/vote" [ ("accept-language", "en-US") ].

(** * More of the server *)

(** ** The hash without its wrap-around *)

(** What the loop of [simpleHash] adds up before any wrap-around: at each
    code unit, 31 times the sum so far ([(h << 5) - h]) plus the code
    unit. *)
Fixpoint poly31 (h : Z) (str : string) : Z :=
  match str with
  | EmptyString => h
  | String c rest => poly31 (31 * h + Z.of_N (N_of_ascii c)) rest
  end.

(** ** The vote route behind its middleware *)

Section VoteRoute.

Variable UAParser : string -> option string * option string.

(** POST /api/servers/:id/vote past the rate limiter: the bot detection
    middleware, then the handler when the middleware calls [next()]. *)
Definition voteRoute (d : db) (now : Z) (req : request) (id : string) : db * response :=
  match botDetectionMiddleware UAParser d now req with
  | (d', Respond r) => (d', r)
  | (d', Next _ _) => postVote d' now req id
  end.

End VoteRoute.

(** A request without any header. *)
Definition bare_request : request := mkreq "203.0.113.7" "GET" "/" [].

(** ** Runs of the modelled routes *)

(** One request served by the modelled part of the server. [Guarded] is
    a request to any other route mounted behind
    [botDetectionMiddleware], followed up to the call of [next()]. *)
Inductive operation :=
  | Guarded (now : Z) (req : request)
  | GetCaptcha (now : Z) (uuid : string) (r : draws) (req : request)
  | PostCaptchaVerify (now : Z) (req : request) (b : verify_body)
  | PostBlacklist (now : Z) (userId : Z) (req : request) (ip reason : option string)
      (duration : option Z)
  | PostVote (now : Z) (req : request) (id : string).

Section Runs.

Variable UAParser : string -> option string * option string.

(** The store after one request. *)
Definition step (d : db) (op : operation) : db :=
  match op with
  | Guarded now req => fst (botDetectionMiddleware UAParser d now req)
  | GetCaptcha now uuid r req => fst (getCaptcha d now uuid r req)
  | PostCaptchaVerify now req b => fst (postCaptchaVerify d now req b)
  | PostBlacklist now userId req ip reason duration =>
      fst (postBlacklist d now userId req ip reason duration)
  | PostVote now req id => fst (voteRoute UAParser d now req id)
  end.

(** The store after a sequence of requests, served one after the other. *)
Definition run (d : db) (ops : list operation) : db := fold_left step ops d.

End Runs.

(** What every row of [bot_scores] satisfies: a score from 0 to 100, at
    least one request counted, and no more suspicious requests than
    requests. *)
Definition reputation_ok (d : db) : Prop :=
  forall k r, bot_scores d !! k = Some r ->
    0 <= bot_score r <= 100 /\ 1 <= request_count r /\
    0 <= suspicious_patterns r <= request_count r.

(** The integer ids of [captcha_challenges] are at most the AUTOINCREMENT
    counter and no two challenges share one. *)
Definition challenge_ids_ok (d : db) : Prop :=
  (forall id ch, captcha_challenges d !! id = Some ch -> row_id ch <= captcha_seq d) /\
  (forall id1 id2 ch1 ch2,
     captcha_challenges d !! id1 = Some ch1 -> captcha_challenges d !! id2 = Some ch2 ->
     row_id ch1 = row_id ch2 -> id1 = id2).

(** How many of the attempts for the server [s] were answered 200. *)
Fixpoint granted (s : Z) (attempts : list (Z * request * string)) (answers : list response)
    : Z :=
  match attempts, answers with
  | (_, _, id) :: attempts', r :: answers' =>
      let counted := bool_decide (JS.parseInt10 id = Some s) && (status r =? 200) in
      (if counted then 1 else 0) + granted s attempts' answers'
  | _, _ => 0
  end.

(** Two votes from one address, by user-agents that differ by [Aa]
    against [BB]. *)
Definition vote_by_Aa : request :=
  mkreq addr_a "POST" "/api/servers/3/vote" [ ("user-agent", "Mozilla/5.0 (Aa) Gecko") ].

Definition vote_by_BB : request :=
  mkreq addr_a "POST" "/api/servers/3/vote" [ ("user-agent", "Mozilla/5.0 (BB) Gecko") ].

(** * Sessions, accounts and listings *)

(** ** Sessions and the two guards *)

Module Auth.

(** What the routes read of [req.session]: the user id and the role the
    login stored, if any. *)
Record session := {
  userId : option Z;
  username : option string;
  userRole : option string
}.

(** The JSON bodies of the account and listing routes, over the type of
    the rows they send: [{ error }], [{ message }], a row, a row (or
    [undefined]) with a message, and [{ error, details }] whose details
    are the message of a database error, not spelled out here. *)
Inductive json {row : Type} :=
  | Error (error : string)
  | Message (message : string)
  | Row (r : row)
  | RowMessage (r : option row) (message : string)
  | ErrorDetails (error : string).
Arguments json : clear implicits.

Record reply {row : Type} := { status : Z; body : json row }.
Arguments reply : clear implicits.

(** [req.user]: id, username and role, copied from the session. *)
Definition user : Type := option Z * option string * option string.

(** What a guard did: answered, or set [req.user] and called [next()]. *)
Inductive guard {row : Type} :=
  | Denied (r : reply row)
  | Granted (u : user).
Arguments guard : clear implicits.

(** [!req.session.userId]: no user id, or the number 0. *)
Definition no_user (s : session) : bool :=
  match userId s with
  | Some n => n =? 0
  | None => true
  end.

Definition requireAuth {row : Type} (s : session) : guard row :=
  if no_user s then
    Denied {| status := 401; body := Error "Authentication required" |}
  else Granted (userId s, username s, userRole s).

Definition requireAdmin {row : Type} (s : session) : guard row :=
  if no_user s then
    Denied {| status := 401; body := Error "Authentication required" |}
  else if negb (bool_decide (userRole s = Some "admin")) then
    Denied {| status := 403; body := Error "Admin access required" |}
  else Granted (userId s, username s, userRole s).

(** [n === req.session.userId], for the result [n] of [parseInt]:
    [NaN] equals nothing. *)
Definition is_session_user (n : option Z) (s : session) : bool :=
  match n, userId s with
  | Some a, Some b => a =? b
  | _, _ => false
  end.

End Auth.

(** ** The users table and its routes *)

Module Accounts.

(** [users], keyed by id. *)
Record user_row := {
  username : string;
  email : string;
  password_hash : string;
  role : string;
  created_at : string;
  last_login : option string
}.

(** [SELECT id, username, email, role FROM users WHERE id = ?]. *)
Definition public_user : Type := Z * string * string * string.

Definition select_user (users : gmap Z user_row) (id : Z) : option public_user :=
  (fun u => (id, username u, email u, role u)) <$> users !! id.

Definition set_role (u : user_row) (r : string) : user_row :=
  {| username := username u; email := email u; password_hash := password_hash u;
     role := r; created_at := created_at u; last_login := last_login u |}.

(** PUT /api/admin/users/:id/role; [id] is [req.params.id] and [role]
    the field of the body, if it is a string. *)
Definition putUserRole (s : Auth.session) (users : gmap Z user_row) (id : string)
    (role : option string) : gmap Z user_row * Auth.reply public_user :=
  match Auth.requireAdmin s with
  | Auth.Denied r => (users, r)
  | Auth.Granted _ =>
      let userId := JS.parseInt10 id in
      if JS.absent role || negb (bool_decide (JS.orEmpty role ∈ [ "user"; "admin" ])) then
        (users, {| Auth.status := 400;
                   Auth.body := Auth.Error "Valid role (user or admin) is required" |})
      else if Auth.is_session_user userId s then
        (users, {| Auth.status := 400; Auth.body := Auth.Error "Cannot change your own role" |})
      else
        (* UPDATE users SET role = ? WHERE id = ? *)
        match userId ≫= (fun n => (fun u => (n, u)) <$> users !! n) with
        | None => (users, {| Auth.status := 404; Auth.body := Auth.Error "User not found" |})
        | Some (n, u) =>
            let users := <[n := set_role u (JS.orEmpty role)]> users in
            (users, {| Auth.status := 200;
                       Auth.body := Auth.RowMessage (select_user users n)
                                      "User role updated successfully" |})
        end
  end.

(** DELETE /api/admin/users/:id *)
Definition deleteUser (s : Auth.session) (users : gmap Z user_row) (id : string)
    : gmap Z user_row * Auth.reply public_user :=
  match Auth.requireAdmin s with
  | Auth.Denied r => (users, r)
  | Auth.Granted _ =>
      let userId := JS.parseInt10 id in
      if Auth.is_session_user userId s then
        (users, {| Auth.status := 400; Auth.body := Auth.Error "Cannot delete your own account" |})
      else
        (* DELETE FROM users WHERE id = ? *)
        match userId ≫= (fun n => (fun u => (n, u)) <$> users !! n) with
        | None => (users, {| Auth.status := 404; Auth.body := Auth.Error "User not found" |})
        | Some (n, _) =>
            (delete n users,
             {| Auth.status := 200; Auth.body := Auth.Message "User deleted successfully" |})
        end
  end.

Definition set_email (u : user_row) (e : string) : user_row :=
  {| username := username u; email := e; password_hash := password_hash u;
     role := role u; created_at := created_at u; last_login := last_login u |}.

(** The [code] of the error that node-sqlite3 hands to the callback of
    a statement that broke a UNIQUE constraint: the name of the primary
    result code of SQLite. *)
Definition constraint_code : string := "SQLITE_CONSTRAINT".

(** Whether [UPDATE users SET email = ? WHERE id = ?] breaks the UNIQUE
    constraint on [email]: another row holds the address. *)
Definition email_taken (users : gmap Z user_row) (n : Z) (e : string) : bool :=
  negb (bool_decide (map_Forall (fun m v => m = n \/ email v <> e) users)).

(** PUT /api/auth/profile; [email] is the field of the body, if it is a
    string. *)
Definition putProfile (s : Auth.session) (users : gmap Z user_row) (email : option string)
    : gmap Z user_row * Auth.reply public_user :=
  match Auth.requireAuth s with
  | Auth.Denied r => (users, r)
  | Auth.Granted _ =>
      if JS.absent email then
        (users, {| Auth.status := 400; Auth.body := Auth.Error "Email is required" |})
      else
        match Auth.userId s ≫= (fun n => (fun u => (n, u)) <$> users !! n) with
        | Some (n, u) =>
            if email_taken users n (JS.orEmpty email) then
              (* the UPDATE fails: [err.code === 'SQLITE_CONSTRAINT_UNIQUE'] *)
              if String.eqb constraint_code "SQLITE_CONSTRAINT_UNIQUE" then
                (users, {| Auth.status := 409;
                           Auth.body := Auth.Error "Email already exists" |})
              else
                (users, {| Auth.status := 500; Auth.body := Auth.Error "Database error" |})
            else
              let users := <[n := set_email u (JS.orEmpty email)]> users in
              (users, {| Auth.status := 200;
                         Auth.body := Auth.RowMessage (Auth.userId s ≫= select_user users)
                                        "Profile updated successfully" |})
        | None =>
            (* the UPDATE changes no row and the SELECT finds none *)
            (users, {| Auth.status := 200;
                       Auth.body := Auth.RowMessage (Auth.userId s ≫= select_user users)
                                      "Profile updated successfully" |})
        end
  end.

(** The UNIQUE constraint on [email]. *)
Definition unique_emails (users : gmap Z user_row) : Prop :=
  forall n m u v, users !! n = Some u -> users !! m = Some v -> email u = email v -> n = m.





End Accounts.

(** ** The listings and their routes *)

Module Listings.

(** [servers] with all its columns, keyed by id; [server_row] above is
    what the vote route needs of them. *)
Record listing := {
  name : string;
  ip : string;
  description : string;
  website_url : string;
  banner_url : string;
  plan : string;
  votes : Z;
  owner_id : option Z;
  created_at : string
}.

(** The table and its AUTOINCREMENT counter. *)
Record table := {
  rows : gmap Z listing;
  seq : Z
}.

(** The rows the routes send: [SELECT * FROM servers], and the same with
    the [owner_username] of the LEFT JOIN on [users]. *)
Inductive listing_json :=
  | Plain (id : Z) (l : listing)
  | WithOwner (id : Z) (l : listing) (owner_username : option string).

(** The fields of the body the listing routes destructure, each a
    string if present. *)
Record fields := {
  f_name : option string;
  f_ip : option string;
  f_description : option string;
  f_website_url : option string;
  f_banner_url : option string;
  f_plan : option string
}.

(** POST /api/servers, past the bot detection middleware. *)
Definition postServer (s : Auth.session) (users : gmap Z Accounts.user_row) (t : table)
    (now : Z) (b : fields) : table * Auth.reply listing_json :=
  match Auth.requireAuth s with
  | Auth.Denied r => (t, r)
  | Auth.Granted _ =>
      if JS.absent (f_name b) || JS.absent (f_ip b) then
        (t, {| Auth.status := 400; Auth.body := Auth.Error "name and ip are required" |})
      else
        let p :=
          if String.eqb (default "free" (f_plan b)) "paid"
             && bool_decide (Auth.userRole s = Some "admin")
          then "paid" else "free" in
        let id := seq t + 1 in
        let row :=
          {| name := JS.orEmpty (f_name b); ip := JS.orEmpty (f_ip b);
             description := default "" (f_description b);
             website_url := default "" (f_website_url b);
             banner_url := default "" (f_banner_url b);
             plan := p; votes := 0; owner_id := Auth.userId s;
             created_at := Clock.datetime now |} in
        ({| rows := <[id := row]> (rows t); seq := id |},
         {| Auth.status := 201;
            Auth.body := Auth.Row (WithOwner id row
                           (Auth.userId s ≫= fun u => Accounts.username <$> users !! u)) |})
  end.

(** [SELECT * FROM servers WHERE id = ? AND owner_id = ?], with the
    result of [parseInt] and the user id of the session. *)
Definition own_server (s : Auth.session) (t : table) (serverId : option Z)
    : option (Z * listing) :=
  match serverId, Auth.userId s with
  | Some n, Some u =>
      match rows t !! n with
      | Some l => if bool_decide (owner_id l = Some u) then Some (n, l) else None
      | None => None
      end
  | _, _ => None
  end.

(** GET /api/user/servers/:id *)
Definition getUserServer (s : Auth.session) (t : table) (id : string)
    : Auth.reply listing_json :=
  match Auth.requireAuth s with
  | Auth.Denied r => r
  | Auth.Granted _ =>
      match own_server s t (JS.parseInt10 id) with
      | None => {| Auth.status := 404;
                   Auth.body := Auth.Error "Server not found or access denied" |}
      | Some (n, l) => {| Auth.status := 200; Auth.body := Auth.Row (Plain n l) |}
      end
  end.

Definition update_listing (l : listing) (b : fields) : listing :=
  {| name := JS.orEmpty (f_name b); ip := JS.orEmpty (f_ip b);
     description := JS.orEmpty (f_description b);
     website_url := JS.orEmpty (f_website_url b);
     banner_url := JS.orEmpty (f_banner_url b);
     plan := plan l; votes := votes l; owner_id := owner_id l; created_at := created_at l |}.

(** PUT /api/user/servers/:id *)
Definition putUserServer (s : Auth.session) (t : table) (id : string) (b : fields)
    : table * Auth.reply listing_json :=
  match Auth.requireAuth s with
  | Auth.Denied r => (t, r)
  | Auth.Granted _ =>
      if JS.absent (f_name b) || JS.absent (f_ip b) then
        (t, {| Auth.status := 400; Auth.body := Auth.Error "Name and IP are required" |})
      else
        match own_server s t (JS.parseInt10 id) with
        | None => (t, {| Auth.status := 404;
                         Auth.body := Auth.Error "Server not found or access denied" |})
        | Some (n, l) =>
            let t := {| rows := <[n := update_listing l b]> (rows t); seq := seq t |} in
            (t, {| Auth.status := 200;
                   Auth.body := Auth.RowMessage ((fun l => Plain n l) <$> rows t !! n)
                                  "Server updated successfully" |})
        end
  end.

(** DELETE /api/user/servers/:id *)
Definition deleteUserServer (s : Auth.session) (t : table) (id : string)
    : table * Auth.reply listing_json :=
  match Auth.requireAuth s with
  | Auth.Denied r => (t, r)
  | Auth.Granted _ =>
      match own_server s t (JS.parseInt10 id) with
      | None => (t, {| Auth.status := 404;
                       Auth.body := Auth.Error "Server not found or access denied" |})
      | Some (n, _) =>
          ({| rows := delete n (rows t); seq := seq t |},
           {| Auth.status := 200; Auth.body := Auth.Message "Server deleted successfully" |})
      end
  end.

(** DELETE /api/admin/servers/:id *)
Definition deleteServer (s : Auth.session) (t : table) (id : string)
    : table * Auth.reply listing_json :=
  match Auth.requireAdmin s with
  | Auth.Denied r => (t, r)
  | Auth.Granted _ =>
      match JS.parseInt10 id ≫= (fun n => (fun l => (n, l)) <$> rows t !! n) with
      | None => (t, {| Auth.status := 404; Auth.body := Auth.Error "Server not found" |})
      | Some (n, _) =>
          ({| rows := delete n (rows t); seq := seq t |},
           {| Auth.status := 200; Auth.body := Auth.Message "Server deleted successfully" |})
      end
  end.

Definition set_plan (l : listing) (p : string) : listing :=
  {| name := name l; ip := ip l; description := description l;
     website_url := website_url l; banner_url := banner_url l;
     plan := p; votes := votes l; owner_id := owner_id l; created_at := created_at l |}.

(** PUT /api/admin/servers/:id/plan *)
Definition putServerPlan (s : Auth.session) (t : table) (id : string) (plan : option string)
    : table * Auth.reply listing_json :=
  match Auth.requireAdmin s with
  | Auth.Denied r => (t, r)
  | Auth.Granted _ =>
      if JS.absent plan || negb (bool_decide (JS.orEmpty plan ∈ [ "free"; "paid" ])) then
        (t, {| Auth.status := 400;
               Auth.body := Auth.Error "Valid plan (free or paid) is required" |})
      else
        match JS.parseInt10 id ≫= (fun n => (fun l => (n, l)) <$> rows t !! n) with
        | None => (t, {| Auth.status := 404; Auth.body := Auth.Error "Server not found" |})
        | Some (n, l) =>
            let t := {| rows := <[n := set_plan l (JS.orEmpty plan)]> (rows t); seq := seq t |} in
            (t, {| Auth.status := 200;
                   Auth.body := Auth.RowMessage ((fun l => Plain n l) <$> rows t !! n)
                                  "Server plan updated successfully" |})
        end
  end.

(** One request to a listing route, with the session it comes with. *)
Inductive operation :=
  | PostServer (s : Auth.session) (now : Z) (b : fields)
  | PutUserServer (s : Auth.session) (id : string) (b : fields)
  | DeleteUserServer (s : Auth.session) (id : string)
  | DeleteServer (s : Auth.session) (id : string)
  | PutServerPlan (s : Auth.session) (id : string) (plan : option string).

Definition session_of (op : operation) : Auth.session :=
  match op with
  | PostServer s _ _ | PutUserServer s _ _ | DeleteUserServer s _
  | DeleteServer s _ | PutServerPlan s _ _ => s
  end.

Definition step (users : gmap Z Accounts.user_row) (t : table) (op : operation) : table :=
  match op with
  | PostServer s now b => fst (postServer s users t now b)
  | PutUserServer s id b => fst (putUserServer s t id b)
  | DeleteUserServer s id => fst (deleteUserServer s t id)
  | DeleteServer s id => fst (deleteServer s t id)
  | PutServerPlan s id plan => fst (putServerPlan s t id plan)
  end.

Definition run (users : gmap Z Accounts.user_row) (t : table) (ops : list operation) : table :=
  fold_left (step users) ops t.

Definition empty : table := {| rows := ∅; seq := 0 |}.

End Listings.

(** ** Banner files *)

Module Uploads.

Definition code (c : ascii) : Z := Z.of_N (N_of_ascii c).

(** The character classes [\d], [[a-z0-9]] and [[a-zA-Z]]. *)
Definition is_digit (c : ascii) : bool := (48 <=? code c) && (code c <=? 57).

Definition is_lower_or_digit (c : ascii) : bool :=
  ((97 <=? code c) && (code c <=? 122)) || is_digit c.

Definition is_letter (c : ascii) : bool :=
  ((97 <=? code c) && (code c <=? 122)) || ((65 <=? code c) && (code c <=? 90)).

Fixpoint all_chars (p : ascii -> bool) (s : string) : bool :=
  match s with
  | EmptyString => true
  | String c rest => p c && all_chars p rest
  end.

(** The longest prefix of [s] in the class [p], and what follows it. *)
Fixpoint span (p : ascii -> bool) (s : string) : string * string :=
  match s with
  | EmptyString => (EmptyString, EmptyString)
  | String c rest =>
      if p c then let '(a, b) := span p rest in (String c a, b)
      else (EmptyString, s)
  end.

(** [s] without the prefix [p], if it starts with it. *)
Fixpoint strip_prefix (p s : string) : option string :=
  match p, s with
  | EmptyString, _ => Some s
  | String a p', String b s' => if Ascii.eqb a b then strip_prefix p' s' else None
  | String _ _, EmptyString => None
  end.

(** [/^banner-\d+-[a-z0-9]+\.[a-zA-Z]+$/.test(filename)]. No class of
    the pattern holds the character that must follow it, so each [+]
    takes the longest run. *)
Definition banner_pattern (filename : string) : bool :=
  match strip_prefix "banner-" filename with
  | None => false
  | Some rest =>
      let '(timestamp, rest) := span is_digit rest in
      match timestamp, rest with
      | String _ _, String "-" rest =>
          let '(random, rest) := span is_lower_or_digit rest in
          match random, rest with
          | String _ _, String "." ext => negb (String.eqb ext "") && all_chars is_letter ext
          | _, _ => false
          end
      | _, _ => false
      end
  end.

(** The check of the delete route, negated:
    [filename.startsWith('banner-') && pattern.test(filename)]. *)
Definition valid_filename (filename : string) : bool :=
  String.prefix "banner-" filename && banner_pattern filename.

(** DELETE /api/upload/banner/:filename; [dir] holds the names of the
    files of the uploads directory, and [fs.unlink] fails with ENOENT on
    a name that is not among them. *)
Definition deleteBanner (s : Auth.session) (dir : gset string) (filename : string)
    : gset string * Auth.reply unit :=
  match Auth.requireAuth s with
  | Auth.Denied r => (dir, r)
  | Auth.Granted _ =>
      if negb (String.prefix "banner-" filename) || negb (banner_pattern filename) then
        (dir, {| Auth.status := 400; Auth.body := Auth.Error "Invalid filename format" |})
      else if bool_decide (filename ∈ dir) then
        (dir ∖ {[ filename ]},
         {| Auth.status := 200; Auth.body := Auth.Message "File deleted successfully" |})
      else (dir, {| Auth.status := 404; Auth.body := Auth.Error "File not found" |})
  end.

(** What the upload callbacks read of a file. *)
Record file := {
  originalname : string;
  mimetype : string
}.

Definition allowedTypes : list string :=
  [ "image/jpeg"; "image/jpg"; "image/png"; "image/gif"; "image/webp" ].

Definition allowedExtensions : list string :=
  [ ".jpg"; ".jpeg"; ".png"; ".gif"; ".webp" ].

Section Naming.

(** [path.extname] of Node. *)
Variable extname : string -> string.

(** The [filename] callback of the storage; [timestamp] is [Date.now()]
    and [randomString] is
    [Math.random().toString(36).substring(2, 8)]. *)
Definition filename (timestamp : Z) (randomString : string) (f : file) : string :=
  let ext := JS.toLowerCase (extname (originalname f)) in
  "banner-" +:+ JS.numToString timestamp +:+ "-" +:+ randomString +:+ ext.

(** Whether [fileFilter] accepts the file. *)
Definition fileFilter (f : file) : bool :=
  let ext := JS.toLowerCase (extname (originalname f)) in
  bool_decide (mimetype f ∈ allowedTypes) && bool_decide (ext ∈ allowedExtensions).

End Naming.

End Uploads.

(** ** Sample sessions, accounts and listings *)

Definition no_session : Auth.session :=
  {| Auth.userId := None; Auth.username := None; Auth.userRole := None |}.

Definition admin_session : Auth.session :=
  {| Auth.userId := Some 1; Auth.username := None; Auth.userRole := Some "admin" |}.

Definition user_session : Auth.session :=
  {| Auth.userId := Some 2; Auth.username := None; Auth.userRole := Some "user" |}.

Definition other_session : Auth.session :=
  {| Auth.userId := Some 3; Auth.username := None; Auth.userRole := Some "user" |}.

Definition account (username role : string) : Accounts.user_row :=
  {| Accounts.username := username; Accounts.email := username +:+ "@example.org";
     Accounts.password_hash := "$2b$10$"; Accounts.role := role;
     Accounts.created_at := Clock.datetime t0; Accounts.last_login := None |}.

Definition three_users : gmap Z Accounts.user_row :=
  <[1 := account "root" "admin"]> (<[2 := account "steve" "user"]> (<[3 := account "alex" "user"]> ∅)).

Definition survival : Listings.fields :=
  {| Listings.f_name := Some "Survival"; Listings.f_ip := Some "play.example.org";
     Listings.f_description := None; Listings.f_website_url := None;
     Listings.f_banner_url := None; Listings.f_plan := Some "paid" |}.

(** An extension function for the samples: the text from the last dot. *)
Fixpoint from_last_dot (s : string) : string :=
  match s with
  | EmptyString => EmptyString
  | String c rest =>
      let tail := from_last_dot rest in
      if String.eqb tail "" then (if Ascii.eqb c "." then s else EmptyString) else tail
  end.

Definition castle_png : Uploads.file :=
  {| Uploads.originalname := "Castle.PNG"; Uploads.mimetype := "image/png" |}.

(** ** Predicates on requests and tables *)

(** Whether a request is a call of the blacklist route for [addr]. *)
Definition blacklists (addr : string) (op : operation) : Prop :=
  match op with
  | PostBlacklist _ _ _ ip _ _ => ip = Some addr
  | _ => False
  end.

(** Whether a request is a call of the verify route that names the
    challenge [id]. *)
Definition verifies (id : string) (op : operation) : Prop :=
  match op with
  | PostCaptchaVerify _ _ b => challengeId b = Some id
  | _ => False
  end.

(** Two calls of [verifyCaptcha] for the sample challenge with its right
    answer, one minute after its creation, the SELECTs of both served
    before the UPDATE of either. *)
Definition two_in_flight : list verify_event :=
  [ Select (t0 + minutes 1) uuid1 (SNum 9); Select (t0 + minutes 1) uuid1 (SNum 9);
    Update 0; Update 1 ].

(** The same two calls, the second served after the UPDATE of the
    first. *)
Definition one_after_the_other : list verify_event :=
  [ Select (t0 + minutes 1) uuid1 (SNum 9); Update 0;
    Select (t0 + minutes 1) uuid1 (SNum 9); Update 1 ].

(** The array [[0]] as the solution of the sample challenge [5 - 5]. *)
Definition answer_array_0 : verify_body :=
  {| challengeId := Some uuid1; solution_field := Some (SArr [ Some (SNum 0) ]) |}.

(** The AUTOINCREMENT counter of the listings is never below an id of
    the table. *)
Definition ids_below_seq (t : Listings.table) : Prop :=
  forall n l, Listings.rows t !! n = Some l -> n <= Listings.seq t.

(** What stays of a challenge row whatever is done to it. *)
Definition same_challenge (ch ch' : captcha_row) : Prop :=
  row_id ch' = row_id ch /\ ip_address ch' = ip_address ch /\ solution ch' = solution ch /\
  created_at ch' = created_at ch /\ expires_at ch' = expires_at ch /\
  (solved ch = true -> solved ch' = true).

(** * Properties *)

(** ** The clock and its texts *)

Module ClockFacts.
Import Clock.

(** *** The calendar *)

Lemma civil_ltb_lt a b : civil_ltb a b = true -> civil_lt a b.
Proof.
  destruct a as [ [ y m ] d ], b as [ [ y' m' ] d' ]. unfold civil_ltb, civil_lt.
  rewrite !orb_true_iff, !andb_true_iff, !orb_true_iff, !andb_true_iff,
    !Z.ltb_lt, !Z.eqb_eq. tauto.
Qed.

Lemma civil_lt_trans a b c : civil_lt a b -> civil_lt b c -> civil_lt a c.
Proof.
  destruct a as [ [ y m ] d ], b as [ [ y' m' ] d' ], c as [ [ y'' m'' ] d'' ].
  unfold civil_lt. lia.
Qed.

(** What the check [increasing] establishes, day by day. *)
Lemma increasing_sound n : forall doe prev,
  increasing n doe prev = true ->
  forall k, 0 <= k < Z.of_nat n ->
    well_formed (era_date (doe + k)) = true /\
    civil_ltb (if k =? 0 then prev else era_date (doe + k - 1)) (era_date (doe + k)) = true.
Proof.
  induction n as [ | n IH ]; intros doe prev Hinc k Hk; [ lia | ].
  cbn [increasing] in Hinc. cbv zeta in Hinc.
  destruct (well_formed (era_date doe) && civil_ltb prev (era_date doe)) eqn:Hhere;
    [ | discriminate ].
  apply andb_true_iff in Hhere. destruct Hhere as [ Hwf Hlt ].
  destruct (Z.eqb_spec k 0) as [ -> | Hk0 ].
  - rewrite Z.add_0_r. split; assumption.
  - specialize (IH (doe + 1) (era_date doe) Hinc (k - 1) ltac:(lia)).
    replace (doe + 1 + (k - 1)) with (doe + k) in IH by lia.
    destruct IH as [ Hwf' Hlt' ]. split; [ exact Hwf' | ].
    destruct (Z.eqb_spec (k - 1) 0) as [ Hk1 | Hk1 ].
    + replace (doe + k - 1) with doe by lia. exact Hlt'.
    + exact Hlt'.
Qed.

(** All the days of an era, the day before the first one being the last
    of the era before. *)
Lemma era_increasing : increasing (Z.to_nat 146097) 0 (0, 2, 29) = true.
Proof. vm_cast_no_check (eq_refl true). Qed.

(** In an era every date is well formed, and the next day has a later
    date. *)
Lemma era_date_well_formed doe : 0 <= doe < 146097 -> well_formed (era_date doe) = true.
Proof.
  intros H. destruct (increasing_sound _ _ _ era_increasing doe ltac:(lia)) as [ Hwf _ ].
  exact Hwf.
Qed.

Lemma era_date_next doe : 0 <= doe < 146096 -> civil_lt (era_date doe) (era_date (doe + 1)).
Proof.
  intros H. destruct (increasing_sound _ _ _ era_increasing (doe + 1) ltac:(lia)) as [ _ Hlt ].
  replace (doe + 1 =? 0) with false in Hlt by (symmetry; apply Z.eqb_neq; lia).
  replace (0 + (doe + 1) - 1) with doe in Hlt by lia.
  apply civil_ltb_lt. exact Hlt.
Qed.

(** The next day has a later date, across eras too: the last day of an
    era is a 29th of February, the first of the next a 1st of March. *)
Lemma civil_from_days_next days : civil_lt (civil_from_days days) (civil_from_days (days + 1)).
Proof.
  unfold civil_from_days; cbv zeta.
  set (z := days + 719468). replace (days + 1 + 719468) with (z + 1) by (unfold z; lia).
  set (era := z / 146097). set (doe := z - era * 146097).
  assert (Hdoe : 0 <= doe < 146097) by (unfold doe, era; Z.div_mod_to_equations; lia).
  destruct (Z.eq_dec doe 146096) as [ Hlast | Hin ].
  - assert (Hera : (z + 1) / 146097 = era + 1)
      by (unfold doe, era in *; Z.div_mod_to_equations; lia).
    rewrite Hera. replace (z + 1 - (era + 1) * 146097) with 0 by (unfold doe in Hlast; lia).
    rewrite Hlast. vm_compute era_date. unfold civil_lt. lia.
  - assert (Hera : (z + 1) / 146097 = era)
      by (unfold doe, era in *; Z.div_mod_to_equations; lia).
    rewrite Hera. replace (z + 1 - era * 146097) with (doe + 1) by (unfold doe; lia).
    pose proof (era_date_next doe ltac:(lia)) as Hnext.
    destruct (era_date doe) as [ [ y m ] d ], (era_date (doe + 1)) as [ [ y' m' ] d' ].
    unfold civil_lt in *. lia.
Qed.

(** Later days have later dates. *)
Lemma civil_from_days_lt a b : a < b -> civil_lt (civil_from_days a) (civil_from_days b).
Proof.
  intros Hab. replace b with (a + 1 + (b - a - 1)) by lia.
  assert (Hn : 0 <= b - a - 1) by lia. revert Hn. generalize (b - a - 1). clear b Hab.
  apply natlike_ind.
  - rewrite Z.add_0_r. apply civil_from_days_next.
  - intros n Hn IH. eapply civil_lt_trans; [ exact IH | ].
    replace (a + 1 + Z.succ n) with (a + 1 + n + 1) by lia. apply civil_from_days_next.
Qed.

(** Every date has a month and a day of the month. *)
Lemma civil_from_days_month_day days :
  let '(y, m, d) := civil_from_days days in 1 <= m <= 12 /\ 1 <= d <= 31.
Proof.
  unfold civil_from_days; cbv zeta.
  set (z := days + 719468). set (era := z / 146097). set (doe := z - era * 146097).
  assert (Hdoe : 0 <= doe < 146097) by (unfold doe, era; Z.div_mod_to_equations; lia).
  pose proof (era_date_well_formed doe Hdoe) as Hwf.
  destruct (era_date doe) as [ [ y m ] d ]. unfold well_formed in Hwf.
  rewrite !andb_true_iff, !Z.leb_le in Hwf. lia.
Qed.

(** From 1970 to 9999 the date has a year of four digits, a month and a
    day. *)
Lemma civil_from_days_range days :
  0 <= days < 2932897 ->
  let '(y, m, d) := civil_from_days days in
  1970 <= y <= 9999 /\ 1 <= m <= 12 /\ 1 <= d <= 31.
Proof.
  intros H. pose proof (civil_from_days_month_day days) as Hmd.
  assert (Hlo : days = 0 \/ civil_lt (civil_from_days 0) (civil_from_days days)).
  { destruct (Z.eq_dec days 0); [ left; assumption | right; apply civil_from_days_lt; lia ]. }
  assert (Hhi : days = 2932896 \/ civil_lt (civil_from_days days) (civil_from_days 2932896)).
  { destruct (Z.eq_dec days 2932896); [ left; assumption | right; apply civil_from_days_lt; lia ]. }
  change (civil_from_days 0) with (1970, 1, 1) in Hlo.
  change (civil_from_days 2932896) with (9999, 12, 31) in Hhi.
  destruct Hlo as [ -> | Hlo ]; [ vm_compute; repeat split; discriminate | ].
  destruct Hhi as [ -> | Hhi ]; [ vm_compute; repeat split; discriminate | ].
  destruct (civil_from_days days) as [ [ y m ] d ]. unfold civil_lt in *. lia.
Qed.


(** *** Text order *)

(** Comparison of texts with a common start. *)
Lemma ascii_compare_refl c : Ascii.compare c c = Eq.
Proof. unfold Ascii.compare. apply N.compare_refl. Qed.

Lemma string_compare_cons c s t : String.compare (String c s) (String c t) = String.compare s t.
Proof. simpl. rewrite ascii_compare_refl. reflexivity. Qed.

Lemma string_compare_app p a b : String.compare (p +:+ a) (p +:+ b) = String.compare a b.
Proof.
  induction p as [ | c p IH ]; simpl; [ reflexivity | ].
  rewrite ascii_compare_refl. exact IH.
Qed.


(** Concatenation. *)
Lemma append_cons c (s t : string) : String c s +:+ t = String c (s +:+ t).
Proof. reflexivity. Qed.

Lemma append_nil (s : string) : "" +:+ s = s.
Proof. reflexivity. Qed.

Lemma append_assoc (a b c : string) : (a +:+ b) +:+ c = a +:+ (b +:+ c).
Proof.
  induction a as [ | x a IH ]; [ reflexivity | ].
  rewrite !append_cons, IH. reflexivity.
Qed.

Lemma append_empty (s : string) : s +:+ "" = s.
Proof.
  induction s as [ | x s IH ]; [ reflexivity | ].
  rewrite append_cons, IH. reflexivity.
Qed.

(** Digits are ordered as characters the way they are as numbers. *)
Lemma digit_compare x y :
  0 <= x < 10 -> 0 <= y < 10 -> Ascii.compare (digit x) (digit y) = (x ?= y).
Proof.
  intros Hx Hy. unfold Ascii.compare, digit.
  rewrite !N_ascii_embedding by lia.
  rewrite Z2N.inj_compare by lia. apply Z.add_compare_mono_l.
Qed.

(** Padded numbers are ordered as texts the way their last [w] digits
    are ordered as numbers. *)
Lemma pad_compare_mod w : forall a b s t,
  String.compare (pad w a +:+ s) (pad w b +:+ t) =
  match a mod 10 ^ Z.of_nat w ?= b mod 10 ^ Z.of_nat w with
  | Eq => String.compare s t
  | c => c
  end.
Proof.
  induction w as [ | w IH ]; intros a b s t.
  - simpl. rewrite !Z.mod_1_r. reflexivity.
  - cbn [pad]. rewrite !append_cons. cbn [String.compare].
    assert (Hp : 0 < 10 ^ Z.of_nat w) by (apply Z.pow_pos_nonneg; lia).
    rewrite Nat2Z.inj_succ, Z.pow_succ_r by lia.
    rewrite (Z.mul_comm 10), !Z.rem_mul_r by lia.
    set (p := 10 ^ Z.of_nat w) in *.
    assert (Ha : 0 <= a mod p < p) by (apply Z.mod_pos_bound; lia).
    assert (Hb : 0 <= b mod p < p) by (apply Z.mod_pos_bound; lia).
    assert (Hda : 0 <= a / p mod 10 < 10) by (apply Z.mod_pos_bound; lia).
    assert (Hdb : 0 <= b / p mod 10 < 10) by (apply Z.mod_pos_bound; lia).
    rewrite digit_compare by assumption. rewrite IH.
    generalize dependent (a mod p). generalize dependent (b mod p).
    generalize dependent (a / p mod 10). generalize dependent (b / p mod 10).
    intros db Hdb da Hda rb Hrb ra Hra.
    destruct (Z.compare_spec da db), (Z.compare_spec ra rb),
      (Z.compare_spec (ra + p * da) (rb + p * db)); try reflexivity; exfalso; nia.
Qed.

(** Numbers that fit the width are ordered as texts the way they are as
    numbers. *)
Lemma pad_compare w a b s t :
  0 <= a < 10 ^ Z.of_nat w -> 0 <= b < 10 ^ Z.of_nat w ->
  String.compare (pad w a +:+ s) (pad w b +:+ t) =
  match a ?= b with
  | Eq => String.compare s t
  | c => c
  end.
Proof.
  intros Ha Hb. rewrite pad_compare_mod, !Z.mod_small by assumption. reflexivity.
Qed.

(** Dates print in their order. *)
Lemma date_of_day_compare a b s t :
  0 <= a < 2932897 -> 0 <= b < 2932897 ->
  String.compare (date_of_day a +:+ s) (date_of_day b +:+ t) =
  match a ?= b with
  | Eq => String.compare s t
  | c => c
  end.
Proof.
  intros Ha Hb. unfold date_of_day.
  pose proof (civil_from_days_range a Ha) as Hra.
  pose proof (civil_from_days_range b Hb) as Hrb.
  assert (Hord : match a ?= b with
                 | Eq => civil_from_days a = civil_from_days b
                 | Lt => civil_lt (civil_from_days a) (civil_from_days b)
                 | Gt => civil_lt (civil_from_days b) (civil_from_days a)
                 end).
  { destruct (Z.compare_spec a b) as [ -> | Hlt | Hgt ];
      [ reflexivity | apply civil_from_days_lt; assumption | apply civil_from_days_lt; assumption ]. }
  destruct (civil_from_days a) as [ [ y m ] d ], (civil_from_days b) as [ [ y' m' ] d' ].
  cbv beta iota. rewrite !append_assoc.
  rewrite (pad_compare 4) by (simpl; lia).
  rewrite ?append_cons, ?append_nil, string_compare_cons.
  rewrite (pad_compare 2) by (simpl; lia).
  rewrite ?append_cons, ?append_nil, string_compare_cons.
  rewrite (pad_compare 2) by (simpl; lia).
  unfold civil_lt in Hord.
  destruct (a ?= b).
  - inversion Hord; subst. rewrite !Z.compare_refl. reflexivity.
  - destruct (Z.compare_spec y y'); try lia; try reflexivity.
    destruct (Z.compare_spec m m'); try lia; try reflexivity.
    destruct (Z.compare_spec d d'); try lia; reflexivity.
  - destruct (Z.compare_spec y y'); try lia; try reflexivity.
    destruct (Z.compare_spec m m'); try lia; try reflexivity.
    destruct (Z.compare_spec d d'); try lia; reflexivity.
Qed.

(** Times of day print in their order. *)
Lemma time_of_second_compare a b s t :
  0 <= a < 86400 -> 0 <= b < 86400 ->
  String.compare (time_of_second a +:+ s) (time_of_second b +:+ t) =
  match a ?= b with
  | Eq => String.compare s t
  | c => c
  end.
Proof.
  intros Ha Hb. unfold time_of_second.
  rewrite !append_assoc.
  rewrite (pad_compare 2) by (simpl; Z.div_mod_to_equations; lia).
  rewrite ?append_cons, ?append_nil, string_compare_cons.
  rewrite (pad_compare 2) by (simpl; Z.div_mod_to_equations; lia).
  rewrite ?append_cons, ?append_nil, string_compare_cons.
  rewrite (pad_compare 2) by (simpl; Z.div_mod_to_equations; lia).
  destruct (Z.compare_spec a b) as [ -> | Hlt | Hgt ].
  - rewrite !Z.compare_refl. reflexivity.
  - destruct (Z.compare_spec (a / 3600) (b / 3600)); [ | reflexivity | Z.div_mod_to_equations; lia ].
    destruct (Z.compare_spec (a / 60 mod 60) (b / 60 mod 60));
      [ | reflexivity | Z.div_mod_to_equations; lia ].
    destruct (Z.compare_spec (a mod 60) (b mod 60));
      [ Z.div_mod_to_equations; lia | reflexivity | Z.div_mod_to_equations; lia ].
  - destruct (Z.compare_spec (a / 3600) (b / 3600)); [ | Z.div_mod_to_equations; lia | reflexivity ].
    destruct (Z.compare_spec (a / 60 mod 60) (b / 60 mod 60));
      [ | Z.div_mod_to_equations; lia | reflexivity ].
    destruct (Z.compare_spec (a mod 60) (b mod 60));
      [ Z.div_mod_to_equations; lia | Z.div_mod_to_equations; lia | reflexivity ].
Qed.

(** The day and the second of the day of an instant in range. *)
Lemma in_range_day ms : in_range ms -> 0 <= seconds ms / 86400 < 2932897.
Proof. unfold in_range, end_of_time, seconds. intros H. Z.div_mod_to_equations. lia. Qed.

Lemma second_of_day_range ms : 0 <= seconds ms mod 86400 < 86400.
Proof. apply Z.mod_pos_bound. lia. Qed.

(** Two texts of [datetime] compare as the whole seconds of their
    instants. *)
Theorem datetime_compare a b :
  in_range a -> in_range b ->
  String.compare (datetime a) (datetime b) = (seconds a ?= seconds b).
Proof.
  intros Ha Hb. unfold datetime, date, time.
  rewrite date_of_day_compare by (apply in_range_day; assumption).
  rewrite ?append_cons, ?append_nil, string_compare_cons.
  rewrite <- (append_empty (time_of_second (seconds a mod 86400))).
  rewrite <- (append_empty (time_of_second (seconds b mod 86400))).
  rewrite time_of_second_compare by apply second_of_day_range.
  cbn [String.compare].
  destruct (Z.compare_spec (seconds a) (seconds b)) as [ Heq | Hlt | Hgt ].
  - rewrite Heq, !Z.compare_refl. reflexivity.
  - destruct (Z.compare_spec (seconds a / 86400) (seconds b / 86400));
      [ | reflexivity | Z.div_mod_to_equations; lia ].
    destruct (Z.compare_spec (seconds a mod 86400) (seconds b mod 86400));
      [ Z.div_mod_to_equations; lia | reflexivity | Z.div_mod_to_equations; lia ].
  - destruct (Z.compare_spec (seconds a / 86400) (seconds b / 86400));
      [ | Z.div_mod_to_equations; lia | reflexivity ].
    destruct (Z.compare_spec (seconds a mod 86400) (seconds b mod 86400));
      [ Z.div_mod_to_equations; lia | Z.div_mod_to_equations; lia | reflexivity ].
Qed.

Corollary datetime_ltb a b :
  in_range a -> in_range b ->
  String.ltb (datetime a) (datetime b) = (seconds a <? seconds b).
Proof.
  intros Ha Hb. unfold String.ltb, Z.ltb. rewrite datetime_compare by assumption. reflexivity.
Qed.

(** The text of [toISOString] against the text of [datetime]: the days
    decide, and on one day the [T] is above the space. *)
Theorem datetime_ltb_iso now until :
  in_range now -> in_range until ->
  String.ltb (datetime now) (toISOString until) = (seconds now / 86400 <=? seconds until / 86400).
Proof.
  intros Ha Hb. unfold String.ltb, datetime, toISOString, date.
  rewrite date_of_day_compare by (apply in_range_day; assumption).
  rewrite ?append_cons, ?append_nil. cbn [String.compare]. unfold Z.leb.
  destruct (seconds now / 86400 ?= seconds until / 86400); reflexivity.
Qed.

End ClockFacts.

(** ** The heuristic scorer *)

Lemma add_if_true points score : add_if true points score = score + points.
Proof. reflexivity. Qed.

Lemma add_if_lower b points score : 0 <= points -> score <= add_if b points score.
Proof. destruct b; simpl; lia. Qed.

Lemma add_if_upper b points score : 0 <= points -> add_if b points score <= score + points.
Proof. destruct b; simpl; lia. Qed.

Ltac bound_points b p s :=
  let Hlo := fresh "Hlo" in
  let Hup := fresh "Hup" in
  assert (Hlo : s <= add_if b p s) by (apply add_if_lower; lia);
  assert (Hup : add_if b p s <= s + p) by (apply add_if_upper; lia);
  generalize dependent (add_if b p s); intros.

Ltac case_points :=
  repeat match goal with
  | |- context [add_if ?b ?p ?s] => bound_points b p s
  | _ : context [add_if ?b ?p ?s] |- _ => bound_points b p s
  end.

(** The score is an integer between 0 and 100. *)
Lemma calculateBotScore_range req : 0 <= calculateBotScore req <= 100.
Proof.
  unfold calculateBotScore; cbv zeta.
  case_points. lia.
Qed.

(** C5, the claim as stated fails: a crawler whose user-agent matches the
    signature [bot], sends no Accept-Language and otherwise looks like a
    browser scores 30 + 15 = 45, below 55. *)
Lemma C5_googlebot_scores_45 :
  (exists p, In p botPatterns /\
     JS.test_ci p (JS.orEmpty (get googlebot "user-agent")) = true) /\
  get googlebot "accept-language" = None /\
  calculateBotScore googlebot = 45 /\
  ~ 55 <= calculateBotScore googlebot.
Proof.
  split; [ exists "bot"; split; [ simpl; tauto | vm_compute; reflexivity ] | ].
  split; [ vm_compute; reflexivity | ].
  split; [ vm_compute; reflexivity | ].
  vm_compute. intros H. apply H. reflexivity.
Qed.

(** C5, amended: a request whose user-agent matches a known
    automation-tool signature and which carries no Accept-Language header
    scores at least 45 (30 for the signature, 15 for the missing header),
    and at most 100. *)
Theorem C5_automation_without_language_scores_45 (req : request) :
  (exists p, In p botPatterns /\
     JS.test_ci p (JS.orEmpty (get req "user-agent")) = true) ->
  get req "accept-language" = None ->
  45 <= calculateBotScore req <= 100.
Proof.
  intros Hbot Hlang.
  split; [ | apply calculateBotScore_range ].
  assert (Hex : existsb (fun p => JS.test_ci p (JS.orEmpty (get req "user-agent"))) botPatterns = true).
  { apply existsb_exists. destruct Hbot as (p & Hin & Hp). exists p. split; assumption. }
  unfold calculateBotScore; cbv zeta.
  rewrite Hex, Hlang. change (JS.falsy (JS.orEmpty None)) with true.
  rewrite !add_if_true.
  case_points. lia.
Qed.

(** C5, amended, on the crawler of the counterexample. *)
Lemma C5_automation_without_language_witness :
  (exists p, In p botPatterns /\
     JS.test_ci p (JS.orEmpty (get googlebot "user-agent")) = true) /\
  get googlebot "accept-language" = None /\
  45 <= calculateBotScore googlebot <= 100.
Proof.
  assert (Hbot : exists p, In p botPatterns /\
            JS.test_ci p (JS.orEmpty (get googlebot "user-agent")) = true).
  { exists "bot". split; [ simpl; tauto | vm_compute; reflexivity ]. }
  assert (Hlang : get googlebot "accept-language" = None) by (vm_compute; reflexivity).
  exact (conj Hbot (conj Hlang (C5_automation_without_language_scores_45 googlebot Hbot Hlang))).
Defined.

(** ** The reputation store *)

Section Reputation.

Variable UAParser : string -> option string * option string.

(** [updateBotScore] returns the score of the request. *)
Lemma updateBotScore_score d now req :
  snd (updateBotScore UAParser d now req) = calculateBotScore req.
Proof. reflexivity. Qed.

(** [updateBotScore] writes [bot_scores] and nothing else. *)
Lemma updateBotScore_frame d now req :
  let d' := fst (updateBotScore UAParser d now req) in
  servers d' = servers d /\ votes_table d' = votes_table d /\
  security_events d' = security_events d /\ ip_blacklist d' = ip_blacklist d /\
  captcha_challenges d' = captcha_challenges d /\ captcha_seq d' = captcha_seq d.
Proof. repeat split. Qed.

(** C7: the first observation of a key (address, user-agent) creates its
    record with request count 1; every later observation adds 1 to the
    request count, adds 1 to the suspicious-pattern count exactly when the
    observed score is above 50, and stores the observed score in place of
    the old one. Records of other keys are untouched. *)
Theorem C7_reputation_update (d : db) (now : Z) (req : request) :
  let key := (ip req, JS.orEmpty (get req "user-agent")) in
  let d' := fst (updateBotScore UAParser d now req) in
  let s := calculateBotScore req in
  (bot_scores d !! key = None ->
     exists row, bot_scores d' !! key = Some row /\
       request_count row = 1 /\ bot_score row = s) /\
  (forall old, bot_scores d !! key = Some old ->
     exists row, bot_scores d' !! key = Some row /\
       request_count row = request_count old + 1 /\
       (50 < s -> suspicious_patterns row = suspicious_patterns old + 1) /\
       (s <= 50 -> suspicious_patterns row = suspicious_patterns old) /\
       bot_score row = s) /\
  (forall k, k <> key -> bot_scores d' !! k = bot_scores d !! k).
Proof.
  intros key d' s. subst d'. unfold updateBotScore; cbv zeta; simpl fst.
  fold key. fold s.
  split; [ | split ].
  - intros Hnone. eexists. split; [ apply lookup_insert_eq | ].
    rewrite Hnone. simpl. split; reflexivity.
  - intros old Hold. eexists. split; [ apply lookup_insert_eq | ].
    rewrite Hold. simpl.
    split; [ reflexivity | ].
    split; [ | split; [ | reflexivity ] ]; intros Hs.
    + replace (s >? 50) with true; [ reflexivity | ].
      symmetry. rewrite Z.gtb_ltb. apply Z.ltb_lt. exact Hs.
    + replace (s >? 50) with false; [ lia | ].
      symmetry. rewrite Z.gtb_ltb. apply Z.ltb_ge. exact Hs.
  - intros k Hk. simpl. apply lookup_insert_ne. congruence.
Qed.

End Reputation.

(** C7 on two observations of one client: the first creates the record,
    the second counts. *)
Lemma C7_reputation_update_witness :
  bot_scores empty_db !! (ip curl_bare, "curl/7.68.0") = None /\
  (exists row, bot_scores (fst (updateBotScore no_names empty_db t0 curl_bare))
                 !! (ip curl_bare, "curl/7.68.0") = Some row /\
     request_count row = 1 /\ bot_score row = 100) /\
  (exists row, bot_scores (fst (updateBotScore no_names
                                  (fst (updateBotScore no_names empty_db t0 curl_bare))
                                  (t0 + minutes 1) curl_dressed))
                 !! (ip curl_bare, "curl/7.68.0") = Some row /\
     request_count row = 2 /\ suspicious_patterns row = 2 /\ bot_score row = 65).
Proof.
  assert (Hnone : bot_scores empty_db !! (ip curl_bare, "curl/7.68.0") = None) by reflexivity.
  split; [ exact Hnone | ].
  split.
  - exact (proj1 (C7_reputation_update no_names empty_db t0 curl_bare) Hnone).
  - destruct (proj1 (proj2 (C7_reputation_update no_names
                              (fst (updateBotScore no_names empty_db t0 curl_bare))
                              (t0 + minutes 1) curl_dressed))
                {| device_fingerprint := generateDeviceFingerprint curl_bare
                                           (parseDeviceInfo no_names curl_bare);
                   bot_score := 100; request_count := 1; suspicious_patterns := 1;
                   last_updated := Clock.datetime t0 |})
      as (row & Hrow & Hcount & Hsusp & _ & Hscore); [ vm_compute; reflexivity | ].
    exists row. split; [ exact Hrow | ]. split; [ exact Hcount | ].
    split; [ | exact Hscore ].
    apply Hsusp. vm_compute. reflexivity.
Defined.

(** ** The access decision pipeline *)

Section Decision.

Variable UAParser : string -> option string * option string.

(** A blacklisted address is answered 403 before any scoring: the
    reputation store is not touched. *)
Lemma blacklisted_rejected d now req :
  isBlacklisted d now (ip req) = true ->
  snd (botDetectionMiddleware UAParser d now req) =
    Respond {| status := 403; body := JRejection "Access denied" "IP_BLACKLISTED" None |} /\
  bot_scores (fst (botDetectionMiddleware UAParser d now req)) = bot_scores d.
Proof.
  intros H. unfold botDetectionMiddleware. rewrite H. split; reflexivity.
Qed.

(** An address that is not blacklisted is never answered 403. *)
Lemma not_blacklisted_not_rejected d now req :
  isBlacklisted d now (ip req) = false ->
  forall b, snd (botDetectionMiddleware UAParser d now req) <> Respond {| status := 403; body := b |}.
Proof.
  intros H b. unfold botDetectionMiddleware. rewrite H.
  unfold updateBotScore; cbv zeta.
  destruct (calculateBotScore req >=? 80); [ simpl; congruence | ].
  destruct (calculateBotScore req >=? 60); simpl; congruence.
Qed.

(** C1: past the blacklist check, a score of 80 or more is answered 429
    with code CAPTCHA_REQUIRED and the score in the body; a score from 60
    to 79 lets the request through marked suspicious; a score below 60
    lets it through unmarked. *)
Theorem C1_score_bands (d : db) (now : Z) (req : request) :
  isBlacklisted d now (ip req) = false ->
  let s := calculateBotScore req in
  let out := snd (botDetectionMiddleware UAParser d now req) in
  (80 <= s ->
     exists msg, out = Respond {| status := 429;
                                  body := JRejection msg "CAPTCHA_REQUIRED" (Some s) |}) /\
  (60 <= s < 80 -> out = Next true s) /\
  (s < 60 -> out = Next false s).
Proof.
  intros H s out. subst out. unfold botDetectionMiddleware. rewrite H.
  unfold updateBotScore; cbv zeta. fold s.
  rewrite !Z.geb_leb.
  destruct (Z.leb_spec 80 s) as [H80 | H80];
    destruct (Z.leb_spec 60 s) as [H60 | H60]; simpl;
    (split; [ | split ]); intros Hs; try lia; try reflexivity;
    eexists; reflexivity.
Qed.

End Decision.

(** C1 on three requests to a store without blacklist: curl with no
    other header scores 100, curl with the headers of a browser 65, and
    the crawler 45. *)
Lemma C1_score_bands_witness :
  isBlacklisted empty_db t0 (ip curl_bare) = false /\
  (exists msg, snd (botDetectionMiddleware no_names empty_db t0 curl_bare) =
     Respond {| status := 429; body := JRejection msg "CAPTCHA_REQUIRED" (Some 100) |}) /\
  snd (botDetectionMiddleware no_names empty_db t0 curl_dressed) = Next true 65 /\
  snd (botDetectionMiddleware no_names empty_db t0 googlebot) = Next false 45.
Proof.
  assert (Hfree : forall req, isBlacklisted empty_db t0 (ip req) = false) by reflexivity.
  split; [ apply Hfree | ].
  split; [ | split ].
  - apply (C1_score_bands no_names empty_db t0 curl_bare (Hfree _)).
    vm_compute. discriminate.
  - apply (C1_score_bands no_names empty_db t0 curl_dressed (Hfree _)).
    vm_compute. split; [ discriminate | reflexivity ].
  - apply (C1_score_bands no_names empty_db t0 googlebot (Hfree _)).
    vm_compute. reflexivity.
Defined.

(** ** The blacklist guard *)

(** A row without [blocked_until] is in force at every instant. *)
Lemma permanent_block_active now r :
  blocked_until r = None -> blacklist_active now r = true.
Proof. intros H. unfold blacklist_active. rewrite H. reflexivity. Qed.

(** An address blocked without a duration is blacklisted ever after. *)
Lemma blocked_forever now : isBlacklisted db_blocked_forever now banned_ip = true.
Proof.
  unfold isBlacklisted.
  change (ip_blacklist db_blocked_forever !! banned_ip)
    with (Some {| reason := "vote flooding"; blocked_at := "2024-05-01 10:00:00";
                  blocked_until := None; created_by := Some 1 |}).
  reflexivity.
Qed.

(** An address without a row is not blacklisted. *)
Lemma no_row_not_blacklisted d now ip :
  ip_blacklist d !! ip = None -> isBlacklisted d now ip = false.
Proof. intros H. unfold isBlacklisted. rewrite H. reflexivity. Qed.

(** The text the blacklist route stores and the text SQLite compares it
    with differ in their eleventh character, [T] against a space, so a
    timed block that ends on the UTC day of the request is in force at
    every hour of that day. *)
Lemma same_day_block_active now until r :
  blocked_until r = Some (Clock.toISOString until) ->
  Clock.date until = Clock.date now ->
  blacklist_active now r = true.
Proof.
  intros Hr Hday. unfold blacklist_active. rewrite Hr.
  unfold Clock.datetime, Clock.toISOString. rewrite Hday.
  unfold String.ltb. rewrite ClockFacts.string_compare_app. reflexivity.
Qed.

(** A timed block written by the blacklist route is in force up to the
    end of the UTC day on which it ends, and not on the days after. *)
Lemma timed_block_active now until r :
  blocked_until r = Some (Clock.toISOString until) ->
  Clock.in_range now -> Clock.in_range until ->
  blacklist_active now r = (Clock.seconds now / 86400 <=? Clock.seconds until / 86400).
Proof.
  intros Hr Hnow Huntil. unfold blacklist_active. rewrite Hr.
  apply ClockFacts.datetime_ltb_iso; assumption.
Qed.

(** The route stores the end of the block in ISO 8601 form. *)
Lemma postBlacklist_stores_iso d now userId req ip reason m :
  ip <> "" -> reason <> "" -> m <> 0 ->
  blocked_until <$> ip_blacklist (fst (postBlacklist d now userId req (Some ip) (Some reason) (Some m))) !! ip
  = Some (Some (Clock.toISOString (now + m * 60000))).
Proof.
  intros Hip Hreason Hm. unfold postBlacklist.
  assert (Hf : forall x : string, x <> "" -> JS.absent (Some x) = false).
  { intros x Hx. unfold JS.absent, JS.falsy. simpl. apply String.eqb_neq. exact Hx. }
  rewrite (Hf ip Hip), (Hf reason Hreason). simpl orb. cbv iota.
  apply Z.eqb_neq in Hm. rewrite Hm. simpl.
  rewrite lookup_insert_eq. reflexivity.
Qed.

(** C2, the code at the failing input: the address was blocked at
    10:00 for 60 minutes, so until 11:00; at 12:00 of the same day the
    block lies an hour in the past, the request scores 0, and the
    pipeline still answers 403 IP_BLACKLISTED. The day after, the same
    block is no longer in force. *)
Theorem C2_expired_block_still_rejected :
  blocked_until <$> ip_blacklist db_blocked_1h !! banned_ip
    = Some (Some (Clock.toISOString (t0 + minutes 60))) /\
  t0 + minutes 60 < t0 + minutes 120 /\
  Clock.toISOString (t0 + minutes 60) = "2024-05-01T11:00:00.000Z" /\
  Clock.datetime (t0 + minutes 120) = "2024-05-01 12:00:00" /\
  calculateBotScore banned_vote = 0 /\
  snd (botDetectionMiddleware no_names db_blocked_1h (t0 + minutes 120) banned_vote)
    = Respond {| status := 403; body := JRejection "Access denied" "IP_BLACKLISTED" None |} /\
  isBlacklisted db_blocked_1h (t0 + minutes (24 * 60)) banned_ip = false.
Proof. repeat split; vm_compute; reflexivity. Qed.

(** ** The challenge manager *)

(** The challenge a verification finds: stored under the id, unexpired
    and unsolved. *)
Lemma live_challenge_Some d now id ch :
  live_challenge d now id = Some ch <->
  captcha_challenges d !! id = Some ch /\ unexpired now ch = true /\ solved ch = false.
Proof.
  unfold live_challenge.
  destruct (captcha_challenges d !! id) as [ c | ] eqn:Hc.
  - destruct (unexpired now c) eqn:Hlt; destruct (solved c) eqn:Hs; simpl; split.
    all: try discriminate.
    all: try (intros (Heq & Hlt' & Hs'); inversion Heq; subst; congruence).
    intros Heq. inversion Heq; subst. repeat split; assumption.
  - split; [ discriminate | intros (Heq & _); discriminate ].
Qed.

(** A verification finds no challenge when none is stored under the id,
    or the stored one has expired or is solved. *)
Lemma live_challenge_None d now id :
  live_challenge d now id = None <->
  forall ch, captcha_challenges d !! id = Some ch ->
    unexpired now ch = false \/ solved ch = true.
Proof.
  split.
  - intros Hnone ch Hch.
    destruct (unexpired now ch) eqn:Hlt; [ | left; reflexivity ].
    destruct (solved ch) eqn:Hs; [ right; reflexivity | ].
    assert (Hlive : live_challenge d now id = Some ch).
    { apply live_challenge_Some. repeat split; assumption. }
    congruence.
  - intros H. destruct (live_challenge d now id) as [ ch | ] eqn:Hlive; [ | reflexivity ].
    apply live_challenge_Some in Hlive. destruct Hlive as (Hch & Hlt & Hs).
    destruct (H ch Hch); congruence.
Qed.

(** After [set_solved] on its row, a challenge is not live any more. *)
Lemma set_solved_not_live d now id ch :
  captcha_challenges d !! id = Some ch ->
  live_challenge (set_solved d (row_id ch)) now id = None.
Proof.
  intros Hch. unfold live_challenge, set_solved. simpl.
  rewrite lookup_fmap, Hch. simpl. rewrite Z.eqb_refl. simpl.
  rewrite andb_false_r. reflexivity.
Qed.

(** The row of a new challenge. *)
Lemma createCaptchaChallenge_row d now uuid r ip d' q :
  createCaptchaChallenge d now uuid r ip = Some (d', q) ->
  captcha_challenges d !! uuid = None /\
  exists ch, captcha_challenges d' !! uuid = Some ch /\
    ip_address ch = ip /\
    solution ch = JS.numToString (snd (generateSimpleCaptcha r)) /\
    solved ch = false /\
    expires_at ch = Clock.datetime (now + 300000) /\
    bot_scores d' = bot_scores d.
Proof.
  unfold createCaptchaChallenge.
  destruct (generateSimpleCaptcha r) as [ question answer ].
  destruct (captcha_challenges d !! uuid) eqn:Hfree; [ discriminate | ].
  intros Heq. inversion Heq; subst; clear Heq. split; [ reflexivity | ].
  eexists. simpl. rewrite lookup_insert_eq. repeat split.
Qed.

(** A challenge created at [created] is unexpired during the 300
    seconds that follow, and not after. *)
Lemma unexpired_created d created uuid r ip d' q ch now :
  createCaptchaChallenge d created uuid r ip = Some (d', q) ->
  captcha_challenges d' !! uuid = Some ch ->
  Clock.in_range created -> Clock.in_range (created + 300000) -> Clock.in_range now ->
  unexpired now ch = (Clock.seconds now <? Clock.seconds created + 300).
Proof.
  intros Hcreate Hch Hc Hc' Hnow.
  apply createCaptchaChallenge_row in Hcreate.
  destruct Hcreate as (_ & ch' & Hch' & _ & _ & _ & Hexp & _).
  assert (ch' = ch) by congruence. subst ch'.
  unfold unexpired. rewrite Hexp, ClockFacts.datetime_ltb by assumption.
  replace (Clock.seconds (created + 300000)) with (Clock.seconds created + 300); [ reflexivity | ].
  unfold Clock.seconds. Z.div_mod_to_equations. lia.
Qed.

(** A stored challenge stays stored, and a solved one stays solved,
    through every call of the challenge manager. *)
Lemma solved_after_create d now uuid r ip d' q id ch :
  createCaptchaChallenge d now uuid r ip = Some (d', q) ->
  captcha_challenges d !! id = Some ch ->
  captcha_challenges d' !! id = Some ch.
Proof.
  unfold createCaptchaChallenge. destruct (generateSimpleCaptcha r) as [ question answer ].
  destruct (captcha_challenges d !! uuid) eqn:Hfree; [ discriminate | ].
  intros Heq Hch. inversion Heq; subst; clear Heq. simpl.
  rewrite lookup_insert_ne; [ exact Hch | congruence ].
Qed.

(** A verification, of whatever id, leaves a solved challenge solved. *)
Lemma solved_after_verify d now id' sol id ch :
  captcha_challenges d !! id = Some ch -> solved ch = true ->
  exists ch', captcha_challenges (fst (verifyCaptcha d now id' sol)) !! id = Some ch' /\
    solved ch' = true.
Proof.
  intros Hch Hs. unfold verifyCaptcha.
  destruct (live_challenge d now id') as [ c | ]; [ | exists ch; split; assumption ].
  destruct (String.eqb (solution c) (solution_toString sol)); [ | exists ch; split; assumption ].
  simpl. rewrite lookup_fmap, Hch. simpl.
  destruct (row_id ch =? row_id c); eexists; split; reflexivity || assumption.
Qed.

(** A solved challenge is not verified again. *)
Lemma solved_not_verified d now id sol ch :
  captcha_challenges d !! id = Some ch -> solved ch = true ->
  snd (verifyCaptcha d now id sol) = false.
Proof.
  intros Hch Hs. unfold verifyCaptcha.
  replace (live_challenge d now id) with (@None captcha_row); [ reflexivity | ].
  symmetry. apply live_challenge_None. intros ch' Hch'. right. congruence.
Qed.

(** No run accepts an answer for a challenge that is solved. *)
Lemma solved_never_accepted calls : forall d id ch,
  captcha_challenges d !! id = Some ch -> solved ch = true ->
  accepted id (run_captcha d calls) = 0%nat.
Proof.
  induction calls as [ | [ now uuid r ip | now id' sol ] rest IH ]; intros d id ch Hch Hs.
  - reflexivity.
  - simpl. destruct (createCaptchaChallenge d now uuid r ip) as [ [ d' q ] | ] eqn:Hcreate.
    + apply (IH d' id ch); [ | exact Hs ].
      exact (solved_after_create d now uuid r ip d' q id ch Hcreate Hch).
    + exact (IH d id ch Hch Hs).
  - simpl.
    destruct (solved_after_verify d now id' sol id ch Hch Hs) as (ch' & Hch' & Hs').
    pose proof (solved_not_verified d now id sol ch Hch Hs) as Hno.
    destruct (verifyCaptcha d now id' sol) as [ d' ok ] eqn:Hv. simpl in Hch'. simpl.
    rewrite (IH d' id ch' Hch' Hs').
    destruct (String.eqb_spec id' id) as [ -> | Hne ]; [ | reflexivity ].
    rewrite Hv in Hno. simpl in Hno. rewrite Hno. reflexivity.
Qed.

(** Whatever the calls and the state they start from, at most one answer
    is accepted for a challenge id. *)
Lemma accepted_at_most_once calls : forall d id,
  (accepted id (run_captcha d calls) <= 1)%nat.
Proof.
  induction calls as [ | [ now uuid r ip | now id' sol ] rest IH ]; intros d id.
  - simpl. lia.
  - simpl. destruct (createCaptchaChallenge d now uuid r ip) as [ [ d' q ] | ]; apply IH.
  - simpl. destruct (verifyCaptcha d now id' sol) as [ d' ok ] eqn:Hv. simpl.
    destruct (String.eqb_spec id' id) as [ -> | Hne ]; [ | apply IH ].
    destruct ok; [ | apply IH ].
    assert (Hok : snd (verifyCaptcha d now id sol) = true) by (rewrite Hv; reflexivity).
    unfold verifyCaptcha in Hv.
    destruct (live_challenge d now id) as [ c | ] eqn:Hlive; [ | discriminate ].
    destruct (String.eqb (solution c) (solution_toString sol)); [ | discriminate ].
    inversion Hv; subst d'. apply live_challenge_Some in Hlive. destruct Hlive as (Hc & _).
    rewrite (solved_never_accepted rest (set_solved d (row_id c)) id (mark_solved c)).
    + simpl. lia.
    + unfold set_solved; simpl. rewrite lookup_fmap, Hc. simpl. rewrite Z.eqb_refl. reflexivity.
    + reflexivity.
Qed.

(** ** The score amnesty *)

(** The amnesty takes 30 points off a score, down to 0 at the lowest. *)
Lemma reduce_score_max r : bot_score (reduce_score r) = Z.max (bot_score r - 30) 0.
Proof.
  unfold reduce_score; simpl. rewrite Z.gtb_ltb.
  destruct (Z.ltb_spec 30 (bot_score r)); lia.
Qed.

(** The amnesty row by row: the rows of the address are reduced, the
    others are kept. *)
Lemma amnesty_lookup d ip a u :
  bot_scores (amnesty d ip) !! (a, u) =
  (fun r => if String.eqb a ip then reduce_score r else r) <$> bot_scores d !! (a, u).
Proof.
  unfold amnesty; simpl. rewrite map_lookup_imap.
  destruct (bot_scores d !! (a, u)); reflexivity.
Qed.

(** [verifyCaptcha] does not write the reputation store, and the
    amnesty does not write the challenges. *)
Lemma verifyCaptcha_bot_scores d now id sol :
  bot_scores (fst (verifyCaptcha d now id sol)) = bot_scores d.
Proof.
  unfold verifyCaptcha. destruct (live_challenge d now id); [ | reflexivity ].
  destruct (String.eqb _ _); reflexivity.
Qed.

Lemma amnesty_captcha d ip : captcha_challenges (amnesty d ip) = captcha_challenges d.
Proof. reflexivity. Qed.

(** The verify route answers 200 exactly when both fields are present
    and truthy and [verifyCaptcha] accepts them; it then applies the
    amnesty to the state [verifyCaptcha] left; otherwise it answers 400
    and leaves the state [verifyCaptcha] left, if it was called. *)
Lemma postCaptchaVerify_cases d now req b :
  (exists cid sol,
     challengeId b = Some cid /\ solution_field b = Some sol /\
     JS.falsy cid = false /\ solution_falsy sol = false /\
     snd (verifyCaptcha d now cid sol) = true /\
     postCaptchaVerify d now req b =
       (amnesty (fst (verifyCaptcha d now cid sol)) (ip req),
        {| status := 200; body := JValid true "CAPTCHA verified successfully" |})) \/
  (status (snd (postCaptchaVerify d now req b)) = 400 /\
   fst (postCaptchaVerify d now req b) = d).
Proof.
  unfold postCaptchaVerify.
  destruct (challengeId b) as [ cid | ]; [ | right; split; reflexivity ].
  destruct (solution_field b) as [ sol | ]; [ | right; split; reflexivity ].
  destruct (JS.falsy cid) eqn:Hcid; [ right; split; reflexivity | ].
  destruct (solution_falsy sol) eqn:Hsol; [ right; split; reflexivity | ].
  simpl orb. cbv iota.
  destruct (verifyCaptcha d now cid sol) as [ d' ok ] eqn:Hv.
  destruct ok.
  - left. exists cid, sol. rewrite Hv. repeat split; reflexivity || assumption.
  - right. split; [ reflexivity | ].
    unfold verifyCaptcha in Hv. destruct (live_challenge d now cid).
    + destruct (String.eqb _ _); inversion Hv; reflexivity.
    + inversion Hv; reflexivity.
Qed.

(** C6: when the verify route accepts a solution sent from address A,
    every reputation record of A keeps its counters and has its score
    lowered by 30, floored at 0; when it does not accept, the reputation
    store is unchanged. *)
Theorem C6_score_amnesty (d : db) (now : Z) (req : request) (b : verify_body) :
  let r := postCaptchaVerify d now req b in
  (status (snd r) = 200 ->
     forall u row, bot_scores d !! (ip req, u) = Some row ->
       exists row', bot_scores (fst r) !! (ip req, u) = Some row' /\
         bot_score row' = Z.max (bot_score row - 30) 0 /\
         request_count row' = request_count row /\
         suspicious_patterns row' = suspicious_patterns row) /\
  (status (snd r) <> 200 -> bot_scores (fst r) = bot_scores d).
Proof.
  intros r. subst r.
  destruct (postCaptchaVerify_cases d now req b)
    as [ (cid & sol & _ & _ & _ & _ & _ & Heq) | (Hst & Hd) ].
  - rewrite Heq. cbn [fst snd status]. split; [ | congruence ].
    intros _ u row Hrow. rewrite amnesty_lookup, verifyCaptcha_bot_scores, Hrow.
    simpl. rewrite String.eqb_refl. eexists. split; [ reflexivity | ].
    split; [ apply reduce_score_max | split; reflexivity ].
  - rewrite Hst, Hd. split; [ discriminate | reflexivity ].
Qed.

(** C6 on the challenge [7 + 2], answered from [addr_b]: the right
    answer lowers the score of [addr_b] from 100 to 70; a wrong answer
    leaves the reputation store as it was. *)
Lemma C6_score_amnesty_witness :
  status (snd (postCaptchaVerify db_challenge_for_a (t0 + minutes 1) answer_from_b answer_9)) = 200 /\
  (exists row,
     bot_scores (fst (postCaptchaVerify db_challenge_for_a (t0 + minutes 1) answer_from_b answer_9))
       !! (ip answer_from_b, "curl/7.68.0") = Some row /\
     bot_score row = 70) /\
  bot_scores (fst (postCaptchaVerify db_challenge_for_a (t0 + minutes 1) answer_from_b answer_8))
    = bot_scores db_challenge_for_a.
Proof.
  assert (Hok : status (snd (postCaptchaVerify db_challenge_for_a (t0 + minutes 1)
                               answer_from_b answer_9)) = 200) by (vm_compute; reflexivity).
  split; [ exact Hok | ].
  split.
  - destruct (proj1 (C6_score_amnesty db_challenge_for_a (t0 + minutes 1) answer_from_b answer_9)
                Hok "curl/7.68.0" (reputation 100))
      as (row & Hrow & Hscore & _); [ vm_compute; reflexivity | ].
    exists row. split; [ exact Hrow | exact Hscore ].
  - apply (C6_score_amnesty db_challenge_for_a (t0 + minutes 1) answer_from_b answer_8).
    vm_compute. discriminate.
Defined.

(** C8, the claim as stated fails: a challenge created for [addr_a] is
    verified by a request from [addr_b], and the amnesty lowers the score
    of [addr_b], from 100 to 70, and leaves that of [addr_a] at 90. *)
Lemma C8_verified_from_another_address :
  ip_address <$> captcha_challenges db_challenge_for_a !! uuid1 = Some addr_a /\
  ip answer_from_b = addr_b /\ addr_a <> addr_b /\
  snd (postCaptchaVerify db_challenge_for_a (t0 + minutes 1) answer_from_b answer_9)
    = {| status := 200; body := JValid true "CAPTCHA verified successfully" |} /\
  bot_score <$> bot_scores (fst (postCaptchaVerify db_challenge_for_a (t0 + minutes 1)
                                   answer_from_b answer_9)) !! (addr_b, "curl/7.68.0")
    = Some 70 /\
  bot_score <$> bot_scores (fst (postCaptchaVerify db_challenge_for_a (t0 + minutes 1)
                                   answer_from_b answer_9)) !! (addr_a, firefox_ua)
    = Some 90.
Proof.
  split; [ vm_compute; reflexivity | ].
  split; [ reflexivity | ].
  split; [ discriminate | ].
  repeat split; vm_compute; reflexivity.
Qed.

(** C8, amended: a challenge records the address it was created for, but
    verification does not read it: the verify route gives the same answer
    and leaves the same challenges whatever the address of the request,
    and the amnesty it applies touches no reputation record of an address
    other than the one the request came from. *)
Theorem C8_verification_ignores_address (d : db) (now : Z) (req req' : request) (b : verify_body) :
  snd (postCaptchaVerify d now req b) = snd (postCaptchaVerify d now req' b) /\
  captcha_challenges (fst (postCaptchaVerify d now req b))
    = captcha_challenges (fst (postCaptchaVerify d now req' b)) /\
  (forall a u, a <> ip req ->
     bot_scores (fst (postCaptchaVerify d now req b)) !! (a, u) = bot_scores d !! (a, u)) /\
  (forall id ch, captcha_challenges d !! id = Some ch ->
     ip_address <$> captcha_challenges (fst (postCaptchaVerify d now req b)) !! id
       = Some (ip_address ch)).
Proof.
  assert (Hkeep : forall d0 n id ch, captcha_challenges d0 !! id = Some ch ->
            ip_address <$> captcha_challenges (set_solved d0 n) !! id = Some (ip_address ch)).
  { intros d0 n id ch Hch. unfold set_solved; simpl. rewrite lookup_fmap, Hch. simpl.
    destruct (row_id ch =? n); reflexivity. }
  unfold postCaptchaVerify.
  destruct (challengeId b) as [ cid | ];
    [ | repeat split; try reflexivity; intros id ch Hch; cbn [fst]; rewrite Hch; reflexivity ].
  destruct (solution_field b) as [ sol | ];
    [ | repeat split; try reflexivity; intros id ch Hch; cbn [fst]; rewrite Hch; reflexivity ].
  destruct (JS.falsy cid || solution_falsy sol);
    [ repeat split; try reflexivity; intros id ch Hch; cbn [fst]; rewrite Hch; reflexivity | ].
  unfold verifyCaptcha.
  destruct (live_challenge d now cid) as [ c | ];
    [ | repeat split; try reflexivity; intros id ch Hch; cbn [fst]; rewrite Hch; reflexivity ].
  destruct (String.eqb (solution c) (solution_toString sol));
    [ | repeat split; try reflexivity; intros id ch Hch; cbn [fst]; rewrite Hch; reflexivity ].
  cbv beta iota. cbn [fst snd].
  split; [ reflexivity | ]. split; [ reflexivity | ].
  split.
  - intros a u Ha. rewrite amnesty_lookup. cbn [bot_scores set_solved set_captcha].
    apply String.eqb_neq in Ha. rewrite Ha.
    destruct (bot_scores d !! (a, u)); reflexivity.
  - intros id ch Hch. rewrite amnesty_captcha. apply Hkeep. exact Hch.
Qed.

(** C8 on the challenge created for [addr_a]: the answer sent from
    [addr_b] is treated as the answer sent from [addr_a] is, and the
    record of [addr_a] is not touched. *)
Lemma C8_verification_witness :
  snd (postCaptchaVerify db_challenge_for_a (t0 + minutes 1) answer_from_b answer_9)
    = snd (postCaptchaVerify db_challenge_for_a (t0 + minutes 1) (browser_post addr_a "/") answer_9) /\
  bot_scores (fst (postCaptchaVerify db_challenge_for_a (t0 + minutes 1) answer_from_b answer_9))
    !! (addr_a, firefox_ua) = bot_scores db_challenge_for_a !! (addr_a, firefox_ua).
Proof.
  destruct (C8_verification_ignores_address db_challenge_for_a (t0 + minutes 1)
              answer_from_b (browser_post addr_a "/") answer_9) as (Hsame & _ & Hothers & _).
  split; [ exact Hsame | ].
  apply Hothers. discriminate.
Defined.

(** ** Accepted answers *)

(** What an accepted answer means, and what the right answer to a live
    challenge gets. *)
Lemma verifyCaptcha_true d now id sol :
  snd (verifyCaptcha d now id sol) = true ->
  exists ch, live_challenge d now id = Some ch /\ solution ch = solution_toString sol.
Proof.
  unfold verifyCaptcha. destruct (live_challenge d now id) as [ ch | ]; [ | discriminate ].
  destruct (String.eqb_spec (solution ch) (solution_toString sol)); [ | discriminate ].
  intros _. exists ch. split; [ reflexivity | assumption ].
Qed.

Lemma verifyCaptcha_correct d now id sol ch :
  live_challenge d now id = Some ch ->
  solution ch = solution_toString sol ->
  verifyCaptcha d now id sol = (set_solved d (row_id ch), true).
Proof.
  intros Hlive Hsol. unfold verifyCaptcha. rewrite Hlive, Hsol, String.eqb_refl. reflexivity.
Qed.

(** Only the number 0 prints as "0". *)
Lemma numToString_zero n : JS.numToString n = "0" -> n = 0.
Proof.
  intros H. apply (inj (pretty : Z -> string)). exact H.
Qed.

(** ** The vote window *)

(** With the record of the key stored, the route answers 429 and
    changes nothing. *)
Lemma postVote_denied d now req id serverId :
  JS.parseInt10 id = Some serverId ->
  is_Some (votes_table d !! (serverId, voterFingerprint req, Clock.strftime_Ymd now)) ->
  postVote d now req id = (d, already_voted).
Proof.
  intros Hid [ created Hrow ]. unfold postVote. rewrite Hid. cbv zeta. rewrite Hrow. reflexivity.
Qed.



(** What one attempt does: it is answered 200 exactly when its [:id] is
    a number and no record is stored under its key, and then the record
    is stored; the records stored before are kept. *)
Lemma postVote_record d now req id :
  (status (snd (postVote d now req id)) = 200 <->
     exists key, vote_key_of (now, req, id) = Some key /\ votes_table d !! key = None) /\
  (forall key, vote_key_of (now, req, id) = Some key ->
     status (snd (postVote d now req id)) = 200 ->
     is_Some (votes_table (fst (postVote d now req id)) !! key)) /\
  (forall key, is_Some (votes_table d !! key) ->
     is_Some (votes_table (fst (postVote d now req id)) !! key)).
Proof.
  unfold postVote, vote_key_of.
  destruct (JS.parseInt10 id) as [ serverId | ]; simpl.
  - set (k := (serverId, voterFingerprint req, Clock.strftime_Ymd now)).
    destruct (votes_table d !! k) as [ created | ] eqn:Hk; simpl.
    + split; [ split; [ discriminate | ] | split; [ discriminate | tauto ] ].
      intros (key & Hkey & Hnone). inversion Hkey; subst key. congruence.
    + split; [ split; [ intros _; exists k; split; [ reflexivity | exact Hk ] | reflexivity ] | ].
      split.
      * intros key Hkey _. inversion Hkey; subst key. rewrite lookup_insert_eq. eexists; reflexivity.
      * intros key Hsome. apply lookup_insert_is_Some'. right. exact Hsome.
  - split; [ split; [ discriminate | intros (key & Hkey & _); discriminate ] | ].
    split; [ discriminate | tauto ].
Qed.



(** ** The vote key and the device fingerprint *)

(** C9, the claim as stated fails: for a vote that carries no
    user-agent, for which the parser names no browser and no system, the
    vote key is the hash of [203.0.113.7|] and the device fingerprint the
    hash of [|203.0.113.7|||en-US]; the two differ. *)
Lemma C9_vote_key_is_not_the_device_fingerprint :
  get anonymous_vote "user-agent" = None /\
  voterFingerprint anonymous_vote = "209728631" /\
  generateDeviceFingerprint anonymous_vote (parseDeviceInfo no_names anonymous_vote)
    = "-1785948049" /\
  voterFingerprint anonymous_vote
    <> generateDeviceFingerprint anonymous_vote (parseDeviceInfo no_names anonymous_vote).
Proof.
  split; [ vm_compute; reflexivity | ].
  split; [ vm_compute; reflexivity | ].
  split; [ vm_compute; reflexivity | ].
  vm_compute. discriminate.
Qed.

(** * Further properties *)

(** ** The scorer, case by case *)

(** Points are added, never taken away. *)
Lemma add_if_zero b points score :
  0 < points -> 0 <= score ->
  (add_if b points score = 0 <-> b = false /\ score = 0).
Proof.
  intros Hp Hs. destruct b; simpl; split; intros H; try lia; destruct H; auto; discriminate.
Qed.

Lemma add_if_nonneg b points score : 0 <= points -> 0 <= score -> 0 <= add_if b points score.
Proof. intros Hp Hs. destruct b; simpl; lia. Qed.

(** X1: the score is 0 exactly for a request whose user-agent has at
    least 20 characters, names a browser engine and no automation tool,
    which sends Accept (not the wildcard), Accept-Language and
    Accept-Encoding, a Referer unless it asks for the root path, no
    [Connection: close], and the XHR marker if it is a POST. *)
Theorem score_zero_iff (req : request) :
  let userAgent := JS.orEmpty (get req "user-agent") in
  let accept := JS.orEmpty (get req "accept") in
  calculateBotScore req = 0 <->
    existsb (fun p => JS.test_ci p userAgent) botPatterns = false /\
    accept <> "" /\ accept <> "*/*" /\
    JS.orEmpty (get req "accept-language") <> "" /\
    JS.orEmpty (get req "accept-encoding") <> "" /\
    (20 <= String.length userAgent)%nat /\
    JS.test_alt_ci browserTokens userAgent = true /\
    (JS.orEmpty (get req "referer") <> "" \/ path req = "/") /\
    JS.toLowerCase (JS.orEmpty (get req "connection")) <> "close" /\
    (JS.orEmpty (get req "x-requested-with") <> "" \/ method req <> "POST").
Proof.
  intros userAgent accept. unfold calculateBotScore; cbv zeta. fold userAgent. fold accept.
  unfold JS.absent, JS.falsy.
  assert (Hmin : forall x, 0 <= x -> (Z.min x 100 = 0 <-> x = 0)) by (intros x Hx; lia).
  rewrite Hmin by (repeat apply add_if_nonneg; lia).
  rewrite !add_if_zero by (try lia; repeat apply add_if_nonneg; lia).
  rewrite !andb_false_iff, !orb_false_iff, !negb_false_iff, !String.eqb_neq, !String.eqb_eq,
    Z.ltb_ge.
  assert (Hlen : (20 <= String.length userAgent)%nat -> userAgent <> "").
  { intros H Hua. rewrite Hua in H. simpl in H. lia. }
  split.
  - intros (Hxhr & Hconn & Href & Hbrowser & Hlen' & Hua & Henc & Hlang & Hacc & Hbot & _).
    assert (H20 : (20 <= String.length userAgent)%nat) by lia.
    repeat split; tauto.
  - intros (Hbot & Hacc1 & Hacc2 & Hlang & Henc & H20 & Hbrowser & Href & Hconn & Hxhr).
    pose proof (Hlen H20) as Hua.
    repeat split; try tauto; lia.
Qed.

(** X1 on the browser of the samples. *)
Lemma score_zero_witness :
  calculateBotScore (browser_post "198.51.100.1" "/api/servers/3/vote") = 0 /\
  (20 <= String.length (JS.orEmpty (get (browser_post "198.51.100.1" "/api/servers/3/vote")
                                      "user-agent")))%nat.
Proof.
  assert (Hzero : calculateBotScore (browser_post "198.51.100.1" "/api/servers/3/vote") = 0)
    by (vm_compute; reflexivity).
  split; [ exact Hzero | ].
  apply (proj1 (score_zero_iff (browser_post "198.51.100.1" "/api/servers/3/vote")) Hzero).
Defined.

(** ** Requests that never pass *)

Lemma no_pattern_in_empty :
  existsb (fun p => JS.test_ci p "") botPatterns = false.
Proof. reflexivity. Qed.

Section Gate.

Variable UAParser : string -> option string * option string.

(** What the middleware answers, by the blacklist and the score. *)
Lemma middleware_cases d now req :
  (isBlacklisted d now (ip req) = true /\
   botDetectionMiddleware UAParser d now req =
     (logSecurityEvent d (ip req) None "blocked_request" "high"
        "Blacklisted IP attempted access" (get req "user-agent") (path req),
      Respond {| status := 403; body := JRejection "Access denied" "IP_BLACKLISTED" None |})) \/
  (isBlacklisted d now (ip req) = false /\ 80 <= calculateBotScore req /\
   botDetectionMiddleware UAParser d now req =
     (logSecurityEvent (fst (updateBotScore UAParser d now req)) (ip req) None
        "bot_detected" "high"
        ("High bot score: " +:+ JS.numToString (calculateBotScore req))
        (get req "user-agent") (path req),
      Respond {| status := 429;
                 body := JRejection
                           "Suspicious activity detected. Please complete CAPTCHA verification."
                           "CAPTCHA_REQUIRED" (Some (calculateBotScore req)) |})) \/
  (isBlacklisted d now (ip req) = false /\ 60 <= calculateBotScore req < 80 /\
   botDetectionMiddleware UAParser d now req =
     (logSecurityEvent (fst (updateBotScore UAParser d now req)) (ip req) None
        "suspicious_behavior" "medium"
        ("Medium bot score: " +:+ JS.numToString (calculateBotScore req))
        (get req "user-agent") (path req),
      Next true (calculateBotScore req))) \/
  (isBlacklisted d now (ip req) = false /\ calculateBotScore req < 60 /\
   botDetectionMiddleware UAParser d now req =
     (fst (updateBotScore UAParser d now req), Next false (calculateBotScore req))).
Proof.
  unfold botDetectionMiddleware.
  destruct (isBlacklisted d now (ip req)); [ left; split; reflexivity | right ].
  unfold updateBotScore; cbv zeta. rewrite !Z.geb_leb.
  destruct (Z.leb_spec 80 (calculateBotScore req)) as [ H80 | H80 ].
  - left. repeat split; assumption.
  - right. destruct (Z.leb_spec 60 (calculateBotScore req)) as [ H60 | H60 ].
    + left. repeat split; assumption.
    + right. repeat split; assumption.
Qed.

(** X2: a request without User-Agent, Accept, Accept-Language and
    Accept-Encoding scores from 80 to 95, and the middleware never lets
    it through: it is answered 403 or 429 whatever the store holds. *)
Theorem headerless_request_never_passes (d : db) (now : Z) (req : request) :
  JS.orEmpty (get req "user-agent") = "" ->
  JS.orEmpty (get req "accept") = "" ->
  JS.orEmpty (get req "accept-language") = "" ->
  JS.orEmpty (get req "accept-encoding") = "" ->
  80 <= calculateBotScore req <= 95 /\
  exists r, snd (botDetectionMiddleware UAParser d now req) = Respond r /\
    (status r = 403 \/ status r = 429).
Proof.
  intros Hua Hacc Hlang Henc.
  assert (Hscore : 80 <= calculateBotScore req <= 95).
  { unfold calculateBotScore; cbv zeta. rewrite Hua, Hacc, Hlang, Henc.
    rewrite no_pattern_in_empty.
    change (JS.falsy "") with true.
    change (Z.of_nat (String.length "") <? 20) with true.
    change (negb (JS.test_alt_ci browserTokens "") && negb true) with false.
    cbn [orb add_if]. case_points. lia. }
  split; [ exact Hscore | ].
  destruct (middleware_cases d now req) as [ (_ & E) | [ (_ & _ & E) | [ (_ & H & _) | (_ & H & _) ] ] ];
    try lia; rewrite E; eexists; (split; [ reflexivity | simpl; tauto ]).
Qed.

End Gate.

(** X2 on a request without any header. *)
Lemma headerless_request_witness :
  JS.orEmpty (get bare_request "user-agent") = "" /\
  JS.orEmpty (get bare_request "accept") = "" /\
  JS.orEmpty (get bare_request "accept-language") = "" /\
  JS.orEmpty (get bare_request "accept-encoding") = "" /\
  80 <= calculateBotScore bare_request <= 95 /\
  exists r, snd (botDetectionMiddleware no_names empty_db t0 bare_request) = Respond r /\
    (status r = 403 \/ status r = 429).
Proof.
  repeat (split; [ reflexivity | ]).
  apply (headerless_request_never_passes no_names empty_db t0 bare_request); reflexivity.
Defined.

(** ** The vote route behind its guard *)

(** What the vote handler reads of the store: the votes and the servers. *)
Lemma postVote_reads d1 d2 now req id :
  votes_table d1 = votes_table d2 -> servers d1 = servers d2 ->
  snd (postVote d1 now req id) = snd (postVote d2 now req id) /\
  votes_table (fst (postVote d1 now req id)) = votes_table (fst (postVote d2 now req id)) /\
  servers (fst (postVote d1 now req id)) = servers (fst (postVote d2 now req id)).
Proof.
  intros Hv Hs. unfold postVote.
  destruct (JS.parseInt10 id) as [ serverId | ]; [ | repeat split; assumption ].
  cbv zeta. rewrite Hv.
  destruct (votes_table d2 !! _); [ repeat split; assumption | ].
  simpl. rewrite Hs. repeat split.
Qed.

(** What the vote handler leaves alone. *)
Lemma postVote_frame d now req id :
  security_events (fst (postVote d now req id)) = security_events d /\
  ip_blacklist (fst (postVote d now req id)) = ip_blacklist d /\
  bot_scores (fst (postVote d now req id)) = bot_scores d /\
  captcha_challenges (fst (postVote d now req id)) = captcha_challenges d /\
  captcha_seq (fst (postVote d now req id)) = captcha_seq d.
Proof.
  unfold postVote.
  destruct (JS.parseInt10 id) as [ serverId | ]; [ | repeat split ].
  cbv zeta. destruct (votes_table d !! _); repeat split.
Qed.

Section Guard.

Variable UAParser : string -> option string * option string.

(** The middleware writes the security log and the reputation store,
    nothing else. *)
Lemma middleware_frame d now req :
  servers (fst (botDetectionMiddleware UAParser d now req)) = servers d /\
  votes_table (fst (botDetectionMiddleware UAParser d now req)) = votes_table d /\
  ip_blacklist (fst (botDetectionMiddleware UAParser d now req)) = ip_blacklist d /\
  captcha_challenges (fst (botDetectionMiddleware UAParser d now req)) = captcha_challenges d /\
  captcha_seq (fst (botDetectionMiddleware UAParser d now req)) = captcha_seq d.
Proof.
  destruct (middleware_cases UAParser d now req)
    as [ (_ & E) | [ (_ & _ & E) | [ (_ & _ & E) | (_ & _ & E) ] ] ];
    rewrite E; repeat split.
Qed.

(** X3: the vote route records nothing for a request its guard turns
    away: from a blacklisted address or with a score of 80 or more, the
    votes and the servers stay as they were and the answer is 403 or 429.
    Any other request is answered by the vote handler as if the guard
    were not there. *)
Theorem voteRoute_guarded (d : db) (now : Z) (req : request) (id : string) :
  let r := voteRoute UAParser d now req id in
  (isBlacklisted d now (ip req) = true \/ 80 <= calculateBotScore req ->
     votes_table (fst r) = votes_table d /\ servers (fst r) = servers d /\
     exists error code score, (status (snd r) = 403 \/ status (snd r) = 429) /\
       body (snd r) = JRejection error code score) /\
  (isBlacklisted d now (ip req) = false -> calculateBotScore req < 80 ->
     snd r = snd (postVote d now req id) /\
     votes_table (fst r) = votes_table (fst (postVote d now req id)) /\
     servers (fst r) = servers (fst (postVote d now req id))).
Proof.
  intros r. subst r. unfold voteRoute.
  pose proof (middleware_frame d now req) as (Hs & Hv & _).
  destruct (middleware_cases UAParser d now req)
    as [ (Hb & E) | [ (Hb & H80 & E) | [ (Hb & H60 & E) | (Hb & H60 & E) ] ] ];
    rewrite E in *; cbn [fst snd] in *; (split; [ intros Hturned | intros Hnb Hlow ]).
  - split; [ exact Hv | ]. split; [ exact Hs | ].
    exists "Access denied", "IP_BLACKLISTED", None. simpl. tauto.
  - congruence.
  - split; [ exact Hv | ]. split; [ exact Hs | ].
    eexists _, _, _. simpl. split; [ right; reflexivity | reflexivity ].
  - lia.
  - destruct Hturned; [ congruence | lia ].
  - apply postVote_reads; assumption.
  - destruct Hturned; [ congruence | lia ].
  - apply postVote_reads; assumption.
Qed.

(** X4: what the middleware decides depends on the blacklist, the clock
    and the request only. The reputation the store holds for the client
    has no part in it, and so neither has the score amnesty: after a
    CAPTCHA verification, successful or not, every request is decided as
    it would have been before. *)
Theorem decision_ignores_reputation (d : db) (now : Z) (req : request) :
  (forall d', ip_blacklist d' = ip_blacklist d ->
     snd (botDetectionMiddleware UAParser d' now req)
       = snd (botDetectionMiddleware UAParser d now req)) /\
  (forall t req' b,
     snd (botDetectionMiddleware UAParser (fst (postCaptchaVerify d t req' b)) now req)
       = snd (botDetectionMiddleware UAParser d now req)).
Proof.
  assert (Hsame : forall d', ip_blacklist d' = ip_blacklist d ->
            snd (botDetectionMiddleware UAParser d' now req)
              = snd (botDetectionMiddleware UAParser d now req)).
  { intros d' Hbl. unfold botDetectionMiddleware, isBlacklisted. rewrite Hbl.
    destruct (ip_blacklist d !! ip req) as [ row | ];
      [ destruct (blacklist_active now row); [ reflexivity | ] | ];
      unfold updateBotScore; cbv zeta;
      destruct (calculateBotScore req >=? 80); try reflexivity;
      destruct (calculateBotScore req >=? 60); reflexivity. }
  split; [ exact Hsame | ].
  intros t req' b. apply Hsame.
  destruct (postCaptchaVerify_cases d t req' b) as [ (cid & sol & _ & _ & _ & _ & _ & E) | (_ & E) ];
    rewrite E; [ | reflexivity ].
  cbn [fst]. unfold verifyCaptcha.
  destruct (live_challenge d t cid) as [ ch | ]; [ | reflexivity ].
  destruct (String.eqb (solution ch) (solution_toString sol)); reflexivity.
Qed.

(** X5: the middleware writes one event to the security log when it turns
    a request away or marks it suspicious, with the address and the path
    of the request, and none when it lets the request through unmarked.
    The events logged before stay as they are. *)
Theorem middleware_logs (d : db) (now : Z) (req : request) :
  let r := botDetectionMiddleware UAParser d now req in
  match snd r with
  | Next false _ => security_events (fst r) = security_events d
  | _ =>
      exists ev, security_events (fst r) = (security_events d ++ [ev])%list /\
        ev_ip ev = ip req /\ endpoint ev = path req /\
        ev_user_agent ev = get req "user-agent" /\ ev_user_id ev = None /\
        (severity ev = "high" <-> exists a, snd r = Respond a)
  end.
Proof.
  intros r. subst r.
  destruct (middleware_cases UAParser d now req)
    as [ (_ & E) | [ (_ & _ & E) | [ (_ & _ & E) | (_ & _ & E) ] ] ];
    rewrite E; cbn [fst snd]; try reflexivity;
    eexists; (split; [ reflexivity | ]); simpl; repeat split; try reflexivity;
    try (intros _; eexists; reflexivity); try discriminate.
  intros (a & Ha). discriminate.
Qed.

End Guard.

(** ** Invariants of the store *)

Lemma getCaptcha_frame d now uuid r req :
  servers (fst (getCaptcha d now uuid r req)) = servers d /\
  votes_table (fst (getCaptcha d now uuid r req)) = votes_table d /\
  security_events (fst (getCaptcha d now uuid r req)) = security_events d /\
  ip_blacklist (fst (getCaptcha d now uuid r req)) = ip_blacklist d /\
  bot_scores (fst (getCaptcha d now uuid r req)) = bot_scores d.
Proof.
  unfold getCaptcha, createCaptchaChallenge.
  destruct (generateSimpleCaptcha r) as [ question answer ].
  destruct (captcha_challenges d !! uuid); repeat split.
Qed.

Lemma verifyCaptcha_frame d now id sol :
  servers (fst (verifyCaptcha d now id sol)) = servers d /\
  votes_table (fst (verifyCaptcha d now id sol)) = votes_table d /\
  security_events (fst (verifyCaptcha d now id sol)) = security_events d /\
  ip_blacklist (fst (verifyCaptcha d now id sol)) = ip_blacklist d /\
  bot_scores (fst (verifyCaptcha d now id sol)) = bot_scores d /\
  captcha_seq (fst (verifyCaptcha d now id sol)) = captcha_seq d.
Proof.
  unfold verifyCaptcha.
  destruct (live_challenge d now id) as [ ch | ]; [ | repeat split ].
  destruct (String.eqb (solution ch) (solution_toString sol)); repeat split.
Qed.

Lemma postCaptchaVerify_frame d now req b :
  servers (fst (postCaptchaVerify d now req b)) = servers d /\
  votes_table (fst (postCaptchaVerify d now req b)) = votes_table d /\
  security_events (fst (postCaptchaVerify d now req b)) = security_events d /\
  ip_blacklist (fst (postCaptchaVerify d now req b)) = ip_blacklist d /\
  captcha_seq (fst (postCaptchaVerify d now req b)) = captcha_seq d.
Proof.
  destruct (postCaptchaVerify_cases d now req b)
    as [ (cid & sol & _ & _ & _ & _ & _ & E) | (_ & E) ]; rewrite E; [ | repeat split ].
  cbn [fst]. pose proof (verifyCaptcha_frame d now cid sol) as (H1 & H2 & H3 & H4 & _ & H6).
  repeat split; assumption.
Qed.

Lemma postBlacklist_frame d now userId req ip reason duration :
  servers (fst (postBlacklist d now userId req ip reason duration)) = servers d /\
  votes_table (fst (postBlacklist d now userId req ip reason duration)) = votes_table d /\
  bot_scores (fst (postBlacklist d now userId req ip reason duration)) = bot_scores d /\
  captcha_challenges (fst (postBlacklist d now userId req ip reason duration))
    = captcha_challenges d /\
  captcha_seq (fst (postBlacklist d now userId req ip reason duration)) = captcha_seq d.
Proof.
  unfold postBlacklist. destruct (JS.absent ip || JS.absent reason); repeat split.
Qed.

Lemma reputation_ok_update UAParser d now req :
  reputation_ok d -> reputation_ok (fst (updateBotScore UAParser d now req)).
Proof.
  intros Hok k r. unfold updateBotScore; cbv zeta; cbn [fst bot_scores set_bot_scores].
  pose proof (calculateBotScore_range req) as Hrange.
  destruct (decide (k = (ip req, JS.orEmpty (get req "user-agent")))) as [ -> | Hk ].
  - rewrite lookup_insert_eq. intros [= <-]. cbn [bot_score request_count suspicious_patterns].
    destruct (bot_scores d !! (ip req, JS.orEmpty (get req "user-agent"))) as [ old | ] eqn:Hold.
    + destruct (Hok _ _ Hold) as (_ & Hcount & Hsusp). simpl.
      destruct (calculateBotScore req >? 50); lia.
    + simpl. destruct (calculateBotScore req >? 50); lia.
  - rewrite lookup_insert_ne by congruence. apply Hok.
Qed.

Lemma reputation_ok_amnesty d ip : reputation_ok d -> reputation_ok (amnesty d ip).
Proof.
  intros Hok [ a u ] r. rewrite amnesty_lookup.
  destruct (bot_scores d !! (a, u)) as [ old | ] eqn:Hold; [ | discriminate ].
  destruct (Hok _ _ Hold) as (Hscore & Hcount & Hsusp).
  simpl. intros [= <-]. destruct (String.eqb a ip); [ | tauto ].
  rewrite reduce_score_max. simpl. repeat split; lia.
Qed.

Lemma reputation_ok_same d d' : bot_scores d' = bot_scores d -> reputation_ok d -> reputation_ok d'.
Proof. intros E Hok k r. rewrite E. apply Hok. Qed.

Section Invariants.

Variable UAParser : string -> option string * option string.

Lemma reputation_ok_middleware d now req :
  reputation_ok d -> reputation_ok (fst (botDetectionMiddleware UAParser d now req)).
Proof.
  intros Hok. pose proof (reputation_ok_update UAParser d now req Hok) as Hup.
  destruct (middleware_cases UAParser d now req)
    as [ (_ & E) | [ (_ & _ & E) | [ (_ & _ & E) | (_ & _ & E) ] ] ];
    rewrite E; cbn [fst]; try exact Hup; try exact Hok;
    eapply reputation_ok_same; try exact Hup; reflexivity.
Qed.

Lemma reputation_ok_step d op : reputation_ok d -> reputation_ok (step UAParser d op).
Proof.
  intros Hok. destruct op as [ now req | now uuid r req | now req b
                             | now userId req ip reason duration | now req id ]; cbn [step].
  - apply reputation_ok_middleware, Hok.
  - eapply reputation_ok_same; [ apply getCaptcha_frame | exact Hok ].
  - destruct (postCaptchaVerify_cases d now req b)
      as [ (cid & sol & _ & _ & _ & _ & _ & E) | (_ & E) ]; rewrite E; [ | exact Hok ].
    cbn [fst]. apply reputation_ok_amnesty.
    eapply reputation_ok_same; [ apply verifyCaptcha_bot_scores | exact Hok ].
  - eapply reputation_ok_same; [ apply postBlacklist_frame | exact Hok ].
  - unfold voteRoute.
    pose proof (reputation_ok_middleware d now req Hok) as Hmw.
    destruct (botDetectionMiddleware UAParser d now req) as [ d' [ r | s b ] ]; [ exact Hmw | ].
    eapply reputation_ok_same; [ apply postVote_frame | exact Hmw ].
Qed.

Lemma reputation_ok_run ops : forall d, reputation_ok d -> reputation_ok (run UAParser d ops).
Proof.
  induction ops as [ | op ops IH ]; intros d Hok; [ exact Hok | ].
  apply IH, reputation_ok_step, Hok.
Qed.

(** X6: whatever requests the server has served since the store was
    created, every reputation record holds a score from 0 to 100, counts
    at least one request, and counts no more suspicious requests than
    requests. *)
Theorem reputation_records_stay_sound (ops : list operation) :
  reputation_ok (run UAParser empty_db ops).
Proof.
  apply (reputation_ok_run ops empty_db). intros k r H. discriminate.
Qed.

End Invariants.
Section Log.

Variable UAParser : string -> option string * option string.

Lemma middleware_log_grows d now req :
  exists suffix, security_events (fst (botDetectionMiddleware UAParser d now req))
                 = (security_events d ++ suffix)%list.
Proof.
  destruct (middleware_cases UAParser d now req)
    as [ (_ & E) | [ (_ & _ & E) | [ (_ & _ & E) | (_ & _ & E) ] ] ]; rewrite E; cbn [fst];
    try (eexists; reflexivity).
  exists []. simpl. symmetry. apply app_nil_r.
Qed.

Lemma step_log_grows d op :
  exists suffix, security_events (step UAParser d op) = (security_events d ++ suffix)%list.
Proof.
  assert (Hsame : forall d', security_events d' = security_events d ->
            exists suffix, security_events d' = (security_events d ++ suffix)%list).
  { intros d' E. exists []. rewrite E. symmetry. apply app_nil_r. }
  destruct op as [ now req | now uuid r req | now req b
                 | now userId req ip reason duration | now req id ]; cbn [step].
  - apply middleware_log_grows.
  - apply Hsame, getCaptcha_frame.
  - apply Hsame, postCaptchaVerify_frame.
  - unfold postBlacklist. destruct (JS.absent ip || JS.absent reason).
    + apply Hsame. reflexivity.
    + eexists. reflexivity.
  - unfold voteRoute.
    pose proof (middleware_log_grows d now req) as (suffix & Hmw).
    destruct (botDetectionMiddleware UAParser d now req) as [ d' [ r | s b ] ];
      cbn [fst] in *; exists suffix; [ exact Hmw | ].
    rewrite <- Hmw. apply postVote_frame.
Qed.

(** X7: the security log is append-only under every modelled route:
    after any sequence of requests the events logged before are still
    there, in their order and unchanged, in front of the new ones. *)
Theorem security_log_append_only (ops : list operation) (d : db) :
  exists suffix, security_events (run UAParser d ops) = (security_events d ++ suffix)%list.
Proof.
  revert d. induction ops as [ | op ops IH ]; intros d.
  - exists []. simpl. symmetry. apply app_nil_r.
  - destruct (step_log_grows d op) as (s1 & H1).
    destruct (IH (step UAParser d op)) as (s2 & H2).
    exists (s1 ++ s2)%list. cbn [run fold_left] in *. unfold run in H2. rewrite H2, H1.
    symmetry. apply app_assoc.
Qed.

End Log.

(** ** Challenge ids *)

Lemma challenge_ids_ok_same d d' :
  captcha_challenges d' = captcha_challenges d -> captcha_seq d' = captcha_seq d ->
  challenge_ids_ok d -> challenge_ids_ok d'.
Proof. intros E1 E2. unfold challenge_ids_ok. rewrite E1, E2. tauto. Qed.

Lemma challenge_ids_ok_create d now uuid r ip d' q :
  createCaptchaChallenge d now uuid r ip = Some (d', q) ->
  challenge_ids_ok d -> challenge_ids_ok d'.
Proof.
  unfold createCaptchaChallenge.
  destruct (generateSimpleCaptcha r) as [ question answer ].
  destruct (captcha_challenges d !! uuid) eqn:Hfree; [ discriminate | ].
  intros [= <- _] (Hrange & Huniq). split.
  - intros id ch. cbn [captcha_challenges captcha_seq set_captcha].
    destruct (decide (id = uuid)) as [ -> | Hid ].
    + rewrite lookup_insert_eq. intros [= <-]. simpl. lia.
    + rewrite lookup_insert_ne by congruence. intros H. specialize (Hrange _ _ H). lia.
  - intros id1 id2 ch1 ch2. cbn [captcha_challenges set_captcha].
    destruct (decide (id1 = uuid)) as [ -> | H1 ]; destruct (decide (id2 = uuid)) as [ -> | H2 ];
      rewrite ?lookup_insert_eq, ?lookup_insert_ne by congruence.
    + reflexivity.
    + intros [= <-] Hc2 E. simpl in E. specialize (Hrange _ _ Hc2). lia.
    + intros Hc1 [= <-] E. simpl in E. specialize (Hrange _ _ Hc1). lia.
    + apply Huniq.
Qed.

Lemma challenge_ids_ok_set_solved d id :
  challenge_ids_ok d -> challenge_ids_ok (set_solved d id).
Proof.
  intros (Hrange & Huniq).
  assert (Hrow : forall k ch', captcha_challenges (set_solved d id) !! k = Some ch' ->
            exists ch, captcha_challenges d !! k = Some ch /\ row_id ch' = row_id ch).
  { intros k ch'. unfold set_solved. cbn [captcha_challenges set_captcha].
    rewrite lookup_fmap. destruct (captcha_challenges d !! k) as [ ch | ]; [ | discriminate ].
    simpl. intros [= <-]. exists ch. split; [ reflexivity | ].
    destruct (row_id ch =? id); reflexivity. }
  split.
  - intros k ch' H. destruct (Hrow _ _ H) as (ch & Hch & E). rewrite E.
    apply (Hrange _ _ Hch).
  - intros id1 id2 ch1 ch2 H1 H2 E.
    destruct (Hrow _ _ H1) as (c1 & Hc1 & E1). destruct (Hrow _ _ H2) as (c2 & Hc2 & E2).
    apply (Huniq _ _ _ _ Hc1 Hc2). congruence.
Qed.

Lemma challenge_ids_ok_verify d now id sol :
  challenge_ids_ok d -> challenge_ids_ok (fst (verifyCaptcha d now id sol)).
Proof.
  intros Hok. unfold verifyCaptcha.
  destruct (live_challenge d now id) as [ ch | ]; [ | exact Hok ].
  destruct (String.eqb (solution ch) (solution_toString sol)); [ | exact Hok ].
  apply challenge_ids_ok_set_solved, Hok.
Qed.

(** With distinct integer ids, [set_solved] marks one row. *)
Lemma set_solved_one d id ch :
  challenge_ids_ok d -> captcha_challenges d !! id = Some ch ->
  captcha_challenges (set_solved d (row_id ch)) = <[id := mark_solved ch]> (captcha_challenges d).
Proof.
  intros (_ & Huniq) Hch. unfold set_solved. cbn [captcha_challenges set_captcha].
  apply map_eq. intros k. rewrite lookup_fmap.
  destruct (decide (k = id)) as [ -> | Hk ].
  - rewrite lookup_insert_eq, Hch. simpl. rewrite Z.eqb_refl. reflexivity.
  - rewrite lookup_insert_ne by congruence.
    destruct (captcha_challenges d !! k) as [ c | ] eqn:Hc; [ | reflexivity ].
    simpl. destruct (Z.eqb_spec (row_id c) (row_id ch)) as [ E | E ]; [ | reflexivity ].
    exfalso. apply Hk. apply (Huniq _ _ _ _ Hc Hch E).
Qed.

Section Challenges.

Variable UAParser : string -> option string * option string.

Lemma challenge_ids_ok_step d op : challenge_ids_ok d -> challenge_ids_ok (step UAParser d op).
Proof.
  intros Hok. destruct op as [ now req | now uuid r req | now req b
                             | now userId req ip reason duration | now req id ]; cbn [step].
  - eapply challenge_ids_ok_same; [ apply middleware_frame | apply middleware_frame | exact Hok ].
  - unfold getCaptcha.
    destruct (createCaptchaChallenge d now uuid r (ip req)) as [ [ d' [ c q ] ] | ] eqn:E;
      [ | exact Hok ].
    cbn [fst]. eapply challenge_ids_ok_create; [ exact E | exact Hok ].
  - destruct (postCaptchaVerify_cases d now req b)
      as [ (cid & sol & _ & _ & _ & _ & _ & E) | (_ & E) ]; rewrite E; [ | exact Hok ].
    cbn [fst]. eapply challenge_ids_ok_same;
      [ apply amnesty_captcha | reflexivity | apply challenge_ids_ok_verify, Hok ].
  - eapply challenge_ids_ok_same; [ apply postBlacklist_frame | apply postBlacklist_frame | exact Hok ].
  - unfold voteRoute.
    pose proof (middleware_frame UAParser d now req) as (_ & _ & _ & Hc & Hs).
    destruct (botDetectionMiddleware UAParser d now req) as [ d' [ r | s b ] ]; cbn [fst] in *.
    + eapply challenge_ids_ok_same; [ exact Hc | exact Hs | exact Hok ].
    + pose proof (postVote_frame d' now req id) as (_ & _ & _ & Hc' & Hs').
      apply (challenge_ids_ok_same d); [ congruence | congruence | exact Hok ].
Qed.

Lemma challenge_ids_ok_run ops : forall d, challenge_ids_ok d -> challenge_ids_ok (run UAParser d ops).
Proof.
  induction ops as [ | op ops IH ]; intros d Hok; [ exact Hok | ].
  apply IH, challenge_ids_ok_step, Hok.
Qed.

Lemma challenge_ids_ok_empty : challenge_ids_ok empty_db.
Proof. split; intros; discriminate. Qed.

(** X8: in every store the server can reach, the challenges have
    distinct integer ids, so that a successful verification marks the
    verified challenge as solved and leaves every other challenge as it
    was; a failed one changes nothing. *)
Theorem verification_marks_its_challenge_only
    (ops : list operation) (now : Z) (id : string) (sol : js_solution) :
  let d := run UAParser empty_db ops in
  let r := verifyCaptcha d now id sol in
  challenge_ids_ok d /\
  (snd r = true ->
     exists ch, captcha_challenges d !! id = Some ch /\ solved ch = false /\
       captcha_challenges (fst r) = <[id := mark_solved ch]> (captcha_challenges d)) /\
  (snd r = false -> fst r = d).
Proof.
  intros d r.
  assert (Hok : challenge_ids_ok d) by apply challenge_ids_ok_run, challenge_ids_ok_empty.
  split; [ exact Hok | ]. subst r. split.
  - intros Htrue. destruct (verifyCaptcha_true d now id sol Htrue) as (ch & Hlive & Hsol).
    rewrite (verifyCaptcha_correct d now id sol ch Hlive Hsol). cbn [fst].
    apply live_challenge_Some in Hlive. destruct Hlive as (Hch & _ & Hunsolved).
    exists ch. split; [ exact Hch | ]. split; [ exact Hunsolved | ].
    apply set_solved_one; assumption.
  - unfold verifyCaptcha. destruct (live_challenge d now id) as [ ch | ]; [ | reflexivity ].
    destruct (String.eqb (solution ch) (solution_toString sol)); [ discriminate | reflexivity ].
Qed.

End Challenges.

(** ** The blacklist route and the check, end to end *)

Lemma absent_Some (x : string) : x <> "" -> JS.absent (Some x) = false.
Proof. intros Hx. unfold JS.absent, JS.falsy. simpl. apply String.eqb_neq. exact Hx. Qed.

(** What the blacklist route stores. *)
Lemma postBlacklist_stored d now userId req addr why duration :
  addr <> "" -> why <> "" ->
  postBlacklist d now userId req (Some addr) (Some why) duration =
    (logSecurityEvent
       (set_ip_blacklist d
          (<[addr := {| reason := why; blocked_at := Clock.datetime now;
                        blocked_until :=
                          match duration with
                          | Some m => if m =? 0 then None
                                      else Some (Clock.toISOString (now + m * 60000))
                          | None => None
                          end;
                        created_by := Some userId |}]> (ip_blacklist d)))
       addr (Some userId) "ip_blacklisted" "high" why (get req "user-agent") (path req),
     {| status := 200; body := JMessage "IP address blacklisted successfully" |}).
Proof.
  intros Haddr Hwhy. unfold postBlacklist.
  rewrite (absent_Some addr Haddr), (absent_Some why Hwhy). reflexivity.
Qed.

(** X9: blacklisting an address without a duration, or with the duration
    0, is answered 200 and from then on the address is blacklisted at
    every clock reading; what holds of any other address is unchanged. *)
Theorem block_without_duration
    (d : db) (now userId : Z) (req : request) (addr why : string) (duration : option Z) :
  addr <> "" -> why <> "" -> duration = None \/ duration = Some 0 ->
  let r := postBlacklist d now userId req (Some addr) (Some why) duration in
  status (snd r) = 200 /\
  (forall later, isBlacklisted (fst r) later addr = true) /\
  (forall later other, other <> addr ->
     isBlacklisted (fst r) later other = isBlacklisted d later other).
Proof.
  intros Haddr Hwhy Hduration r. subst r.
  rewrite postBlacklist_stored by assumption. cbn [fst snd status].
  split; [ reflexivity | ]. split.
  - intros later. unfold isBlacklisted. simpl. rewrite lookup_insert_eq.
    destruct Hduration as [ -> | -> ]; reflexivity.
  - intros later other Hother. unfold isBlacklisted. simpl.
    rewrite lookup_insert_ne by congruence. reflexivity.
Qed.

(** X9 on the samples. *)
Lemma block_without_duration_witness :
  banned_ip <> "" /\
  status (snd (postBlacklist empty_db t0 1 admin_post (Some banned_ip) (Some "spam") None)) = 200 /\
  isBlacklisted (fst (postBlacklist empty_db t0 1 admin_post (Some banned_ip) (Some "spam") None))
    (t0 + minutes 1000000) banned_ip = true.
Proof.
  assert (Haddr : banned_ip <> "") by discriminate.
  assert (Hwhy : "spam" <> "") by discriminate.
  pose proof (block_without_duration empty_db t0 1 admin_post banned_ip "spam" None
                Haddr Hwhy (or_introl eq_refl)) as (Hstatus & Hblocked & _).
  split; [ exact Haddr | ]. split; [ exact Hstatus | ]. apply Hblocked.
Defined.

(** X10: an address blacklisted for a number of minutes is blacklisted
    at a later clock reading exactly when that reading is not past the
    UTC day on which the minutes end. So the block holds during all of
    its duration, and until that day is over. *)
Theorem block_with_duration
    (d : db) (now userId : Z) (req : request) (addr why : string) (m : Z) :
  addr <> "" -> why <> "" -> m <> 0 ->
  Clock.in_range now -> Clock.in_range (now + m * 60000) ->
  let r := postBlacklist d now userId req (Some addr) (Some why) (Some m) in
  (forall later, Clock.in_range later ->
     isBlacklisted (fst r) later addr
       = (Clock.seconds later / 86400 <=? Clock.seconds (now + m * 60000) / 86400)) /\
  (forall later, Clock.in_range later -> later <= now + m * 60000 ->
     isBlacklisted (fst r) later addr = true).
Proof.
  intros Haddr Hwhy Hm Hnow Huntil r. subst r.
  rewrite postBlacklist_stored by assumption. cbn [fst].
  apply Z.eqb_neq in Hm. rewrite Hm.
  assert (Hday : forall later, Clock.in_range later ->
            isBlacklisted
              (logSecurityEvent
                 (set_ip_blacklist d
                    (<[addr := {| reason := why; blocked_at := Clock.datetime now;
                                  blocked_until := Some (Clock.toISOString (now + m * 60000));
                                  created_by := Some userId |}]> (ip_blacklist d)))
                 addr (Some userId) "ip_blacklisted" "high" why (get req "user-agent") (path req))
              later addr
            = (Clock.seconds later / 86400 <=? Clock.seconds (now + m * 60000) / 86400)).
  { intros later Hlater. unfold isBlacklisted. simpl. rewrite lookup_insert_eq.
    apply timed_block_active; [ reflexivity | assumption | assumption ]. }
  split; [ exact Hday | ].
  intros later Hlater Hle. rewrite Hday by assumption.
  apply Z.leb_le. unfold Clock.seconds.
  apply Z.div_le_mono; [ lia | ]. apply Z.div_le_mono; lia.
Qed.

(** X10 on a block of one hour. *)
Lemma block_with_duration_witness :
  Clock.in_range t0 /\ Clock.in_range (t0 + 60 * 60000) /\ Clock.in_range (t0 + minutes 59) /\
  isBlacklisted (fst (postBlacklist empty_db t0 1 admin_post (Some banned_ip) (Some "spam") (Some 60)))
    (t0 + minutes 59) banned_ip = true.
Proof.
  assert (Haddr : banned_ip <> "") by discriminate.
  assert (Hwhy : "spam" <> "") by discriminate.
  assert (Hm : 60 <> 0) by discriminate.
  assert (Hnow : Clock.in_range t0) by (unfold Clock.in_range, Clock.end_of_time, t0; lia).
  assert (Huntil : Clock.in_range (t0 + 60 * 60000))
    by (unfold Clock.in_range, Clock.end_of_time, t0; lia).
  assert (Hlater : Clock.in_range (t0 + minutes 59))
    by (unfold Clock.in_range, Clock.end_of_time, t0, minutes; lia).
  split; [ exact Hnow | ]. split; [ exact Huntil | ]. split; [ exact Hlater | ].
  apply (proj2 (block_with_duration empty_db t0 1 admin_post banned_ip "spam" 60
                  Haddr Hwhy Hm Hnow Huntil) _ Hlater).
  unfold minutes. lia.
Defined.

(** ** Votes and answers *)

(** The vote count of a server after one attempt. *)
Lemma postVote_votes d now req id s :
  votes <$> servers (fst (postVote d now req id)) !! s =
  (fun v => v + (if bool_decide (JS.parseInt10 id = Some s)
                      && (status (snd (postVote d now req id)) =? 200)
                 then 1 else 0)) <$> (votes <$> servers d !! s).
Proof.
  assert (Hid : forall o : option Z, o = (fun v => v + 0) <$> o).
  { intros [ v | ]; simpl; [ f_equal; lia | reflexivity ]. }
  unfold postVote. destruct (JS.parseInt10 id) as [ serverId | ].
  2: { cbn [fst snd status]. rewrite bool_decide_eq_false_2 by discriminate. simpl. apply Hid. }
  cbv zeta. destruct (votes_table d !! _).
  { cbn [fst snd status already_voted]. rewrite andb_false_r. apply Hid. }
  cbn [fst snd status servers set_servers set_votes_table]. rewrite andb_true_r.
  destruct (decide (serverId = s)) as [ -> | Hs ].
  - rewrite bool_decide_eq_true_2 by reflexivity. rewrite lookup_alter_eq.
    destruct (servers d !! s); reflexivity.
  - rewrite bool_decide_eq_false_2 by congruence. rewrite lookup_alter_ne by congruence.
    apply Hid.
Qed.

(** X12: after any sequence of vote attempts the vote count of every
    server is its count before plus the number of attempts for it that
    were answered 200; an attempt answered otherwise adds nothing, and no
    attempt creates or removes a server. *)
Theorem votes_follow_answers (attempts : list (Z * request * string)) (d : db) (s : Z) :
  votes <$> servers (fst (run_votes d attempts)) !! s =
  (fun v => v + granted s attempts (snd (run_votes d attempts))) <$> (votes <$> servers d !! s).
Proof.
  revert d. induction attempts as [ | [ [ now req ] id ] rest IH ]; intros d.
  - simpl. destruct (servers d !! s); simpl; [ f_equal; lia | reflexivity ].
  - cbn [run_votes].
    pose proof (postVote_votes d now req id s) as Hone.
    destruct (postVote d now req id) as [ d1 r1 ].
    specialize (IH d1). destruct (run_votes d1 rest) as [ d2 rs ].
    cbn [fst snd granted] in *. rewrite IH, Hone.
    destruct (servers d !! s); simpl; [ f_equal; lia | reflexivity ].
Qed.

(** ** The hash *)

Lemma toInt32_congr a b k : a = b + k * 2 ^ 32 -> JS.toInt32 a = JS.toInt32 b.
Proof.
  intros ->. unfold JS.toInt32.
  replace (b + k * 2 ^ 32 + 2 ^ 31) with (b + 2 ^ 31 + k * 2 ^ 32) by lia.
  rewrite Z.mod_add by lia. reflexivity.
Qed.

Lemma toInt32_multiple a : exists k, JS.toInt32 a = a + k * 2 ^ 32.
Proof.
  exists (- ((a + 2 ^ 31) / 2 ^ 32)). unfold JS.toInt32.
  pose proof (Z.div_mod (a + 2 ^ 31) (2 ^ 32)). lia.
Qed.

Lemma toInt32_range a : - 2 ^ 31 <= JS.toInt32 a < 2 ^ 31.
Proof.
  unfold JS.toInt32. pose proof (Z.mod_pos_bound (a + 2 ^ 31) (2 ^ 32)). lia.
Qed.

Lemma toInt32_small a : - 2 ^ 31 <= a < 2 ^ 31 -> JS.toInt32 a = a.
Proof.
  intros H. unfold JS.toInt32. rewrite Z.mod_small by lia. lia.
Qed.

Lemma poly31_shift str : forall h k, exists k', poly31 (h + k * 2 ^ 32) str = poly31 h str + k' * 2 ^ 32.
Proof.
  induction str as [ | c rest IH ]; intros h k.
  - exists k. reflexivity.
  - simpl. destruct (IH (31 * h + Z.of_N (N_of_ascii c)) (31 * k)) as (k' & Hk').
    exists k'. rewrite <- Hk'. f_equal. lia.
Qed.

Lemma poly31_app s : forall h t, poly31 h (s +:+ t) = poly31 (poly31 h s) t.
Proof.
  induction s as [ | c rest IH ]; intros h t; [ reflexivity | ].
  rewrite ClockFacts.append_cons. simpl. apply IH.
Qed.

Lemma simpleHash_loop_poly31 str : forall h,
  JS.toInt32 (simpleHash_loop h str) = JS.toInt32 (poly31 h str).
Proof.
  induction str as [ | c rest IH ]; intros h; [ reflexivity | ].
  cbn [simpleHash_loop poly31]. cbv zeta. rewrite IH.
  destruct (toInt32_multiple (Z.shiftl h 5)) as (k1 & Hk1).
  destruct (toInt32_multiple (JS.toInt32 (Z.shiftl h 5) - h + Z.of_N (N_of_ascii c))) as (k2 & Hk2).
  rewrite Hk2, Hk1. rewrite Z.shiftl_mul_pow2 by lia.
  replace (h * 2 ^ 5 + k1 * 2 ^ 32 - h + Z.of_N (N_of_ascii c) + k2 * 2 ^ 32)
    with (31 * h + Z.of_N (N_of_ascii c) + (k1 + k2) * 2 ^ 32) by lia.
  destruct (poly31_shift rest (31 * h + Z.of_N (N_of_ascii c)) (k1 + k2)) as (k' & Hk').
  rewrite Hk'. apply (toInt32_congr _ _ k'). reflexivity.
Qed.

Lemma simpleHash_loop_range str : forall h,
  - 2 ^ 31 <= h < 2 ^ 31 -> - 2 ^ 31 <= simpleHash_loop h str < 2 ^ 31.
Proof.
  induction str as [ | c rest IH ]; intros h Hh; [ exact Hh | ].
  cbn [simpleHash_loop]. cbv zeta. apply IH. apply toInt32_range.
Qed.

(** X13: the hash of a string is the decimal text of a 32-bit signed
    integer: the polynomial with multiplier 31 over the code units of the
    string, wrapped to 32 bits. Two strings with the same polynomial
    modulo 2^32 have the same hash. *)
Theorem simpleHash_is_polynomial_31 (str : string) :
  simpleHash str = JS.numToString (JS.toInt32 (poly31 0 str)) /\
  - 2 ^ 31 <= JS.toInt32 (poly31 0 str) < 2 ^ 31 /\
  (forall str', poly31 0 str mod 2 ^ 32 = poly31 0 str' mod 2 ^ 32 ->
     simpleHash str = simpleHash str').
Proof.
  assert (Hpoly : forall s, simpleHash s = JS.numToString (JS.toInt32 (poly31 0 s))).
  { intros s. unfold simpleHash. f_equal.
    rewrite <- simpleHash_loop_poly31. symmetry. apply toInt32_small.
    apply simpleHash_loop_range. lia. }
  split; [ apply Hpoly | ]. split; [ apply toInt32_range | ].
  intros str' Hmod. rewrite !Hpoly. f_equal.
  apply (toInt32_congr _ _ (poly31 0 str / 2 ^ 32 - poly31 0 str' / 2 ^ 32)).
  pose proof (Z.div_mod (poly31 0 str) (2 ^ 32)).
  pose proof (Z.div_mod (poly31 0 str') (2 ^ 32)). lia.
Qed.

Lemma simpleHash_Aa_BB p q : simpleHash (p +:+ "Aa" +:+ q) = simpleHash (p +:+ "BB" +:+ q).
Proof.
  unfold simpleHash. f_equal.
  rewrite <- (toInt32_small (simpleHash_loop 0 (p +:+ "Aa" +:+ q)))
    by (apply simpleHash_loop_range; lia).
  rewrite <- (toInt32_small (simpleHash_loop 0 (p +:+ "BB" +:+ q)))
    by (apply simpleHash_loop_range; lia).
  rewrite !simpleHash_loop_poly31, !poly31_app. f_equal. f_equal. simpl. lia.
Qed.

Lemma append_inv_head p : forall a b, p +:+ a = p +:+ b -> a = b.
Proof.
  induction p as [ | c rest IH ]; intros a b H; [ exact H | ].
  rewrite !ClockFacts.append_cons in H. injection H as H. apply IH, H.
Qed.

(** X14: the vote window does not tell apart two user-agents that differ
    only by [Aa] against [BB] at one place: from one address, after the
    vote of the first the vote of the second for the same server on the
    same day is refused as a second vote. *)
Theorem agents_Aa_BB_share_a_vote
    (d : db) (now now' : Z) (req req' : request) (id : string) (serverId : Z) (p q : string) :
  JS.parseInt10 id = Some serverId ->
  ip req = ip req' ->
  JS.orEmpty (get req "user-agent") = p +:+ "Aa" +:+ q ->
  JS.orEmpty (get req' "user-agent") = p +:+ "BB" +:+ q ->
  Clock.strftime_Ymd now = Clock.strftime_Ymd now' ->
  votes_table d !! (serverId, voterFingerprint req, Clock.strftime_Ymd now) = None ->
  JS.orEmpty (get req "user-agent") <> JS.orEmpty (get req' "user-agent") /\
  voterFingerprint req = voterFingerprint req' /\
  status (snd (postVote d now req id)) = 200 /\
  postVote (fst (postVote d now req id)) now' req' id
    = (fst (postVote d now req id), already_voted).
Proof.
  intros Hid Hip Hua Hua' Hday Hfree.
  assert (Hfp : voterFingerprint req = voterFingerprint req').
  { unfold voterFingerprint. rewrite Hua, Hua', <- Hip.
    assert (Hassoc : forall x, ip req +:+ "|" +:+ p +:+ x = (ip req +:+ "|" +:+ p) +:+ x)
      by (intros x; rewrite !ClockFacts.append_assoc; reflexivity).
    rewrite !Hassoc. apply simpleHash_Aa_BB. }
  split; [ | split; [ exact Hfp | ] ].
  - rewrite Hua, Hua'. intros H. apply append_inv_head in H. discriminate.
  - assert (Hfirst : postVote d now req id =
              (set_servers
                 (set_votes_table d
                    (<[(serverId, voterFingerprint req, Clock.strftime_Ymd now)
                       := Clock.datetime now]> (votes_table d)))
                 (alter add_vote serverId (servers d)),
               {| status := 200;
                  body := JVote serverId (votes <$> alter add_vote serverId (servers d) !! serverId) |})).
    { unfold postVote. rewrite Hid. cbv zeta. rewrite Hfree. reflexivity. }
    rewrite Hfirst. cbn [fst snd status]. split; [ reflexivity | ].
    apply (postVote_denied _ now' req' id serverId Hid).
    rewrite <- Hfp, <- Hday. cbn [votes_table set_servers set_votes_table].
    rewrite lookup_insert_eq. eexists. reflexivity.
Qed.

(** X14 on two such user-agents, one minute apart. *)
Lemma agents_Aa_BB_witness :
  JS.orEmpty (get vote_by_Aa "user-agent") <> JS.orEmpty (get vote_by_BB "user-agent") /\
  voterFingerprint vote_by_Aa = voterFingerprint vote_by_BB /\
  status (snd (postVote db_one_server t0 vote_by_Aa "3")) = 200 /\
  postVote (fst (postVote db_one_server t0 vote_by_Aa "3")) (t0 + minutes 1) vote_by_BB "3"
    = (fst (postVote db_one_server t0 vote_by_Aa "3"), already_voted).
Proof.
  apply (agents_Aa_BB_share_a_vote db_one_server t0 (t0 + minutes 1) vote_by_Aa vote_by_BB
           "3" 3 "Mozilla/5.0 (" ") Gecko"); vm_compute; reflexivity.
Defined.

(** ** Who may change accounts *)

Lemma requireAdmin_cases {row : Type} (s : Auth.session) :
  (Auth.no_user s = true /\
   @Auth.requireAdmin row s
     = Auth.Denied {| Auth.status := 401; Auth.body := Auth.Error "Authentication required" |}) \/
  (Auth.no_user s = false /\ Auth.userRole s <> Some "admin" /\
   @Auth.requireAdmin row s
     = Auth.Denied {| Auth.status := 403; Auth.body := Auth.Error "Admin access required" |}) \/
  (Auth.no_user s = false /\ Auth.userRole s = Some "admin" /\
   @Auth.requireAdmin row s = Auth.Granted (Auth.userId s, Auth.username s, Auth.userRole s)).
Proof.
  unfold Auth.requireAdmin. destruct (Auth.no_user s); [ left; split; reflexivity | right ].
  destruct (decide (Auth.userRole s = Some "admin")) as [ H | H ].
  - right. rewrite bool_decide_eq_true_2 by exact H. repeat split; assumption.
  - left. rewrite bool_decide_eq_false_2 by exact H. repeat split; assumption.
Qed.

Lemma requireAuth_cases {row : Type} (s : Auth.session) :
  (Auth.no_user s = true /\
   @Auth.requireAuth row s
     = Auth.Denied {| Auth.status := 401; Auth.body := Auth.Error "Authentication required" |}) \/
  (Auth.no_user s = false /\
   @Auth.requireAuth row s = Auth.Granted (Auth.userId s, Auth.username s, Auth.userRole s)).
Proof.
  unfold Auth.requireAuth. destruct (Auth.no_user s); [ left | right ]; split; reflexivity.
Qed.

Lemma is_session_user_true n s :
  Auth.is_session_user n s = true <-> exists u, n = Some u /\ Auth.userId s = Some u.
Proof.
  unfold Auth.is_session_user. destruct n as [ a | ], (Auth.userId s) as [ b | ]; split;
    try discriminate; try (intros (u & H1 & H2); discriminate).
  - intros H. apply Z.eqb_eq in H. subst b. exists a. split; reflexivity.
  - intros (u & [= ->] & [= ->]). apply Z.eqb_refl.
Qed.

(** X15: the two admin routes on users change nothing for a session that
    is not an administrator's: without a user id the answer is 401, with
    another role 403, and the users are as before. Whatever the session,
    they never change or delete the account of the session's own user. *)
Theorem user_routes_need_admin
    (s : Auth.session) (users : gmap Z Accounts.user_row) (id : string) (role : option string) :
  let r1 := Accounts.putUserRole s users id role in
  let r2 := Accounts.deleteUser s users id in
  (Auth.no_user s = true ->
     r1 = (users, {| Auth.status := 401; Auth.body := Auth.Error "Authentication required" |}) /\
     r2 = (users, {| Auth.status := 401; Auth.body := Auth.Error "Authentication required" |})) /\
  (Auth.no_user s = false -> Auth.userRole s <> Some "admin" ->
     r1 = (users, {| Auth.status := 403; Auth.body := Auth.Error "Admin access required" |}) /\
     r2 = (users, {| Auth.status := 403; Auth.body := Auth.Error "Admin access required" |})) /\
  (forall u, Auth.userId s = Some u ->
     fst r1 !! u = users !! u /\ fst r2 !! u = users !! u).
Proof.
  intros r1 r2. subst r1 r2. unfold Accounts.putUserRole, Accounts.deleteUser.
  destruct (requireAdmin_cases (row := Accounts.public_user) s)
    as [ (Hno & E) | [ (Hno & Hrole & E) | (Hno & Hrole & E) ] ]; rewrite E.
  - split; [ intros _; split; reflexivity | ]. split; [ congruence | ].
    intros u _. split; reflexivity.
  - split; [ congruence | ]. split; [ intros _ _; split; reflexivity | ].
    intros u _. split; reflexivity.
  - split; [ congruence | ]. split; [ congruence | ].
    intros u Hu. cbv zeta.
    destruct (Auth.is_session_user (JS.parseInt10 id) s) eqn:Hself.
    + split; [ destruct (_ || _); reflexivity | reflexivity ].
    + assert (Hne : forall n, JS.parseInt10 id = Some n -> n <> u).
      { intros n Hn ->. rewrite (proj2 (is_session_user_true (JS.parseInt10 id) s)) in Hself;
          [ discriminate | ]. exists u. split; assumption. }
      destruct (JS.parseInt10 id) as [ n | ]; simpl.
      2: { split; [ destruct (_ || _); reflexivity | reflexivity ]. }
      specialize (Hne n eq_refl).
      destruct (users !! n) as [ row | ] eqn:Hrow; simpl.
      * split; [ destruct (_ || _); [ reflexivity | ] | ]; simpl.
        -- apply lookup_insert_ne. exact Hne.
        -- apply lookup_delete_ne. exact Hne.
      * split; [ destruct (_ || _); reflexivity | reflexivity ].
Qed.

(** The check of a field against two allowed values. *)
Lemma one_of_two (v : option string) (a b : string) :
  a <> "" -> b <> "" ->
  (JS.absent v || negb (bool_decide (JS.orEmpty v ∈ [ a; b ])) = false
   <-> v = Some a \/ v = Some b).
Proof.
  intros Ha Hb. rewrite orb_false_iff, negb_false_iff, bool_decide_eq_true.
  rewrite !elem_of_cons, elem_of_nil. unfold JS.absent, JS.falsy.
  destruct v as [ x | ]; simpl.
  - rewrite String.eqb_neq. split.
    + intros (_ & [ -> | [ -> | [] ] ]); tauto.
    + intros [ [= ->] | [= ->] ]; tauto.
  - split; [ intros (H & _); discriminate | intros [ H | H ]; discriminate ].
Qed.

(** The row [UPDATE ... WHERE id = ?] and [DELETE ... WHERE id = ?] find. *)
Lemma target_Some {A : Type} (m : gmap Z A) (o : option Z) n x :
  o ≫= (fun n => (fun u => (n, u)) <$> m !! n) = Some (n, x) <-> o = Some n /\ m !! n = Some x.
Proof.
  destruct o as [ k | ]; simpl; [ | split; [ discriminate | intros (H & _); discriminate ] ].
  destruct (m !! k) as [ y | ] eqn:Hk; simpl; split.
  - intros [= -> ->]. split; [ reflexivity | exact Hk ].
  - intros ([= ->] & H). congruence.
  - discriminate.
  - intros ([= ->] & H). congruence.
Qed.

Lemma target_None {A : Type} (m : gmap Z A) (o : option Z) :
  o ≫= (fun n => (fun u => (n, u)) <$> m !! n) = None <-> forall n, o = Some n -> m !! n = None.
Proof.
  destruct o as [ k | ]; simpl; [ | split; [ intros _ n H; discriminate | reflexivity ] ].
  destruct (m !! k) as [ y | ] eqn:Hk; simpl; split; try discriminate; try reflexivity.
  - intros H. specialize (H k eq_refl). congruence.
  - intros _ n [= <-]. exact Hk.
Qed.

(** X16: for an administrator's session, the role route answers 200
    exactly when the role sent is [user] or [admin] and the id names an
    existing user other than the administrator; then that user has the
    new role, keeps its other columns, and the answer carries its id,
    username, email and new role. Any other answer leaves the users as
    they were. Roles that were [user] or [admin] stay so. *)
Theorem role_change
    (s : Auth.session) (users : gmap Z Accounts.user_row) (id : string) (role : option string) :
  Auth.no_user s = false -> Auth.userRole s = Some "admin" ->
  let r := Accounts.putUserRole s users id role in
  (Auth.status (snd r) = 200 <->
     exists n u, JS.parseInt10 id = Some n /\ users !! n = Some u /\
       Auth.userId s <> Some n /\ (role = Some "user" \/ role = Some "admin")) /\
  (forall n u, JS.parseInt10 id = Some n -> users !! n = Some u ->
     Auth.status (snd r) = 200 ->
     fst r = <[n := Accounts.set_role u (JS.orEmpty role)]> users /\
     Auth.body (snd r)
       = Auth.RowMessage (Some (n, Accounts.username u, Accounts.email u, JS.orEmpty role))
           "User role updated successfully") /\
  (Auth.status (snd r) <> 200 -> fst r = users) /\
  ((forall n u, users !! n = Some u -> Accounts.role u = "user" \/ Accounts.role u = "admin") ->
   forall n u, fst r !! n = Some u -> Accounts.role u = "user" \/ Accounts.role u = "admin").
Proof.
  intros Hno Hadmin r. subst r. unfold Accounts.putUserRole.
  destruct (requireAdmin_cases (row := Accounts.public_user) s)
    as [ (Hno' & _) | [ (_ & Hrole & _) | (_ & _ & E) ] ]; [ congruence | congruence | ].
  rewrite E. cbv zeta.
  pose proof (one_of_two role "user" "admin" ltac:(discriminate) ltac:(discriminate)) as Hvalid.
  destruct (JS.absent role || negb (bool_decide (JS.orEmpty role ∈ [ "user"; "admin" ]))).
  { assert (Hbad : ~ (role = Some "user" \/ role = Some "admin"))
      by (intros H; apply Hvalid in H; discriminate).
    cbn [fst snd Auth.status]. split; [ split; [ discriminate | ] | ].
    - intros (n & u & _ & _ & _ & H). tauto.
    - split; [ discriminate | ]. split; [ reflexivity | ]. intros H. exact H. }
  assert (Hgood : role = Some "user" \/ role = Some "admin") by (apply Hvalid; reflexivity).
  pose proof (is_session_user_true (JS.parseInt10 id) s) as Hself.
  destruct (Auth.is_session_user (JS.parseInt10 id) s).
  { destruct (proj1 Hself eq_refl) as (me & Hid & Hme).
    cbn [fst snd Auth.status]. split; [ split; [ discriminate | ] | ].
    - intros (n & u & Hn & _ & Hother & _). congruence.
    - split; [ discriminate | ]. split; [ reflexivity | ]. intros H. exact H. }
  assert (Hother : forall n, JS.parseInt10 id = Some n -> Auth.userId s <> Some n).
  { intros n Hn Hs. assert (false = true); [ | discriminate ].
    apply Hself. exists n. split; assumption. }
  destruct (JS.parseInt10 id ≫= (fun n => (fun u => (n, u)) <$> users !! n))
    as [ [ n u ] | ] eqn:Htarget.
  - apply target_Some in Htarget. destruct Htarget as (Hid & Hu).
    cbn [fst snd Auth.status Auth.body]. split; [ split; [ intros _ | reflexivity ] | ].
    { exists n, u. repeat split; auto. }
    split; [ | split; [ congruence | ] ].
    + intros n' u' Hn' Hu' _. assert (n' = n) by congruence. subst n'.
      assert (u' = u) by congruence. subst u'. split; [ reflexivity | ].
      unfold Accounts.select_user. rewrite lookup_insert_eq. reflexivity.
    + intros Hroles k row. destruct (decide (k = n)) as [ -> | Hk ].
      * rewrite lookup_insert_eq. intros [= <-]. simpl.
        destruct Hgood as [ -> | -> ]; simpl; tauto.
      * rewrite lookup_insert_ne by congruence. apply Hroles.
  - pose proof (proj1 (target_None users (JS.parseInt10 id)) Htarget) as Hnone.
    cbn [fst snd Auth.status]. split; [ split; [ discriminate | ] | ].
    + intros (n & u & Hn & Hu & _). rewrite (Hnone n Hn) in Hu. discriminate.
    + split; [ discriminate | ]. split; [ reflexivity | ]. intros H. exact H.
Qed.

(** X16 on the sample accounts: the administrator promotes user 2. *)
Lemma role_change_witness :
  Auth.no_user admin_session = false /\ Auth.userRole admin_session = Some "admin" /\
  Auth.status (snd (Accounts.putUserRole admin_session three_users "2" (Some "admin"))) = 200 /\
  Accounts.role <$> fst (Accounts.putUserRole admin_session three_users "2" (Some "admin")) !! 2
    = Some "admin".
Proof.
  assert (Hno : Auth.no_user admin_session = false) by reflexivity.
  assert (Hadmin : Auth.userRole admin_session = Some "admin") by reflexivity.
  pose proof (role_change admin_session three_users "2" (Some "admin") Hno Hadmin)
    as (Hok & Hrow & _).
  assert (Hstatus : Auth.status (snd (Accounts.putUserRole admin_session three_users "2"
                                        (Some "admin"))) = 200).
  { apply Hok. exists 2, (account "steve" "user").
    split; [ reflexivity | ]. split; [ reflexivity | ]. split; [ discriminate | tauto ]. }
  split; [ exact Hno | ]. split; [ exact Hadmin | ]. split; [ exact Hstatus | ].
  rewrite (proj1 (Hrow 2 (account "steve" "user") eq_refl eq_refl Hstatus)).
  rewrite lookup_insert_eq. reflexivity.
Defined.

(** X17: for an administrator's session, the delete route answers 200
    exactly when the id names an existing user other than the
    administrator; then that user is gone, every other user is as
    before, and the same request again is answered 404. Any other answer
    leaves the users as they were. *)
Theorem user_deletion
    (s : Auth.session) (users : gmap Z Accounts.user_row) (id : string) :
  Auth.no_user s = false -> Auth.userRole s = Some "admin" ->
  let r := Accounts.deleteUser s users id in
  (Auth.status (snd r) = 200 <->
     exists n, JS.parseInt10 id = Some n /\ is_Some (users !! n) /\ Auth.userId s <> Some n) /\
  (forall n, JS.parseInt10 id = Some n -> Auth.status (snd r) = 200 ->
     fst r = delete n users /\
     Accounts.deleteUser s (fst r) id
       = (fst r, {| Auth.status := 404; Auth.body := Auth.Error "User not found" |})) /\
  (Auth.status (snd r) <> 200 -> fst r = users).
Proof.
  intros Hno Hadmin r. subst r. unfold Accounts.deleteUser.
  destruct (requireAdmin_cases (row := Accounts.public_user) s)
    as [ (Hno' & _) | [ (_ & Hrole & _) | (_ & _ & E) ] ]; [ congruence | congruence | ].
  rewrite E. cbv zeta.
  pose proof (is_session_user_true (JS.parseInt10 id) s) as Hself.
  destruct (Auth.is_session_user (JS.parseInt10 id) s).
  { destruct (proj1 Hself eq_refl) as (me & Hid & Hme).
    cbn [fst snd Auth.status]. split; [ split; [ discriminate | ] | ].
    - intros (n & Hn & _ & Hother). congruence.
    - split; [ discriminate | reflexivity ]. }
  assert (Hother : forall n, JS.parseInt10 id = Some n -> Auth.userId s <> Some n).
  { intros n Hn Hs. assert (false = true); [ | discriminate ].
    apply Hself. exists n. split; assumption. }
  destruct (JS.parseInt10 id ≫= (fun n => (fun u => (n, u)) <$> users !! n))
    as [ [ n u ] | ] eqn:Htarget.
  - apply target_Some in Htarget. destruct Htarget as (Hid & Hu).
    cbn [fst snd Auth.status]. split; [ split; [ intros _ | reflexivity ] | ].
    { exists n. split; [ exact Hid | ]. split; [ eexists; exact Hu | auto ]. }
    split; [ | congruence ].
    intros n' Hn' _. assert (n' = n) by congruence. subst n'. split; [ reflexivity | ].
    assert (Hgone : JS.parseInt10 id ≫= (fun k => (fun u => (k, u)) <$> delete n users !! k) = None).
    { apply target_None. intros k Hk. assert (k = n) by congruence. subst k.
      apply lookup_delete_eq. }
    rewrite Hgone. reflexivity.
  - pose proof (proj1 (target_None users (JS.parseInt10 id)) Htarget) as Hnone.
    cbn [fst snd Auth.status]. split; [ split; [ discriminate | ] | ].
    + intros (n & Hn & (u & Hu) & _). rewrite (Hnone n Hn) in Hu. discriminate.
    + split; [ discriminate | reflexivity ].
Qed.

(** X17 on the sample accounts: the administrator deletes user 3. *)
Lemma user_deletion_witness :
  Auth.no_user admin_session = false /\ Auth.userRole admin_session = Some "admin" /\
  Auth.status (snd (Accounts.deleteUser admin_session three_users "3")) = 200 /\
  fst (Accounts.deleteUser admin_session three_users "3") !! 3 = None.
Proof.
  assert (Hno : Auth.no_user admin_session = false) by reflexivity.
  assert (Hadmin : Auth.userRole admin_session = Some "admin") by reflexivity.
  pose proof (user_deletion admin_session three_users "3" Hno Hadmin) as (Hok & Hrow & _).
  assert (Hstatus : Auth.status (snd (Accounts.deleteUser admin_session three_users "3")) = 200).
  { apply Hok. exists 3. split; [ reflexivity | ].
    split; [ exists (account "alex" "user"); reflexivity | discriminate ]. }
  split; [ exact Hno | ]. split; [ exact Hadmin | ]. split; [ exact Hstatus | ].
  rewrite (proj1 (Hrow 3 eq_refl Hstatus)). apply lookup_delete_eq.
Defined.

(** ** Who may change listings *)

Lemma own_server_Some s t o n l :
  Listings.own_server s t o = Some (n, l) <->
  o = Some n /\ Listings.rows t !! n = Some l /\
  exists u, Auth.userId s = Some u /\ Listings.owner_id l = Some u.
Proof.
  unfold Listings.own_server. destruct o as [ k | ].
  2: { split; [ discriminate | intros (H & _); discriminate ]. }
  destruct (Auth.userId s) as [ u | ].
  2: { split; [ discriminate | intros (_ & _ & u & H & _); discriminate ]. }
  destruct (Listings.rows t !! k) as [ row | ] eqn:Hrow.
  2: { split; [ discriminate | intros ([= ->] & H & _); congruence ]. }
  destruct (decide (Listings.owner_id row = Some u)) as [ Ho | Ho ].
  - rewrite bool_decide_eq_true_2 by exact Ho. split.
    + intros [= -> ->]. split; [ reflexivity | ]. split; [ exact Hrow | ].
      exists u. split; [ reflexivity | exact Ho ].
    + intros ([= ->] & H & _). congruence.
  - rewrite bool_decide_eq_false_2 by exact Ho. split; [ discriminate | ].
    intros ([= ->] & H & u' & [= <-] & Ho'). congruence.
Qed.

(** What an update keeps of a listing, and what the two user routes on
    listings cannot do: create a listing, move the id counter. *)
Lemma user_listing_routes
    (s : Auth.session) (t : Listings.table) (id : string) (b : Listings.fields) :
  let r1 := Listings.putUserServer s t id b in
  let r2 := Listings.deleteUserServer s t id in
  (forall n l', Listings.rows (fst r1) !! n = Some l' ->
     exists l, Listings.rows t !! n = Some l /\
       Listings.plan l' = Listings.plan l /\ Listings.votes l' = Listings.votes l /\
       Listings.owner_id l' = Listings.owner_id l /\
       Listings.created_at l' = Listings.created_at l) /\
  (forall n l', Listings.rows (fst r2) !! n = Some l' -> Listings.rows t !! n = Some l') /\
  Listings.seq (fst r1) = Listings.seq t /\ Listings.seq (fst r2) = Listings.seq t.
Proof.
  intros r1 r2. subst r1 r2. unfold Listings.putUserServer, Listings.deleteUserServer.
  assert (Hkeep : forall n l', Listings.rows t !! n = Some l' ->
            exists l, Listings.rows t !! n = Some l /\
              Listings.plan l' = Listings.plan l /\ Listings.votes l' = Listings.votes l /\
              Listings.owner_id l' = Listings.owner_id l /\
              Listings.created_at l' = Listings.created_at l).
  { intros n l' H. exists l'. repeat split. exact H. }
  destruct (requireAuth_cases (row := Listings.listing_json) s) as [ (Hno & E) | (Hno & E) ];
    rewrite E.
  { cbn [fst]. repeat split; auto. }
  pose proof (own_server_Some s t (JS.parseInt10 id)) as Hown.
  destruct (Listings.own_server s t (JS.parseInt10 id)) as [ [ k row ] | ].
  2: { destruct (JS.absent _ || JS.absent _); cbn [fst]; repeat split; auto. }
  destruct (proj1 (Hown k row) eq_refl) as (Hid & Hrow & u & Hu & Howner).
  split; [ | split ].
  - destruct (JS.absent _ || JS.absent _); cbn [fst Listings.rows]; [ exact Hkeep | ].
    intros n l'. destruct (decide (n = k)) as [ -> | Hn ].
    + rewrite lookup_insert_eq. intros [= <-]. exists row. repeat split. exact Hrow.
    + rewrite lookup_insert_ne by congruence. apply Hkeep.
  - cbn [fst Listings.rows]. intros n l' H. apply lookup_delete_Some in H. tauto.
  - destruct (JS.absent _ || JS.absent _); split; reflexivity.
Qed.

(** X18: the two user routes on listings, update and delete, leave
    alone every listing whose owner is not the user of the session, and
    every listing when the session has no user. An update keeps the
    plan, the votes, the owner and the creation time of the listing it
    changes; neither route creates a listing or moves the id counter. *)
Theorem user_routes_touch_own_listings_only
    (s : Auth.session) (t : Listings.table) (id : string) (b : Listings.fields) :
  let r1 := Listings.putUserServer s t id b in
  let r2 := Listings.deleteUserServer s t id in
  (forall n l, Listings.rows t !! n = Some l ->
     Auth.no_user s = true \/ Listings.owner_id l <> Auth.userId s ->
     Listings.rows (fst r1) !! n = Some l /\ Listings.rows (fst r2) !! n = Some l) /\
  (forall n l', Listings.rows (fst r1) !! n = Some l' ->
     exists l, Listings.rows t !! n = Some l /\
       Listings.plan l' = Listings.plan l /\ Listings.votes l' = Listings.votes l /\
       Listings.owner_id l' = Listings.owner_id l /\
       Listings.created_at l' = Listings.created_at l) /\
  (forall n l', Listings.rows (fst r2) !! n = Some l' -> Listings.rows t !! n = Some l') /\
  Listings.seq (fst r1) = Listings.seq t /\ Listings.seq (fst r2) = Listings.seq t.
Proof.
  intros r1 r2. split; [ | exact (user_listing_routes s t id b) ].
  subst r1 r2. intros n l Hl Hnot.
  unfold Listings.putUserServer, Listings.deleteUserServer.
  destruct (requireAuth_cases (row := Listings.listing_json) s) as [ (Hno & E) | (Hno & E) ];
    rewrite E; [ split; exact Hl | ].
  pose proof (own_server_Some s t (JS.parseInt10 id)) as Hown.
  destruct (Listings.own_server s t (JS.parseInt10 id)) as [ [ k row ] | ].
  2: { destruct (JS.absent _ || JS.absent _); split; exact Hl. }
  destruct (proj1 (Hown k row) eq_refl) as (_ & Hrow & u & Hu & Howner).
  assert (Hn : n <> k).
  { intros ->. destruct Hnot as [ H | H ]; [ congruence | ]. apply H. congruence. }
  destruct (JS.absent _ || JS.absent _); cbn [fst Listings.rows].
  - split; [ exact Hl | ]. rewrite lookup_delete_ne by congruence. exact Hl.
  - rewrite lookup_insert_ne by congruence. rewrite lookup_delete_ne by congruence.
    split; exact Hl.
Qed.

(** What a step does to the plans. *)
Lemma step_plans users t op (P : string -> Prop) :
  P "free" ->
  (Auth.userRole (Listings.session_of op) = Some "admin" -> P "paid") ->
  (forall n l, Listings.rows t !! n = Some l -> P (Listings.plan l)) ->
  forall n l, Listings.rows (Listings.step users t op) !! n = Some l -> P (Listings.plan l).
Proof.
  intros Hfree Hpaid Hall n l.
  destruct op as [ s now b | s id b | s id | s id | s id plan ]; cbn [Listings.step Listings.session_of] in *.
  - unfold Listings.postServer.
    destruct (requireAuth_cases (row := Listings.listing_json) s) as [ (_ & E) | (_ & E) ];
      rewrite E; [ apply Hall | ].
    destruct (JS.absent _ || JS.absent _); [ apply Hall | ].
    cbn [fst Listings.rows]. destruct (decide (n = Listings.seq t + 1)) as [ -> | Hn ].
    + rewrite lookup_insert_eq. intros [= <-]. cbn [Listings.plan].
      destruct (String.eqb _ "paid"); [ | exact Hfree ].
      destruct (decide (Auth.userRole s = Some "admin")) as [ Ha | Ha ].
      * rewrite bool_decide_eq_true_2 by exact Ha. apply Hpaid, Ha.
      * rewrite bool_decide_eq_false_2 by exact Ha. exact Hfree.
    + rewrite lookup_insert_ne by congruence. apply Hall.
  - intros H. destruct (proj1 (user_listing_routes s t id b) n l H)
      as (l0 & Hl0 & Hplan & _). rewrite Hplan. apply (Hall _ _ Hl0).
  - intros H. apply (Hall n l).
    apply (proj1 (proj2 (user_listing_routes s t id
             {| Listings.f_name := None; Listings.f_ip := None; Listings.f_description := None;
                Listings.f_website_url := None; Listings.f_banner_url := None;
                Listings.f_plan := None |})) n l H).
  - unfold Listings.deleteServer.
    destruct (requireAdmin_cases (row := Listings.listing_json) s)
      as [ (_ & E) | [ (_ & _ & E) | (_ & _ & E) ] ]; rewrite E; try apply Hall.
    destruct (_ ≫= _) as [ [ k row ] | ]; [ | apply Hall ].
    cbn [fst Listings.rows]. intros H. apply lookup_delete_Some in H. apply (Hall n l). tauto.
  - unfold Listings.putServerPlan.
    destruct (requireAdmin_cases (row := Listings.listing_json) s)
      as [ (_ & E) | [ (_ & _ & E) | (_ & Hadmin & E) ] ]; rewrite E; try apply Hall.
    pose proof (one_of_two plan "free" "paid" ltac:(discriminate) ltac:(discriminate)) as Hvalid.
    destruct (JS.absent plan || negb (bool_decide (JS.orEmpty plan ∈ [ "free"; "paid" ])));
      [ apply Hall | ].
    destruct (_ ≫= _) as [ [ k row ] | ]; [ | apply Hall ].
    cbn [fst Listings.rows]. destruct (decide (n = k)) as [ -> | Hn ].
    + rewrite lookup_insert_eq. intros [= <-]. cbn [Listings.plan Listings.set_plan].
      destruct (proj1 Hvalid eq_refl) as [ -> | -> ]; simpl; auto.
    + rewrite lookup_insert_ne by congruence. apply Hall.
Qed.

Lemma run_plans users ops (P : string -> Prop) : forall t,
  P "free" ->
  (Exists (fun op => Auth.userRole (Listings.session_of op) = Some "admin") ops -> P "paid") ->
  (forall n l, Listings.rows t !! n = Some l -> P (Listings.plan l)) ->
  forall n l, Listings.rows (Listings.run users t ops) !! n = Some l -> P (Listings.plan l).
Proof.
  induction ops as [ | op ops IH ]; intros t Hfree Hpaid Hall; [ exact Hall | ].
  cbn [Listings.run fold_left]. apply IH; [ exact Hfree | | ].
  - intros H. apply Hpaid. apply Exists_cons_tl, H.
  - apply step_plans; [ exact Hfree | | exact Hall ].
    intros H. apply Hpaid. apply Exists_cons_hd, H.
Qed.

(** X19: after any sequence of requests to the listing routes on a table
    that started empty, every listing has plan [free] or [paid], and
    every listing has plan [free] unless one of the requests came with an
    administrator's session: a user cannot obtain a paid listing, whatever
    the body says. *)
Theorem paid_listings_need_admin
    (users : gmap Z Accounts.user_row) (ops : list Listings.operation) :
  let t := Listings.run users Listings.empty ops in
  (forall n l, Listings.rows t !! n = Some l ->
     Listings.plan l = "free" \/ Listings.plan l = "paid") /\
  (Forall (fun op => Auth.userRole (Listings.session_of op) <> Some "admin") ops ->
   forall n l, Listings.rows t !! n = Some l -> Listings.plan l = "free").
Proof.
  intros t. subst t. split.
  - apply (run_plans users ops (fun p => p = "free" \/ p = "paid")); [ tauto | tauto | ].
    intros n l H. discriminate.
  - intros Hnone. apply (run_plans users ops (fun p => p = "free")); [ reflexivity | | ].
    + intros Hex. apply Exists_exists in Hex. destruct Hex as (op & Hin & Hadmin).
      rewrite Forall_forall in Hnone. destruct (Hnone op Hin Hadmin).
    + intros n l H. discriminate.
Qed.

(** ** Listing ids *)

Lemma ids_below_seq_step users t op : ids_below_seq t -> ids_below_seq (Listings.step users t op).
Proof.
  intros Hok n l.
  destruct op as [ s now b | s id b | s id | s id | s id plan ]; cbn [Listings.step].
  - unfold Listings.postServer.
    destruct (requireAuth_cases (row := Listings.listing_json) s) as [ (_ & E) | (_ & E) ];
      rewrite E; [ apply Hok | ].
    destruct (JS.absent _ || JS.absent _); [ apply Hok | ].
    cbn [fst Listings.rows Listings.seq]. destruct (decide (n = Listings.seq t + 1)) as [ -> | Hn ].
    + intros _. lia.
    + rewrite lookup_insert_ne by congruence. intros H. specialize (Hok _ _ H). lia.
  - intros H. destruct (proj1 (user_listing_routes s t id b) n l H) as (l0 & Hl0 & _).
    rewrite (proj1 (proj2 (proj2 (user_listing_routes s t id b)))).
    apply (Hok _ _ Hl0).
  - intros H. pose proof (user_listing_routes s t id
             {| Listings.f_name := None; Listings.f_ip := None; Listings.f_description := None;
                Listings.f_website_url := None; Listings.f_banner_url := None;
                Listings.f_plan := None |}) as (_ & Hsub & _ & Hseq).
    rewrite Hseq. apply (Hok n l), Hsub, H.
  - unfold Listings.deleteServer.
    destruct (requireAdmin_cases (row := Listings.listing_json) s)
      as [ (_ & E) | [ (_ & _ & E) | (_ & _ & E) ] ]; rewrite E; try apply Hok.
    destruct (_ ≫= _) as [ [ k row ] | ]; [ | apply Hok ].
    cbn [fst Listings.rows Listings.seq]. intros H. apply lookup_delete_Some in H.
    apply (Hok n l). tauto.
  - unfold Listings.putServerPlan.
    destruct (requireAdmin_cases (row := Listings.listing_json) s)
      as [ (_ & E) | [ (_ & _ & E) | (_ & _ & E) ] ]; rewrite E; try apply Hok.
    destruct (JS.absent plan || negb _); [ apply Hok | ].
    destruct (_ ≫= _) as [ [ k row ] | ] eqn:Htarget; [ | apply Hok ].
    apply target_Some in Htarget. destruct Htarget as (_ & Hrow).
    cbn [fst Listings.rows Listings.seq]. destruct (decide (n = k)) as [ -> | Hn ].
    + intros _. apply (Hok _ _ Hrow).
    + rewrite lookup_insert_ne by congruence. apply Hok.
Qed.

Lemma ids_below_seq_run users ops : forall t,
  ids_below_seq t -> ids_below_seq (Listings.run users t ops).
Proof.
  induction ops as [ | op ops IH ]; intros t Hok; [ exact Hok | ].
  apply IH, ids_below_seq_step, Hok.
Qed.

(** X20: in every table the listing routes can reach from the empty one,
    a listing posted with a name and an ip by a session with a user is
    answered 201 and stored under a fresh id, one above the counter, with
    that user as owner, no votes, and every listing that was there
    untouched. Its owner then reads it back through the user route and
    any other user is answered 404; when its owner deletes it the rows
    are as before the post, but the counter is not: the id is not given
    out again. *)
Theorem listing_round_trip
    (users : gmap Z Accounts.user_row) (ops : list Listings.operation)
    (s : Auth.session) (now : Z) (b : Listings.fields) (id : string) :
  let t := Listings.run users Listings.empty ops in
  let r := Listings.postServer s users t now b in
  Auth.no_user s = false ->
  JS.absent (Listings.f_name b) = false -> JS.absent (Listings.f_ip b) = false ->
  JS.parseInt10 id = Some (Listings.seq t + 1) ->
  Auth.status (snd r) = 201 /\
  Listings.rows t !! (Listings.seq t + 1) = None /\
  (forall n l, Listings.rows t !! n = Some l -> Listings.rows (fst r) !! n = Some l) /\
  exists row,
    Listings.rows (fst r) !! (Listings.seq t + 1) = Some row /\
    Listings.owner_id row = Auth.userId s /\ Listings.votes row = 0 /\
    Listings.name row = JS.orEmpty (Listings.f_name b) /\
    Listings.ip row = JS.orEmpty (Listings.f_ip b) /\
    Listings.getUserServer s (fst r) id
      = {| Auth.status := 200; Auth.body := Auth.Row (Listings.Plain (Listings.seq t + 1) row) |} /\
    (forall s', Auth.no_user s' = false -> Auth.userId s' <> Auth.userId s ->
       Listings.getUserServer s' (fst r) id
         = {| Auth.status := 404;
              Auth.body := Auth.Error "Server not found or access denied" |}) /\
    fst (Listings.deleteUserServer s (fst r) id)
      = {| Listings.rows := Listings.rows t; Listings.seq := Listings.seq t + 1 |}.
Proof.
  intros t r Hno Hname Hip Hid.
  assert (Hok : ids_below_seq t)
    by (apply ids_below_seq_run; intros n l H; discriminate).
  assert (Hfresh : Listings.rows t !! (Listings.seq t + 1) = None).
  { destruct (Listings.rows t !! (Listings.seq t + 1)) as [ l | ] eqn:H; [ | reflexivity ].
    specialize (Hok _ _ H). lia. }
  assert (Huser : exists u, Auth.userId s = Some u).
  { unfold Auth.no_user in Hno. destruct (Auth.userId s) as [ u | ]; [ eexists; reflexivity | discriminate ]. }
  destruct Huser as (u & Hu).
  subst r. unfold Listings.postServer.
  destruct (requireAuth_cases (row := Listings.listing_json) s) as [ (Hno' & _) | (_ & E) ];
    [ congruence | ].
  rewrite E, Hname, Hip. cbn [orb fst snd Auth.status Listings.rows Listings.seq].
  split; [ reflexivity | ]. split; [ exact Hfresh | ]. split.
  { intros n l Hl. rewrite lookup_insert_ne; [ exact Hl | ]. intros <-. congruence. }
  eexists. split; [ apply lookup_insert_eq | ].
  cbn [Listings.owner_id Listings.votes Listings.name Listings.ip].
  split; [ reflexivity | ]. split; [ reflexivity | ]. split; [ reflexivity | ].
  split; [ reflexivity | ]. split; [ | split ].
  - unfold Listings.getUserServer. rewrite E, Hid.
    unfold Listings.own_server. rewrite Hu. cbn [Listings.rows]. rewrite lookup_insert_eq.
    cbn [Listings.owner_id]. rewrite bool_decide_eq_true_2 by reflexivity. reflexivity.
  - intros s' Hno' Hother. unfold Listings.getUserServer.
    destruct (requireAuth_cases (row := Listings.listing_json) s') as [ (Hno'' & _) | (_ & E') ];
      [ congruence | ].
    rewrite E', Hid. unfold Listings.own_server.
    destruct (Auth.userId s') as [ u' | ]; [ | reflexivity ].
    cbn [Listings.rows]. rewrite lookup_insert_eq. cbn [Listings.owner_id].
    rewrite bool_decide_eq_false_2; [ reflexivity | ]. congruence.
  - unfold Listings.deleteUserServer. rewrite E, Hid.
    unfold Listings.own_server. rewrite Hu. cbn [Listings.rows]. rewrite lookup_insert_eq.
    cbn [Listings.owner_id]. rewrite bool_decide_eq_true_2 by reflexivity.
    cbn [fst Listings.rows Listings.seq]. f_equal.
    rewrite delete_insert_eq. apply delete_id, Hfresh.
Qed.

(** X20 on the sample accounts: user 2 posts the first listing, asking
    for the paid plan. *)
Lemma listing_round_trip_witness :
  Auth.no_user user_session = false /\
  JS.parseInt10 "1" = Some 1 /\
  Auth.status (snd (Listings.postServer user_session three_users Listings.empty t0 survival)) = 201 /\
  Listings.getUserServer other_session
      (fst (Listings.postServer user_session three_users Listings.empty t0 survival)) "1"
    = {| Auth.status := 404; Auth.body := Auth.Error "Server not found or access denied" |} /\
  fst (Listings.deleteUserServer user_session
         (fst (Listings.postServer user_session three_users Listings.empty t0 survival)) "1")
    = {| Listings.rows := ∅; Listings.seq := 1 |}.
Proof.
  assert (Hno : Auth.no_user user_session = false) by reflexivity.
  assert (Hid : JS.parseInt10 "1" = Some 1) by reflexivity.
  destruct (listing_round_trip three_users [] user_session t0 survival "1" Hno eq_refl eq_refl Hid)
    as (Hstatus & _ & _ & row & _ & _ & _ & _ & _ & _ & Hother & Hdelete).
  split; [ exact Hno | ]. split; [ exact Hid | ]. split; [ exact Hstatus | ].
  split; [ apply Hother; [ reflexivity | discriminate ] | exact Hdelete ].
Defined.

(** ** Banner file names *)

Lemma span_spec p s :
  fst (Uploads.span p s) +:+ snd (Uploads.span p s) = s /\
  Uploads.all_chars p (fst (Uploads.span p s)) = true /\
  (forall c rest, snd (Uploads.span p s) = String c rest -> p c = false).
Proof.
  induction s as [ | c s IH ]; simpl.
  - repeat split. discriminate.
  - destruct (p c) eqn:Hc.
    + destruct (Uploads.span p s) as [ a b ]. simpl in *.
      destruct IH as (Happ & Hall & Hstop). rewrite ClockFacts.append_cons, Happ, Hc, Hall.
      repeat split. exact Hstop.
    + simpl. repeat split. intros c' rest [= <- _]. exact Hc.
Qed.

Lemma span_stop p a c rest :
  Uploads.all_chars p a = true -> p c = false ->
  Uploads.span p (a +:+ String c rest) = (a, String c rest).
Proof.
  intros Hall Hc. induction a as [ | x a IH ].
  - rewrite ClockFacts.append_nil. simpl. rewrite Hc. reflexivity.
  - rewrite ClockFacts.append_cons. simpl in *. apply andb_true_iff in Hall.
    destruct Hall as (Hx & Ha). rewrite Hx, (IH Ha). reflexivity.
Qed.

Lemma strip_prefix_Some p : forall s r, Uploads.strip_prefix p s = Some r <-> s = p +:+ r.
Proof.
  induction p as [ | a p IH ]; intros s r.
  - rewrite ClockFacts.append_nil. simpl. split; congruence.
  - rewrite ClockFacts.append_cons. destruct s as [ | b s ]; simpl.
    + split; discriminate.
    + destruct (Ascii.eqb_spec a b) as [ -> | Hab ].
      * rewrite IH. split; congruence.
      * split; [ discriminate | congruence ].
Qed.

Lemma all_chars_app p a b :
  Uploads.all_chars p (a +:+ b) = Uploads.all_chars p a && Uploads.all_chars p b.
Proof.
  induction a as [ | c a IH ].
  - rewrite ClockFacts.append_nil. reflexivity.
  - rewrite ClockFacts.append_cons. simpl. rewrite IH. apply andb_assoc.
Qed.

Lemma all_chars_weaken (p q : ascii -> bool) s :
  (forall c, p c = true -> q c = true) ->
  Uploads.all_chars p s = true -> Uploads.all_chars q s = true.
Proof.
  intros Hpq. induction s as [ | c s IH ]; [ reflexivity | ].
  simpl. rewrite !andb_true_iff. intros (Hc & Hs). split; [ apply Hpq, Hc | apply IH, Hs ].
Qed.

(** The strings the pattern of the delete route matches. *)
Lemma banner_pattern_spec filename :
  Uploads.banner_pattern filename = true <->
  exists timestamp random ext,
    filename = "banner-" +:+ timestamp +:+ "-" +:+ random +:+ "." +:+ ext /\
    timestamp <> "" /\ Uploads.all_chars Uploads.is_digit timestamp = true /\
    random <> "" /\ Uploads.all_chars Uploads.is_lower_or_digit random = true /\
    ext <> "" /\ Uploads.all_chars Uploads.is_letter ext = true.
Proof.
  unfold Uploads.banner_pattern. split.
  - destruct (Uploads.strip_prefix "banner-" filename) as [ rest | ] eqn:Hstrip; [ | discriminate ].
    apply strip_prefix_Some in Hstrip.
    pose proof (span_spec Uploads.is_digit rest) as (Happ1 & Hall1 & _).
    destruct (Uploads.span Uploads.is_digit rest) as [ timestamp rest1 ]. simpl in *.
    destruct timestamp as [ | t0 ts ]; [ discriminate | ].
    destruct rest1 as [ | c1 rest1 ]; [ discriminate | ].
    destruct (Ascii.eqb_spec c1 "-") as [ -> | Hc1 ].
    2: { destruct c1 as [ [ | ] [ | ] [ | ] [ | ] [ | ] [ | ] [ | ] [ | ] ];
           try discriminate; exfalso; apply Hc1; reflexivity. }
    pose proof (span_spec Uploads.is_lower_or_digit rest1) as (Happ2 & Hall2 & _).
    destruct (Uploads.span Uploads.is_lower_or_digit rest1) as [ random rest2 ]. simpl in *.
    destruct random as [ | r0 rs ]; [ destruct rest2; discriminate | ].
    destruct rest2 as [ | c2 ext ]; [ discriminate | ].
    destruct (Ascii.eqb_spec c2 ".") as [ -> | Hc2 ].
    2: { destruct c2 as [ [ | ] [ | ] [ | ] [ | ] [ | ] [ | ] [ | ] [ | ] ];
           try discriminate; exfalso; apply Hc2; reflexivity. }
    intros H. apply andb_true_iff in H. destruct H as (Hext & Hall3).
    apply negb_true_iff, String.eqb_neq in Hext.
    exists (String t0 ts), (String r0 rs), ext.
    split; [ | repeat split; try assumption; discriminate ].
    rewrite Hstrip, <- Happ1, <- Happ2. reflexivity.
  - intros (timestamp & random & ext & -> & Hts & Hall1 & Hrs & Hall2 & Hext & Hall3).
    assert (Hstrip : Uploads.strip_prefix "banner-"
                       ("banner-" +:+ timestamp +:+ "-" +:+ random +:+ "." +:+ ext)
                     = Some (timestamp +:+ "-" +:+ random +:+ "." +:+ ext))
      by (apply strip_prefix_Some; reflexivity).
    rewrite Hstrip.
    change ("-" +:+ random +:+ "." +:+ ext) with (String "-" (random +:+ "." +:+ ext)).
    rewrite (span_stop Uploads.is_digit timestamp "-" _ Hall1 eq_refl).
    destruct timestamp as [ | t0 ts ]; [ congruence | ].
    change ("." +:+ ext) with (String "." ext).
    rewrite (span_stop Uploads.is_lower_or_digit random "." _ Hall2 eq_refl).
    destruct random as [ | r0 rs ]; [ congruence | ].
    rewrite Hall3. apply String.eqb_neq in Hext. rewrite Hext. reflexivity.
Qed.

Lemma prefix_banner rest : String.prefix "banner-" ("banner-" +:+ rest) = true.
Proof. rewrite !ClockFacts.append_cons, ClockFacts.append_nil. destruct rest; reflexivity. Qed.

Lemma valid_filename_pattern filename :
  Uploads.valid_filename filename = Uploads.banner_pattern filename.
Proof.
  unfold Uploads.valid_filename.
  destruct (Uploads.banner_pattern filename) eqn:Hp; [ | apply andb_false_r ].
  apply banner_pattern_spec in Hp. destruct Hp as (ts & rs & ext & -> & _).
  rewrite prefix_banner. reflexivity.
Qed.

(** X21: the delete route removes at most the file it is asked for, and
    only for a session with a user, when the file is in the uploads
    directory and its name matches the pattern: [banner-], digits, a
    dash, lower-case letters and digits, a dot, letters. Such a name has
    no character other than letters, digits, dash and dot - no path
    separator - and exactly the one dot. Every other request leaves the
    directory as it is. *)
Theorem deleteBanner_removes_plain_names_only
    (s : Auth.session) (dir : gset string) (filename : string) :
  let r := Uploads.deleteBanner s dir filename in
  (Auth.status (snd r) = 200 <->
     Auth.no_user s = false /\ Uploads.valid_filename filename = true /\ filename ∈ dir) /\
  (Auth.status (snd r) = 200 -> fst r = dir ∖ {[ filename ]}) /\
  (Auth.status (snd r) <> 200 -> fst r = dir) /\
  (Uploads.valid_filename filename = true ->
     Uploads.all_chars
       (fun c => Uploads.is_letter c || Uploads.is_digit c || Ascii.eqb c "-" || Ascii.eqb c ".")
       filename = true /\
     exists stem ext, filename = stem +:+ "." +:+ ext /\
       Uploads.all_chars (fun c => negb (Ascii.eqb c ".")) stem = true /\
       Uploads.all_chars Uploads.is_letter ext = true /\ ext <> "").
Proof.
  intros r. subst r.
  assert (Hcases :
    (Auth.no_user s = true /\
     Uploads.deleteBanner s dir filename
       = (dir, {| Auth.status := 401; Auth.body := Auth.Error "Authentication required" |})) \/
    (Auth.no_user s = false /\ Uploads.valid_filename filename = false /\
     Uploads.deleteBanner s dir filename
       = (dir, {| Auth.status := 400; Auth.body := Auth.Error "Invalid filename format" |})) \/
    (Auth.no_user s = false /\ Uploads.valid_filename filename = true /\ (filename ∉ dir) /\
     Uploads.deleteBanner s dir filename
       = (dir, {| Auth.status := 404; Auth.body := Auth.Error "File not found" |})) \/
    (Auth.no_user s = false /\ Uploads.valid_filename filename = true /\ (filename ∈ dir) /\
     Uploads.deleteBanner s dir filename
       = (dir ∖ {[ filename ]},
          {| Auth.status := 200; Auth.body := Auth.Message "File deleted successfully" |}))).
  { unfold Uploads.deleteBanner.
    replace (negb (String.prefix "banner-" filename) || negb (Uploads.banner_pattern filename))
      with (negb (Uploads.valid_filename filename))
      by (unfold Uploads.valid_filename; apply negb_andb).
    destruct (requireAuth_cases (row := unit) s) as [ (Hno & E) | (Hno & E) ]; rewrite E;
      [ left; split; [ exact Hno | reflexivity ] | right ].
    destruct (Uploads.valid_filename filename); cbn [negb];
      [ right | left; repeat split; assumption ].
    destruct (decide (filename ∈ dir)) as [ Hin | Hin ].
    - right. rewrite bool_decide_eq_true_2 by exact Hin. repeat split; assumption.
    - left. rewrite bool_decide_eq_false_2 by exact Hin. repeat split; assumption. }
  split; [ | split; [ | split ] ].
  - destruct Hcases as [ (Hno & E) | [ (Hno & Hv & E) | [ (Hno & Hv & Hin & E) | (Hno & Hv & Hin & E) ] ] ];
      rewrite E; cbn [snd Auth.status]; split; try discriminate; try tauto;
      intros (H1 & H2 & H3); congruence.
  - destruct Hcases as [ (Hno & E) | [ (Hno & Hv & E) | [ (Hno & Hv & Hin & E) | (Hno & Hv & Hin & E) ] ] ];
      rewrite E; cbn [fst snd Auth.status]; try discriminate. reflexivity.
  - destruct Hcases as [ (Hno & E) | [ (Hno & Hv & E) | [ (Hno & Hv & Hin & E) | (Hno & Hv & Hin & E) ] ] ];
      rewrite E; cbn [fst snd Auth.status]; try reflexivity. intros H. destruct (H eq_refl).
  - rewrite valid_filename_pattern. intros Hp. apply banner_pattern_spec in Hp.
    destruct Hp as (ts & rs & ext & -> & Hts & Hall1 & Hrs & Hall2 & Hext & Hall3).
    set (plain := fun c => Uploads.is_letter c || Uploads.is_digit c || Ascii.eqb c "-" || Ascii.eqb c ".").
    assert (Hdigit : forall c, Uploads.is_digit c = true -> plain c = true)
      by (intros c H; unfold plain; rewrite H; apply orb_true_iff; left; apply orb_true_iff; left; apply orb_true_r).
    assert (Hletter : forall c, Uploads.is_letter c = true -> plain c = true)
      by (intros c H; unfold plain; rewrite H; reflexivity).
    assert (Hlod : forall c, Uploads.is_lower_or_digit c = true -> plain c = true).
    { intros c H. unfold Uploads.is_lower_or_digit in H. apply orb_true_iff in H.
      destruct H as [ H | H ]; [ apply Hletter; unfold Uploads.is_letter; rewrite H; reflexivity
                               | apply Hdigit, H ]. }
    assert (Hnodot_digit : forall c, Uploads.is_digit c = true -> negb (Ascii.eqb c ".") = true).
    { intros c H. destruct (Ascii.eqb_spec c ".") as [ -> | ]; [ discriminate | reflexivity ]. }
    assert (Hnodot_lod : forall c, Uploads.is_lower_or_digit c = true -> negb (Ascii.eqb c ".") = true).
    { intros c H. destruct (Ascii.eqb_spec c ".") as [ -> | ]; [ discriminate | reflexivity ]. }
    split.
    + rewrite !all_chars_app.
      rewrite (all_chars_weaken _ plain ts Hdigit Hall1),
              (all_chars_weaken _ plain rs Hlod Hall2),
              (all_chars_weaken _ plain ext Hletter Hall3). reflexivity.
    + exists ("banner-" +:+ ts +:+ "-" +:+ rs), ext.
      split; [ rewrite !ClockFacts.append_assoc; reflexivity | ].
      split; [ | split; assumption ].
      rewrite !all_chars_app.
      rewrite (all_chars_weaken _ _ ts Hnodot_digit Hall1),
              (all_chars_weaken _ _ rs Hnodot_lod Hall2). reflexivity.
Qed.

(** ** Decimal texts *)

Lemma pretty_N_char_digit x : Uploads.is_digit (pretty_N_char x) = true.
Proof. unfold pretty_N_char. repeat case_match; reflexivity. Qed.

Lemma pretty_N_go_digits x : forall s,
  Uploads.all_chars Uploads.is_digit s = true ->
  Uploads.all_chars Uploads.is_digit (pretty_N_go x s) = true /\
  (s <> "" -> pretty_N_go x s <> "").
Proof.
  induction (N.lt_wf_0 x) as [ x _ IH ]; intros s Hs.
  destruct (decide (x = 0)%N) as [ -> | Hx ].
  - rewrite pretty_N_go_0. split; [ exact Hs | tauto ].
  - rewrite pretty_N_go_step by lia.
    destruct (IH (x `div` 10)%N ltac:(apply N.div_lt; lia)
                 (String (pretty_N_char (x `mod` 10)) s)) as (Hall & Hne).
    { simpl. rewrite pretty_N_char_digit, Hs. reflexivity. }
    split; [ exact Hall | ]. intros _. apply Hne. discriminate.
Qed.

(** The decimal text of a number that is not negative: digits, at least
    one. *)
Lemma numToString_digits n :
  0 <= n ->
  Uploads.all_chars Uploads.is_digit (JS.numToString n) = true /\ JS.numToString n <> "".
Proof.
  intros Hn. unfold JS.numToString, pretty, pretty_Z.
  destruct n as [ | p | p ]; [ split; [ reflexivity | discriminate ] | | lia ].
  unfold pretty, pretty_positive, pretty, pretty_N.
  destruct (decide (N.pos p = 0%N)) as [ H | _ ]; [ discriminate | ].
  assert (Hstep : pretty_N_go (N.pos p) ""
                  = pretty_N_go (N.pos p `div` 10) (String (pretty_N_char (N.pos p `mod` 10)) ""))
    by (apply pretty_N_go_step; lia).
  rewrite Hstep.
  destruct (pretty_N_go_digits (N.pos p `div` 10) (String (pretty_N_char (N.pos p `mod` 10)) ""))
    as (Hall & Hne).
  { simpl. rewrite pretty_N_char_digit. reflexivity. }
  split; [ exact Hall | apply Hne; discriminate ].
Qed.

Section Names.

Variable extname : string -> string.

(** X22: the name the upload gives to a file its filter accepted can be
    handed to the delete route as long as the random part is not empty:
    with a clock that is not negative and a random part of one or more
    lower-case letters and digits, the name passes the check of the
    delete route, which then removes that file and no other. With an
    empty random part, the name does not pass the check. *)
Theorem uploaded_names_can_be_deleted
    (timestamp : Z) (randomString : string) (f : Uploads.file)
    (s : Auth.session) (dir : gset string) :
  Uploads.fileFilter extname f = true ->
  0 <= timestamp ->
  Uploads.all_chars Uploads.is_lower_or_digit randomString = true ->
  let name := Uploads.filename extname timestamp randomString f in
  (randomString <> "" -> Uploads.valid_filename name = true) /\
  (randomString = "" -> Uploads.valid_filename name = false) /\
  (randomString <> "" -> Auth.no_user s = false ->
     Uploads.deleteBanner s ({[ name ]} ∪ dir) name
       = (({[ name ]} ∪ dir) ∖ {[ name ]},
          {| Auth.status := 200; Auth.body := Auth.Message "File deleted successfully" |})).
Proof.
  intros Hfilter Hts Hrandom name. subst name. unfold Uploads.filename; cbv zeta.
  unfold Uploads.fileFilter in Hfilter; cbv zeta in Hfilter.
  apply andb_true_iff in Hfilter. destruct Hfilter as (_ & Hext).
  apply bool_decide_eq_true in Hext.
  destruct (numToString_digits timestamp Hts) as (Hdigits & Hnonempty).
  generalize dependent (JS.toLowerCase (extname (Uploads.originalname f))). intros ext Hext.
  assert (Hshape : exists e, ext = "." +:+ e /\ e <> "" /\ Uploads.all_chars Uploads.is_letter e = true).
  { unfold Uploads.allowedExtensions in Hext.
    rewrite !elem_of_cons, elem_of_nil in Hext.
    destruct Hext as [ -> | [ -> | [ -> | [ -> | [ -> | [] ] ] ] ] ];
      eexists; (split; [ reflexivity | split; [ discriminate | reflexivity ] ]). }
  destruct Hshape as (e & -> & He & Hletters).
  assert (Hvalid : randomString <> "" ->
            Uploads.valid_filename
              ("banner-" +:+ JS.numToString timestamp +:+ "-" +:+ randomString +:+ "." +:+ e) = true).
  { intros Hne. rewrite valid_filename_pattern. apply banner_pattern_spec.
    exists (JS.numToString timestamp), randomString, e. repeat split; assumption. }
  split; [ exact Hvalid | ]. split.
  - intros ->. rewrite valid_filename_pattern.
    destruct (Uploads.banner_pattern _) eqn:Hp; [ | reflexivity ].
    apply banner_pattern_spec in Hp.
    destruct Hp as (ts & rs & ext & Heq & Hts' & Hall1 & Hrs & Hall2 & _).
    exfalso. apply append_inv_head in Heq.
    (* both sides start with digits followed by a dash *)
    assert (Hspan : Uploads.span Uploads.is_digit (JS.numToString timestamp +:+ "-" +:+ "" +:+ "." +:+ e)
                    = Uploads.span Uploads.is_digit (ts +:+ "-" +:+ rs +:+ "." +:+ ext))
      by (rewrite Heq; reflexivity).
    change ("-" +:+ "" +:+ "." +:+ e) with (String "-" ("" +:+ "." +:+ e)) in Hspan.
    change ("-" +:+ rs +:+ "." +:+ ext) with (String "-" (rs +:+ "." +:+ ext)) in Hspan.
    rewrite (span_stop Uploads.is_digit _ "-" _ Hdigits eq_refl) in Hspan.
    rewrite (span_stop Uploads.is_digit _ "-" _ Hall1 eq_refl) in Hspan.
    injection Hspan as _ Hrest. rewrite ClockFacts.append_nil in Hrest.
    destruct rs as [ | r0 rs ]; [ congruence | ].
    rewrite ClockFacts.append_cons in Hrest. change ("." +:+ e) with (String "." e) in Hrest.
    injection Hrest as Hr0 _. subst r0. simpl in Hall2. discriminate.
  - intros Hne Hno. specialize (Hvalid Hne).
    unfold Uploads.deleteBanner.
    destruct (requireAuth_cases (row := unit) s) as [ (Hno' & _) | (_ & E) ]; [ congruence | ].
    rewrite E. unfold Uploads.valid_filename in Hvalid. apply andb_true_iff in Hvalid.
    destruct Hvalid as (Hp1 & Hp2). rewrite Hp1, Hp2. cbn [negb orb].
    rewrite bool_decide_eq_true_2 by (apply elem_of_union_l, elem_of_singleton_2; reflexivity).
    reflexivity.
Qed.

End Names.

(** X22 on a sample file, with text from the last dot as its extension. *)
Lemma uploaded_names_witness :
  Uploads.fileFilter from_last_dot castle_png = true /\
  Uploads.filename from_last_dot t0 "k3x9q2" castle_png = "banner-1714557600000-k3x9q2.png" /\
  Uploads.valid_filename (Uploads.filename from_last_dot t0 "k3x9q2" castle_png) = true /\
  Uploads.valid_filename (Uploads.filename from_last_dot t0 "" castle_png) = false.
Proof.
  assert (Hfilter : Uploads.fileFilter from_last_dot castle_png = true) by (vm_compute; reflexivity).
  assert (Hts : 0 <= t0) by (unfold t0; lia).
  split; [ exact Hfilter | ]. split; [ vm_compute; reflexivity | ]. split.
  - apply (proj1 (uploaded_names_can_be_deleted from_last_dot t0 "k3x9q2" castle_png
                    no_session ∅ Hfilter Hts eq_refl)). discriminate.
  - apply (proj1 (proj2 (uploaded_names_can_be_deleted from_last_dot t0 "" castle_png
                           no_session ∅ Hfilter Hts eq_refl))). reflexivity.
Defined.

(** ** Email addresses *)

Lemma email_taken_spec users n e :
  Accounts.email_taken users n e = true <->
  exists m v, m <> n /\ users !! m = Some v /\ Accounts.email v = e.
Proof.
  unfold Accounts.email_taken. rewrite negb_true_iff, bool_decide_eq_false. split.
  - intros Hnot. apply map_not_Forall in Hnot; [ | intros; apply _ ].
    destruct Hnot as (m & v & Hv & Hbad).
    exists m, v. split; [ tauto | ]. split; [ exact Hv | ].
    destruct (decide (Accounts.email v = e)); tauto.
  - intros (m & v & Hm & Hv & He) Hall. destruct (Hall m v Hv); congruence.
Qed.

(** ** A blocked address and the vote route *)

Section Blocked.

Variable UAParser : string -> option string * option string.

Lemma voteRoute_blacklist d now req id :
  ip_blacklist (fst (voteRoute UAParser d now req id)) = ip_blacklist d.
Proof.
  unfold voteRoute.
  pose proof (middleware_frame UAParser d now req) as (_ & _ & Hbl & _).
  destruct (botDetectionMiddleware UAParser d now req) as [ d' [ r | s b ] ];
    cbn [fst] in *; [ exact Hbl | ].
  rewrite <- Hbl. apply postVote_frame.
Qed.

Lemma step_blacklist d op addr :
  ~ blacklists addr op -> ip_blacklist (step UAParser d op) !! addr = ip_blacklist d !! addr.
Proof.
  intros Hop. destruct op as [ now req | now uuid r req | now req b
                             | now userId req ip reason duration | now req id ]; cbn [step].
  - f_equal. apply middleware_frame.
  - f_equal. apply getCaptcha_frame.
  - f_equal. apply postCaptchaVerify_frame.
  - unfold postBlacklist. destruct (JS.absent ip || JS.absent reason) eqn:Habsent;
      [ reflexivity | ].
    cbn [fst ip_blacklist logSecurityEvent set_security_events set_ip_blacklist].
    apply lookup_insert_ne. intros Heq. apply Hop. simpl.
    destruct ip as [ x | ]; [ simpl in Heq; congruence | ].
    discriminate.
  - f_equal. apply voteRoute_blacklist.
Qed.

Lemma run_blacklist ops : forall d addr,
  Forall (fun op => ~ blacklists addr op) ops ->
  ip_blacklist (run UAParser d ops) !! addr = ip_blacklist d !! addr.
Proof.
  induction ops as [ | op ops IH ]; intros d addr Hops; [ reflexivity | ].
  apply Forall_cons in Hops. destruct Hops as (Hop & Hops).
  cbn [run fold_left]. fold (run UAParser (step UAParser d op) ops).
  rewrite (IH _ _ Hops). apply step_blacklist, Hop.
Qed.

(** X24: once an address is blacklisted without a duration, it stays
    blacklisted through every later request of the modelled routes other
    than a new call of the blacklist route for that address; a vote from
    it is then answered 403 IP_BLACKLISTED and records nothing, whatever
    its headers. *)
Theorem blocked_address_cannot_vote
    (d : db) (now userId : Z) (req : request) (addr why : string)
    (ops : list operation) (later : Z) (voter : request) (id : string) :
  addr <> "" -> why <> "" -> ip voter = addr ->
  Forall (fun op => ~ blacklists addr op) ops ->
  let d1 := fst (postBlacklist d now userId req (Some addr) (Some why) None) in
  let d2 := run UAParser d1 ops in
  let r := voteRoute UAParser d2 later voter id in
  isBlacklisted d2 later addr = true /\
  snd r = {| status := 403; body := JRejection "Access denied" "IP_BLACKLISTED" None |} /\
  votes_table (fst r) = votes_table d2 /\ servers (fst r) = servers d2 /\
  bot_scores (fst r) = bot_scores d2.
Proof.
  intros Haddr Hwhy Hip Hops d1 d2 r.
  assert (Hblocked : isBlacklisted d2 later addr = true).
  { unfold isBlacklisted. subst d2. rewrite (run_blacklist ops d1 addr Hops). subst d1.
    rewrite postBlacklist_stored by assumption. simpl. rewrite lookup_insert_eq. reflexivity. }
  split; [ exact Hblocked | ]. subst r. unfold voteRoute.
  rewrite <- Hip in Hblocked.
  destruct (middleware_cases UAParser d2 later voter)
    as [ (_ & E) | [ (Hb & _) | [ (Hb & _) | (Hb & _) ] ] ]; try congruence.
  rewrite E. cbn [fst snd]. repeat split.
Qed.

End Blocked.

(** X24 on the samples: a block, a captcha request, then a vote by a
    browser from the blocked address. *)
Lemma blocked_address_witness :
  ip banned_vote = banned_ip /\
  calculateBotScore banned_vote = 0 /\
  snd (voteRoute no_names
         (run no_names
            (fst (postBlacklist empty_db t0 1 admin_post (Some banned_ip) (Some "spam") None))
            [ GetCaptcha (t0 + minutes 1) uuid1 draws_5_minus_5 vote_from_a ])
         (t0 + minutes 100000) banned_vote "3")
    = {| status := 403; body := JRejection "Access denied" "IP_BLACKLISTED" None |}.
Proof.
  assert (Haddr : banned_ip <> "") by discriminate.
  assert (Hwhy : "spam" <> "") by discriminate.
  assert (Hops : Forall (fun op => ~ blacklists banned_ip op)
                   [ GetCaptcha (t0 + minutes 1) uuid1 draws_5_minus_5 vote_from_a ]).
  { constructor; [ intros H; exact H | constructor ]. }
  split; [ reflexivity | ]. split; [ vm_compute; reflexivity | ].
  exact (proj1 (proj2 (blocked_address_cannot_vote no_names empty_db t0 1 admin_post
                         banned_ip "spam" _ (t0 + minutes 100000) banned_vote "3"
                         Haddr Hwhy eq_refl Hops))).
Defined.

(** ** Registration *)


(** * Requests in flight, reachable stores and constraint errors *)

(** ** Verifications in flight *)

(** A call served alone is its SELECT followed by its UPDATE. *)
Lemma verifyCaptcha_served_alone d now id sol :
  verifyCaptcha d now id sol
  = (verifyCaptcha_update d (snd (verifyCaptcha_select d now id sol)),
     fst (verifyCaptcha_select d now id sol)).
Proof.
  unfold verifyCaptcha, verifyCaptcha_select.
  destruct (live_challenge d now id) as [ ch | ]; [ | reflexivity ].
  cbv zeta. destruct (String.eqb (solution ch) (solution_toString sol)); reflexivity.
Qed.

(** C3: the check for an unsolved challenge and the mark that it is
    solved are two statements, and the call answers before the second is
    served. Two calls for the sample challenge with its right answer,
    whose SELECTs are both served before the UPDATE of either, are both
    answered true; served one after the other, the second is answered
    false. *)
Theorem C3_two_verifications_in_flight :
  live_challenge db_challenge_for_a (t0 + minutes 1) uuid1 = Some challenge_row_a /\
  solution challenge_row_a = solution_toString (SNum 9) /\
  snd (in_flight db_challenge_for_a [] two_in_flight) = [ true; true ] /\
  solved <$> captcha_challenges (fst (in_flight db_challenge_for_a [] two_in_flight)) !! uuid1
    = Some true /\
  snd (in_flight db_challenge_for_a [] one_after_the_other) = [ true; false ].
Proof.
  split; [ vm_compute; reflexivity | ].
  split; [ vm_compute; reflexivity | ].
  split; [ vm_compute; reflexivity | ].
  split; vm_compute; reflexivity.
Qed.

(** ** A challenge through the requests that follow its creation *)

Lemma same_challenge_refl ch : same_challenge ch ch.
Proof. repeat split. tauto. Qed.

Lemma same_challenge_trans a b c : same_challenge a b -> same_challenge b c -> same_challenge a c.
Proof.
  intros (H1 & H2 & H3 & H4 & H5 & H6) (K1 & K2 & K3 & K4 & K5 & K6).
  repeat split; try congruence. tauto.
Qed.

Lemma set_solved_keeps d n id ch :
  captcha_challenges d !! id = Some ch ->
  exists ch', captcha_challenges (set_solved d n) !! id = Some ch' /\ same_challenge ch ch'.
Proof.
  intros Hch. unfold set_solved. cbn [captcha_challenges set_captcha].
  rewrite lookup_fmap, Hch. simpl. eexists. split; [ reflexivity | ].
  destruct (row_id ch =? n); [ | apply same_challenge_refl ].
  unfold same_challenge. simpl. tauto.
Qed.

Lemma verifyCaptcha_keeps d now cid sol id ch :
  captcha_challenges d !! id = Some ch ->
  exists ch', captcha_challenges (fst (verifyCaptcha d now cid sol)) !! id = Some ch' /\
    same_challenge ch ch'.
Proof.
  intros Hch. unfold verifyCaptcha.
  destruct (live_challenge d now cid) as [ c | ];
    [ | exists ch; split; [ exact Hch | apply same_challenge_refl ] ].
  destruct (String.eqb (solution c) (solution_toString sol));
    [ | exists ch; split; [ exact Hch | apply same_challenge_refl ] ].
  apply set_solved_keeps, Hch.
Qed.

Lemma getCaptcha_keeps d now uuid r req id ch :
  captcha_challenges d !! id = Some ch ->
  captcha_challenges (fst (getCaptcha d now uuid r req)) !! id = Some ch.
Proof.
  intros Hch. unfold getCaptcha.
  destruct (createCaptchaChallenge d now uuid r (ip req)) as [ [ d' [ c q ] ] | ] eqn:E;
    [ | exact Hch ].
  cbn [fst]. eapply solved_after_create; [ exact E | exact Hch ].
Qed.

Section Kept.

Variable UAParser : string -> option string * option string.

Lemma step_keeps d op id ch :
  captcha_challenges d !! id = Some ch ->
  exists ch', captcha_challenges (step UAParser d op) !! id = Some ch' /\ same_challenge ch ch'.
Proof.
  intros Hch.
  assert (Hsame : forall d', captcha_challenges d' = captcha_challenges d ->
            exists ch', captcha_challenges d' !! id = Some ch' /\ same_challenge ch ch').
  { intros d' E. exists ch. rewrite E. split; [ exact Hch | apply same_challenge_refl ]. }
  destruct op as [ now req | now uuid r req | now req b
                 | now userId req ip reason duration | now req cid ]; cbn [step].
  - apply Hsame, middleware_frame.
  - exists ch. split; [ apply getCaptcha_keeps, Hch | apply same_challenge_refl ].
  - destruct (postCaptchaVerify_cases d now req b)
      as [ (cid & sol & _ & _ & _ & _ & _ & E) | (_ & E) ]; rewrite E; [ | apply Hsame; reflexivity ].
    cbn [fst]. rewrite amnesty_captcha. apply verifyCaptcha_keeps, Hch.
  - apply Hsame, postBlacklist_frame.
  - apply Hsame. unfold voteRoute.
    pose proof (middleware_frame UAParser d now req) as (_ & _ & _ & Hc & _).
    destruct (botDetectionMiddleware UAParser d now req) as [ d' [ r | s b ] ];
      cbn [fst] in *; [ exact Hc | ].
    rewrite <- Hc. apply postVote_frame.
Qed.

Lemma run_keeps ops : forall d id ch,
  captcha_challenges d !! id = Some ch ->
  exists ch', captcha_challenges (run UAParser d ops) !! id = Some ch' /\ same_challenge ch ch'.
Proof.
  induction ops as [ | op ops IH ]; intros d id ch Hch.
  - exists ch. split; [ exact Hch | apply same_challenge_refl ].
  - destruct (step_keeps d op id ch Hch) as (ch1 & Hch1 & Hsame1).
    destruct (IH _ _ _ Hch1) as (ch2 & Hch2 & Hsame2).
    exists ch2. split; [ exact Hch2 | ]. eapply same_challenge_trans; eassumption.
Qed.

(** A request that does not name a challenge leaves its row as it is. *)
Lemma step_untouched d op id ch :
  challenge_ids_ok d -> captcha_challenges d !! id = Some ch -> ~ verifies id op ->
  captcha_challenges (step UAParser d op) !! id = Some ch.
Proof.
  intros Hok Hch Hop.
  destruct op as [ now req | now uuid r req | now req b
                 | now userId req ip reason duration | now req cid ]; cbn [step].
  - rewrite (proj1 (proj2 (proj2 (proj2 (middleware_frame UAParser d now req))))). exact Hch.
  - apply getCaptcha_keeps, Hch.
  - destruct (postCaptchaVerify_cases d now req b)
      as [ (cid & sol & Hcid & _ & _ & _ & Htrue & E) | (_ & E) ]; rewrite E; [ | exact Hch ].
    cbn [fst]. rewrite amnesty_captcha.
    destruct (verifyCaptcha_true d now cid sol Htrue) as (c & Hlive & Hsol).
    rewrite (verifyCaptcha_correct d now cid sol c Hlive Hsol). cbn [fst].
    apply live_challenge_Some in Hlive. destruct Hlive as (Hc & _).
    rewrite (set_solved_one d cid c Hok Hc).
    rewrite lookup_insert_ne; [ exact Hch | ].
    intros ->. apply Hop. exact Hcid.
  - rewrite (proj1 (proj2 (proj2 (proj2 (postBlacklist_frame d now userId req ip reason duration))))).
    exact Hch.
  - unfold voteRoute.
    pose proof (middleware_frame UAParser d now req) as (_ & _ & _ & Hc & _).
    destruct (botDetectionMiddleware UAParser d now req) as [ d' [ r | s b ] ];
      cbn [fst] in *; [ rewrite Hc; exact Hch | ].
    rewrite (proj1 (proj2 (proj2 (proj2 (postVote_frame d' now req cid))))), Hc. exact Hch.
Qed.

Lemma run_untouched ops : forall d id ch,
  challenge_ids_ok d -> captcha_challenges d !! id = Some ch ->
  Forall (fun op => ~ verifies id op) ops ->
  captcha_challenges (run UAParser d ops) !! id = Some ch.
Proof.
  induction ops as [ | op ops IH ]; intros d id ch Hok Hch Hops; [ exact Hch | ].
  apply Forall_cons in Hops. destruct Hops as (Hop & Hops).
  cbn [run fold_left]. fold (run UAParser (step UAParser d op) ops).
  apply IH; [ apply challenge_ids_ok_step, Hok | apply step_untouched; assumption | exact Hops ].
Qed.

End Kept.

(** A row whose [expires_at] is the text written 300 seconds after
    [created] passes the test of the SELECT while the whole second of
    the clock is less than 300 past that of [created]. *)
Lemma unexpired_by_text ch created now :
  expires_at ch = Clock.datetime (created + 300000) ->
  Clock.in_range (created + 300000) -> Clock.in_range now ->
  unexpired now ch = (Clock.seconds now <? Clock.seconds created + 300).
Proof.
  intros Hexp Hc Hnow. unfold unexpired. rewrite Hexp, ClockFacts.datetime_ltb by assumption.
  replace (Clock.seconds (created + 300000)) with (Clock.seconds created + 300); [ reflexivity | ].
  unfold Clock.seconds. Z.div_mod_to_equations. lia.
Qed.

(** What the captcha route stores under an unused id. *)
Lemma getCaptcha_created d created uuid r req :
  captcha_challenges d !! uuid = None ->
  snd (getCaptcha d created uuid r req)
    = {| status := 200; body := JChallenge uuid (fst (generateSimpleCaptcha r)) |} /\
  (challenge_ids_ok d -> challenge_ids_ok (fst (getCaptcha d created uuid r req))) /\
  exists ch, captcha_challenges (fst (getCaptcha d created uuid r req)) !! uuid = Some ch /\
    solution ch = JS.numToString (snd (generateSimpleCaptcha r)) /\ solved ch = false /\
    expires_at ch = Clock.datetime (created + 300000).
Proof.
  intros Hfree. unfold getCaptcha.
  destruct (createCaptchaChallenge d created uuid r (ip req)) as [ [ d1 q ] | ] eqn:Hcreate.
  2: { unfold createCaptchaChallenge in Hcreate.
       destruct (generateSimpleCaptcha r). rewrite Hfree in Hcreate. discriminate. }
  pose proof (createCaptchaChallenge_row _ _ _ _ _ _ _ Hcreate)
    as (_ & ch & Hch & _ & Hsolution & Hunsolved & Hexp & _).
  assert (Hq : q = (uuid, fst (generateSimpleCaptcha r))).
  { unfold createCaptchaChallenge in Hcreate.
    destruct (generateSimpleCaptcha r). rewrite Hfree in Hcreate. simpl. congruence. }
  subst q. cbn [fst snd]. split; [ reflexivity | ].
  split; [ intros Hok; eapply challenge_ids_ok_create; eassumption | ].
  exists ch. repeat split; assumption.
Qed.

Section Served.

Variable UAParser : string -> option string * option string.

(** After the lifetime of a challenge no call is answered true, whatever
    requests were served since its creation. *)
Lemma expired_after_run d0 created id r0 req0 ops now sol :
  captcha_challenges d0 !! id = None ->
  Clock.in_range (created + 300000) -> Clock.in_range now ->
  Clock.seconds created + 300 <= Clock.seconds now ->
  verifyCaptcha (run UAParser (fst (getCaptcha d0 created id r0 req0)) ops) now id sol
    = (run UAParser (fst (getCaptcha d0 created id r0 req0)) ops, false).
Proof.
  intros Hfree Hc Hnow Hlate.
  destruct (getCaptcha_created d0 created id r0 req0 Hfree) as (_ & _ & ch & Hch & _ & _ & Hexp).
  destruct (run_keeps UAParser ops _ _ _ Hch) as (ch' & Hch' & Hsame).
  assert (Hexp' : expires_at ch' = Clock.datetime (created + 300000))
    by (destruct Hsame as (_ & _ & _ & _ & E & _); congruence).
  unfold verifyCaptcha, live_challenge. rewrite Hch'.
  rewrite (unexpired_by_text ch' created now Hexp' Hc Hnow).
  replace (Clock.seconds now <? Clock.seconds created + 300) with false; [ reflexivity | ].
  symmetry. apply Z.ltb_ge. exact Hlate.
Qed.

(** X26: a call of the challenge manager served alone answers true
    exactly when a challenge with that id is stored, has not expired, is
    unsolved, and its solution is the text of the submitted answer; when
    it answers false the store is unchanged; after it has answered true,
    every later call for the id is answered false, and of calls served
    one after the other at most one is answered true for an id. From the
    whole second 300 past that of its creation a challenge is refused,
    whatever requests were served in between. *)
Theorem verification_served_alone (d : db) (now : Z) (id : string) (sol : js_solution) :
  let r := verifyCaptcha d now id sol in
  r = (verifyCaptcha_update d (snd (verifyCaptcha_select d now id sol)),
       fst (verifyCaptcha_select d now id sol)) /\
  (snd r = true <->
     exists ch, captcha_challenges d !! id = Some ch /\
       unexpired now ch = true /\ solved ch = false /\
       solution ch = solution_toString sol) /\
  (snd r = false -> fst r = d) /\
  (snd r = true ->
     forall now' sol', snd (verifyCaptcha (fst r) now' id sol') = false) /\
  (forall calls, (accepted id (run_captcha d calls) <= 1)%nat) /\
  (forall d0 created r0 req0 ops,
     d = run UAParser (fst (getCaptcha d0 created id r0 req0)) ops ->
     captcha_challenges d0 !! id = None ->
     Clock.in_range (created + 300000) -> Clock.in_range now ->
     Clock.seconds created + 300 <= Clock.seconds now -> r = (d, false)).
Proof.
  intros r. subst r.
  split; [ apply verifyCaptcha_served_alone | ].
  assert (Hlate : forall d0 created r0 req0 ops,
            d = run UAParser (fst (getCaptcha d0 created id r0 req0)) ops ->
            captcha_challenges d0 !! id = None ->
            Clock.in_range (created + 300000) -> Clock.in_range now ->
            Clock.seconds created + 300 <= Clock.seconds now ->
            verifyCaptcha d now id sol = (d, false)).
  { intros d0 created r0 req0 ops -> Hfree Hc Hnow Hpast. apply expired_after_run; assumption. }
  assert (Honce : forall calls, (accepted id (run_captcha d calls) <= 1)%nat)
    by (intros calls; apply accepted_at_most_once).
  split; [ | split; [ | split; [ | split; [ exact Honce | exact Hlate ] ] ] ].
  - split.
    + intros Htrue. destruct (verifyCaptcha_true d now id sol Htrue) as (ch & Hlive & Hsol).
      apply live_challenge_Some in Hlive. destruct Hlive as (Hch & Hunexp & Hunsolved).
      exists ch. repeat split; assumption.
    + intros (ch & Hch & Hunexp & Hunsolved & Hsol).
      assert (Hlive : live_challenge d now id = Some ch)
        by (apply live_challenge_Some; repeat split; assumption).
      rewrite (verifyCaptcha_correct d now id sol ch Hlive Hsol). reflexivity.
  - unfold verifyCaptcha. destruct (live_challenge d now id) as [ ch | ]; [ | reflexivity ].
    destruct (String.eqb (solution ch) (solution_toString sol)); [ discriminate | reflexivity ].
  - intros Htrue now' sol'.
    destruct (verifyCaptcha_true d now id sol Htrue) as (ch & Hlive & Hsol).
    rewrite (verifyCaptcha_correct d now id sol ch Hlive Hsol). cbn [fst].
    apply live_challenge_Some in Hlive. destruct Hlive as (Hch & _).
    unfold verifyCaptcha. rewrite (set_solved_not_live d now' id ch Hch). reflexivity.
Qed.

(** X11: a challenge handed out by the captcha route under an unused id,
    in a store the server can reach, can be solved by the answer of its
    question, sent as text or as any value other than 0 that prints as
    it, for as long as no request has named the challenge and the whole
    second of the clock is less than 300 past that of the creation - so
    always up to 299 seconds after it. From then on, and so always from
    300 seconds after the creation, the answer is refused and the store
    left as it was, whatever requests were served in between. A new
    challenge under the same id is answered 500 and changes nothing. *)
Theorem captcha_round_trip
    (ops0 : list operation) (created : Z) (uuid : string) (r : draws) (req : request)
    (ops : list operation) (later : Z) (req' : request) (sol : js_solution) :
  let d0 := run UAParser empty_db ops0 in
  let g := getCaptcha d0 created uuid r req in
  let d2 := run UAParser (fst g) ops in
  let answer := {| challengeId := Some uuid; solution_field := Some sol |} in
  uuid <> "" -> captcha_challenges d0 !! uuid = None ->
  Clock.in_range created -> Clock.in_range (created + 300000) -> Clock.in_range later ->
  solution_toString sol = JS.numToString (snd (generateSimpleCaptcha r)) ->
  solution_falsy sol = false ->
  snd g = {| status := 200; body := JChallenge uuid (fst (generateSimpleCaptcha r)) |} /\
  (Forall (fun op => ~ verifies uuid op) ops ->
     (Clock.seconds later < Clock.seconds created + 300 ->
        snd (postCaptchaVerify d2 later req' answer)
          = {| status := 200; body := JValid true "CAPTCHA verified successfully" |}) /\
     (later <= created + 299000 ->
        snd (postCaptchaVerify d2 later req' answer)
          = {| status := 200; body := JValid true "CAPTCHA verified successfully" |})) /\
  (Clock.seconds created + 300 <= Clock.seconds later \/ created + 300000 <= later ->
     postCaptchaVerify d2 later req' answer
       = (d2, {| status := 400; body := JValid false "Invalid CAPTCHA solution" |})) /\
  (forall t r' req'',
     getCaptcha d2 t uuid r' req''
       = (d2, {| status := 500; body := JError "Failed to create CAPTCHA challenge" |})).
Proof.
  intros d0 g d2 answer Huuid Hfree Hc Hc' Hlater Hsol Hfalsy.
  assert (Hok0 : challenge_ids_ok d0) by apply challenge_ids_ok_run, challenge_ids_ok_empty.
  destruct (getCaptcha_created d0 created uuid r req Hfree)
    as (Hg & Hok1 & ch & Hch & Hsolution & Hunsolved & Hexp).
  fold g in Hg, Hok1, Hch. specialize (Hok1 Hok0).
  assert (Hcid : JS.falsy uuid = false) by (apply String.eqb_neq; exact Huuid).
  assert (Hpost : forall x t req0,
            postCaptchaVerify x t req0 answer =
              if snd (verifyCaptcha x t uuid sol)
              then (amnesty (fst (verifyCaptcha x t uuid sol)) (ip req0),
                    {| status := 200; body := JValid true "CAPTCHA verified successfully" |})
              else (fst (verifyCaptcha x t uuid sol),
                    {| status := 400; body := JValid false "Invalid CAPTCHA solution" |})).
  { intros x t req0. unfold postCaptchaVerify, answer. cbn [challengeId solution_field].
    rewrite Hcid, Hfalsy. simpl orb. cbv iota.
    destruct (verifyCaptcha x t uuid sol) as [ x' [ | ] ]; reflexivity. }
  split; [ exact Hg | ]. split; [ | split ].
  - intros Hops.
    assert (Hin : Clock.seconds later < Clock.seconds created + 300 ->
              snd (postCaptchaVerify d2 later req' answer)
                = {| status := 200; body := JValid true "CAPTCHA verified successfully" |}).
    { intros Hin.
      pose proof (run_untouched UAParser ops (fst g) uuid ch Hok1 Hch Hops) as Hch2.
      fold d2 in Hch2.
      assert (Hlive : live_challenge d2 later uuid = Some ch).
      { apply live_challenge_Some. split; [ exact Hch2 | ]. split; [ | exact Hunsolved ].
        rewrite (unexpired_by_text ch created later Hexp Hc' Hlater). apply Z.ltb_lt. exact Hin. }
      rewrite Hpost, (verifyCaptcha_correct d2 later uuid sol ch Hlive) by congruence.
      reflexivity. }
    split; [ exact Hin | ].
    intros Hms. apply Hin. unfold Clock.seconds.
    assert ((created + 299000) / 1000 = created / 1000 + 299)
      by (Z.div_mod_to_equations; lia).
    assert (later / 1000 <= (created + 299000) / 1000) by (apply Z.div_le_mono; lia).
    lia.
  - intros Hout.
    assert (Hpast : Clock.seconds created + 300 <= Clock.seconds later).
    { destruct Hout as [ H | H ]; [ exact H | ]. unfold Clock.seconds.
      assert ((created + 300000) / 1000 = created / 1000 + 300)
        by (Z.div_mod_to_equations; lia).
      assert ((created + 300000) / 1000 <= later / 1000) by (apply Z.div_le_mono; lia).
      lia. }
    rewrite Hpost. subst d2 g.
    rewrite (expired_after_run d0 created uuid r req ops later sol Hfree Hc' Hlater Hpast).
    reflexivity.
  - intros t r' req''.
    destruct (run_keeps UAParser ops (fst g) uuid ch Hch) as (ch' & Hch' & _). fold d2 in Hch'.
    unfold getCaptcha, createCaptchaChallenge.
    destruct (generateSimpleCaptcha r'). rewrite Hch'. reflexivity.
Qed.

End Served.

(** X11 on the sample challenge [7 + 2], created at 10:00 and answered
    after a request of another client: accepted at 10:04, refused at
    10:05. *)
Lemma captcha_round_trip_witness :
  t0 + minutes 4 <= t0 + 299000 /\ t0 + 300000 <= t0 + minutes 5 /\
  snd (postCaptchaVerify
         (run no_names
            (fst (getCaptcha empty_db t0 uuid1 {| draw1 := 6; draw2 := 1; draw_plus := true |}
                    vote_from_a))
            [ Guarded (t0 + minutes 1) curl_bare ])
         (t0 + minutes 4) answer_from_b answer_9)
    = {| status := 200; body := JValid true "CAPTCHA verified successfully" |} /\
  status (snd (postCaptchaVerify
         (run no_names
            (fst (getCaptcha empty_db t0 uuid1 {| draw1 := 6; draw2 := 1; draw_plus := true |}
                    vote_from_a))
            [ Guarded (t0 + minutes 1) curl_bare ])
         (t0 + minutes 5) answer_from_b answer_9)) = 400.
Proof.
  assert (Huuid : uuid1 <> "") by discriminate.
  assert (Hfree : captcha_challenges (run no_names empty_db []) !! uuid1 = None) by reflexivity.
  assert (Hc : Clock.in_range t0) by (unfold Clock.in_range, Clock.end_of_time, t0; lia).
  assert (Hc' : Clock.in_range (t0 + 300000))
    by (unfold Clock.in_range, Clock.end_of_time, t0; lia).
  assert (H4 : Clock.in_range (t0 + minutes 4))
    by (unfold Clock.in_range, Clock.end_of_time, t0, minutes; lia).
  assert (H5 : Clock.in_range (t0 + minutes 5))
    by (unfold Clock.in_range, Clock.end_of_time, t0, minutes; lia).
  assert (Hsol : solution_toString (SStr "9")
                 = JS.numToString (snd (generateSimpleCaptcha
                                          {| draw1 := 6; draw2 := 1; draw_plus := true |})))
    by (vm_compute; reflexivity).
  assert (Hops : Forall (fun op => ~ verifies uuid1 op) [ Guarded (t0 + minutes 1) curl_bare ])
    by (constructor; [ intros H; exact H | constructor ]).
  assert (Hin : t0 + minutes 4 <= t0 + 299000) by (unfold minutes; lia).
  assert (Hout : t0 + 300000 <= t0 + minutes 5) by (unfold minutes; lia).
  split; [ exact Hin | ]. split; [ exact Hout | ]. split.
  - exact (proj2 (proj1 (proj2 (captcha_round_trip no_names [] t0 uuid1
                                  {| draw1 := 6; draw2 := 1; draw_plus := true |} vote_from_a
                                  [ Guarded (t0 + minutes 1) curl_bare ] (t0 + minutes 4)
                                  answer_from_b (SStr "9")
                                  Huuid Hfree Hc Hc' H4 Hsol eq_refl)) Hops) Hin).
  - pose proof (proj1 (proj2 (proj2 (captcha_round_trip no_names [] t0 uuid1
                                  {| draw1 := 6; draw2 := 1; draw_plus := true |} vote_from_a
                                  [ Guarded (t0 + minutes 1) curl_bare ] (t0 + minutes 5)
                                  answer_from_b (SStr "9")
                                  Huuid Hfree Hc Hc' H5 Hsol eq_refl))) (or_intror Hout)) as E.
    exact (f_equal (fun x => status (snd x)) E).
Defined.

(** ** The day of the vote window *)





(** ** The key of the vote window *)

(** C9, amended: the vote route decides by the hash of the address and
    the user-agent alone. Two requests from one address with one
    user-agent are answered alike and change the store alike, whatever
    their other headers; the record a permitted vote stores is under
    [simpleHash] of address, a bar and user-agent, and after it the
    other request is refused on the same day. A request whose hash
    differs is permitted or refused as if the first had not voted. *)
Theorem C9_vote_key_from_address_and_user_agent
    (d : db) (now : Z) (req req' : request) (id : string) :
  ip req = ip req' ->
  JS.orEmpty (get req "user-agent") = JS.orEmpty (get req' "user-agent") ->
  postVote d now req id = postVote d now req' id /\
  (forall serverId, JS.parseInt10 id = Some serverId ->
     status (snd (postVote d now req id)) = 200 ->
     votes_table (fst (postVote d now req id))
       !! (serverId, simpleHash (ip req +:+ "|" +:+ JS.orEmpty (get req "user-agent")),
           Clock.strftime_Ymd now) = Some (Clock.datetime now) /\
     forall now', Clock.strftime_Ymd now' = Clock.strftime_Ymd now ->
       postVote (fst (postVote d now req id)) now' req' id
         = (fst (postVote d now req id), already_voted)) /\
  (forall other now' id',
     voterFingerprint other <> voterFingerprint req ->
     status (snd (postVote (fst (postVote d now req id)) now' other id'))
       = status (snd (postVote d now' other id'))).
Proof.
  intros Hip Hua.
  assert (Hfp : voterFingerprint req' = voterFingerprint req)
    by (unfold voterFingerprint; rewrite Hip, Hua; reflexivity).
  split; [ unfold postVote; rewrite Hfp; reflexivity | ].
  split.
  - intros serverId Hid H200.
    assert (Hfree : votes_table d !! (serverId, voterFingerprint req, Clock.strftime_Ymd now) = None).
    { destruct (proj1 (proj1 (postVote_record d now req id)) H200) as (key & Hkey & Hnone).
      unfold vote_key_of in Hkey. rewrite Hid in Hkey. simpl in Hkey. congruence. }
    assert (Hr : postVote d now req id
                 = (set_servers
                      (set_votes_table d
                         (<[(serverId, voterFingerprint req, Clock.strftime_Ymd now)
                            := Clock.datetime now]> (votes_table d)))
                      (alter add_vote serverId (servers d)),
                    {| status := 200;
                       body := JVote serverId
                                 (votes <$> alter add_vote serverId (servers d) !! serverId) |})).
    { unfold postVote. rewrite Hid. cbv zeta. rewrite Hfree. reflexivity. }
    assert (Hrecorded : votes_table (fst (postVote d now req id))
                          !! (serverId, voterFingerprint req, Clock.strftime_Ymd now)
                        = Some (Clock.datetime now)).
    { rewrite Hr. cbn [fst votes_table set_servers set_votes_table]. apply lookup_insert_eq. }
    split; [ exact Hrecorded | ].
    intros now' Hday. apply (postVote_denied _ now' req' id serverId Hid).
    rewrite Hfp, Hday, Hrecorded. eexists. reflexivity.
  - intros other now' id' Hother.
    unfold postVote at 1 3.
    destruct (JS.parseInt10 id') as [ s' | ]; [ | reflexivity ].
    cbv zeta.
    assert (Hlook : votes_table (fst (postVote d now req id))
                      !! (s', voterFingerprint other, Clock.strftime_Ymd now')
                    = votes_table d !! (s', voterFingerprint other, Clock.strftime_Ymd now')).
    { unfold postVote. destruct (JS.parseInt10 id) as [ s | ]; [ | reflexivity ].
      cbv zeta. destruct (votes_table d !! (s, voterFingerprint req, Clock.strftime_Ymd now));
        [ reflexivity | ].
      cbn [fst votes_table set_servers set_votes_table].
      apply lookup_insert_ne. intros Heq. apply Hother.
      exact (f_equal (fun k : vote_key => snd (fst k)) (eq_sym Heq)). }
    rewrite Hlook.
    destruct (votes_table d !! (s', voterFingerprint other, Clock.strftime_Ymd now'));
      reflexivity.
Qed.

(** C9, amended, on two votes of one browser under two languages: two
    device fingerprints, one vote. *)
Lemma C9_vote_key_witness :
  ip vote_from_a = ip vote_from_a_in_french /\
  JS.orEmpty (get vote_from_a "user-agent") = JS.orEmpty (get vote_from_a_in_french "user-agent") /\
  get vote_from_a "accept-language" <> get vote_from_a_in_french "accept-language" /\
  generateDeviceFingerprint vote_from_a (parseDeviceInfo no_names vote_from_a)
    <> generateDeviceFingerprint vote_from_a_in_french
         (parseDeviceInfo no_names vote_from_a_in_french) /\
  postVote db_one_server t0 vote_from_a "3"
    = postVote db_one_server t0 vote_from_a_in_french "3" /\
  postVote (fst (postVote db_one_server t0 vote_from_a "3")) (t0 + minutes 1)
      vote_from_a_in_french "3"
    = (fst (postVote db_one_server t0 vote_from_a "3"), already_voted).
Proof.
  assert (Hip : ip vote_from_a = ip vote_from_a_in_french) by reflexivity.
  assert (Hua : JS.orEmpty (get vote_from_a "user-agent")
                = JS.orEmpty (get vote_from_a_in_french "user-agent")) by (vm_compute; reflexivity).
  destruct (C9_vote_key_from_address_and_user_agent db_one_server t0 vote_from_a
              vote_from_a_in_french "3" Hip Hua) as (Hsame & Hkey & _).
  split; [ exact Hip | ]. split; [ exact Hua | ].
  split; [ vm_compute; discriminate | ].
  split; [ vm_compute; discriminate | ].
  split; [ exact Hsame | ].
  apply (proj2 (Hkey 3 eq_refl ltac:(vm_compute; reflexivity))).
  vm_compute. reflexivity.
Defined.

(** ** Challenges whose answer is zero, and what solves them *)

(** C10, as stated, fails: the zero challenge is solved by a value that
    is not the string "0", the array [[0]], which is truthy and prints
    as "0". *)
Lemma C10_array_solves_zero_challenge :
  solution <$> captcha_challenges db_zero_challenge !! uuid1 = Some "0" /\
  solution_field answer_array_0 = Some (SArr [ Some (SNum 0) ]) /\
  SArr [ Some (SNum 0) ] <> SStr "0" /\
  solution_falsy (SArr [ Some (SNum 0) ]) = false /\
  solution_toString (SArr [ Some (SNum 0) ]) = "0" /\
  snd (postCaptchaVerify db_zero_challenge (t0 + minutes 1) (browser_post addr_a "/")
         answer_array_0)
    = {| status := 200; body := JValid true "CAPTCHA verified successfully" |}.
Proof.
  split; [ vm_compute; reflexivity | ]. split; [ reflexivity | ].
  split; [ discriminate | ]. split; [ reflexivity | ]. split; [ reflexivity | ].
  vm_compute. reflexivity.
Qed.

(** C10, amended: equal operands under the minus sign give a challenge
    whose stored solution is "0". For a challenge with that solution the
    verify route answers 400 to the number 0 at its missing-input check,
    without consulting or changing the challenge, and it accepts no
    number at all. What it accepts, while the challenge is unexpired and
    unsolved, is every value that is truthy and prints as "0", and
    nothing else. *)
Theorem C10_zero_answer_refused_as_number
    (d1 : db) (uuid : string) (ch : captcha_row) (r : draws) (req : request) (now : Z) :
  draw1 r = draw2 r -> draw_plus r = false ->
  captcha_challenges d1 !! uuid = Some ch ->
  solution ch = JS.numToString (snd (generateSimpleCaptcha r)) ->
  snd (generateSimpleCaptcha r) = 0 /\ solution ch = "0" /\
  postCaptchaVerify d1 now req {| challengeId := Some uuid; solution_field := Some (SNum 0) |}
    = (d1, {| status := 400; body := JError "Challenge ID and solution are required" |}) /\
  (forall n,
     status (snd (postCaptchaVerify d1 now req
                    {| challengeId := Some uuid; solution_field := Some (SNum n) |})) = 400 /\
     fst (postCaptchaVerify d1 now req
            {| challengeId := Some uuid; solution_field := Some (SNum n) |}) = d1) /\
  (forall sol,
     status (snd (postCaptchaVerify d1 now req
                    {| challengeId := Some uuid; solution_field := Some sol |})) = 200 <->
     uuid <> "" /\ unexpired now ch = true /\ solved ch = false /\
     solution_falsy sol = false /\ solution_toString sol = "0").
Proof.
  intros Hsame Hminus Hch Hsolution.
  assert (Hzero : snd (generateSimpleCaptcha r) = 0).
  { unfold generateSimpleCaptcha. rewrite Hminus, Hsame. simpl. lia. }
  assert (Hsol : solution ch = "0") by (rewrite Hsolution, Hzero; reflexivity).
  assert (Haccepted : forall sol,
            status (snd (postCaptchaVerify d1 now req
                           {| challengeId := Some uuid; solution_field := Some sol |})) = 200 <->
            uuid <> "" /\ unexpired now ch = true /\ solved ch = false /\
            solution_falsy sol = false /\ solution_toString sol = "0").
  { intros sol. split.
    - intros H200.
      destruct (postCaptchaVerify_cases d1 now req
                  {| challengeId := Some uuid; solution_field := Some sol |})
        as [ (cid & sol' & Hcid & Hfield & Hnonempty & Hfalsy & Hok & _) | (H400 & _) ];
        [ | rewrite H400 in H200; discriminate ].
      simpl in Hcid, Hfield. inversion Hcid; inversion Hfield; subst cid sol'.
      apply verifyCaptcha_true in Hok. destruct Hok as (ch' & Hlive & Hsol').
      apply live_challenge_Some in Hlive. destruct Hlive as (Hch' & Hunexp & Hunsolved).
      assert (ch' = ch) by congruence. subst ch'.
      apply String.eqb_neq in Hnonempty. repeat split; try assumption. congruence.
    - intros (Huuid & Hunexp & Hunsolved & Hfalsy & Hprint).
      assert (Hlive : live_challenge d1 now uuid = Some ch)
        by (apply live_challenge_Some; repeat split; assumption).
      unfold postCaptchaVerify. cbn [challengeId solution_field].
      replace (JS.falsy uuid) with false by (symmetry; apply String.eqb_neq; exact Huuid).
      rewrite Hfalsy. cbn [orb].
      rewrite (verifyCaptcha_correct d1 now uuid sol ch Hlive) by congruence. reflexivity. }
  split; [ exact Hzero | ]. split; [ exact Hsol | ].
  split.
  { unfold postCaptchaVerify. simpl. rewrite orb_true_r. reflexivity. }
  split; [ | exact Haccepted ].
  intros n.
  destruct (postCaptchaVerify_cases d1 now req
              {| challengeId := Some uuid; solution_field := Some (SNum n) |})
    as [ (cid & sol & Hcid & Hfield & _ & Hfalsy & _ & E) | Hrej ]; [ exfalso | exact Hrej ].
  simpl in Hcid, Hfield. inversion Hcid; inversion Hfield; subst cid sol.
  assert (H200 : status (snd (postCaptchaVerify d1 now req
                   {| challengeId := Some uuid; solution_field := Some (SNum n) |})) = 200)
    by (rewrite E; reflexivity).
  apply Haccepted in H200. destruct H200 as (_ & _ & _ & _ & Hprint).
  simpl in Hprint, Hfalsy. apply numToString_zero in Hprint. apply Z.eqb_neq in Hfalsy.
  contradiction.
Qed.

(** C10, amended, on the challenge [5 - 5] created at 10:00 and answered
    at 10:01: the number 0 is answered 400; the string "0" and the array
    of the number 0 are accepted. *)
Lemma C10_zero_answer_witness :
  draw1 draws_5_minus_5 = draw2 draws_5_minus_5 /\
  draw_plus draws_5_minus_5 = false /\
  createCaptchaChallenge empty_db t0 uuid1 draws_5_minus_5 addr_a
    = Some (db_zero_challenge, (uuid1, "5 - 5")) /\
  status (snd (postCaptchaVerify db_zero_challenge (t0 + minutes 1) (browser_post addr_a "/")
                 {| challengeId := Some uuid1; solution_field := Some (SNum 0) |})) = 400 /\
  status (snd (postCaptchaVerify db_zero_challenge (t0 + minutes 1) (browser_post addr_a "/")
                 {| challengeId := Some uuid1; solution_field := Some (SStr "0") |})) = 200 /\
  status (snd (postCaptchaVerify db_zero_challenge (t0 + minutes 1) (browser_post addr_a "/")
                 {| challengeId := Some uuid1;
                    solution_field := Some (SArr [ Some (SNum 0) ]) |})) = 200.
Proof.
  assert (Hrow : captcha_challenges db_zero_challenge !! uuid1
                 = Some {| row_id := 1; ip_address := addr_a; solution := "0"; solved := false;
                           created_at := "2024-05-01 10:00:00";
                           expires_at := "2024-05-01 10:05:00" |})
    by (vm_compute; reflexivity).
  destruct (C10_zero_answer_refused_as_number db_zero_challenge uuid1 _ draws_5_minus_5
              (browser_post addr_a "/") (t0 + minutes 1) eq_refl eq_refl Hrow eq_refl)
    as (_ & _ & Hnum & _ & Haccepted).
  split; [ reflexivity | ]. split; [ reflexivity | ].
  split; [ vm_compute; reflexivity | ].
  split; [ rewrite Hnum; reflexivity | ].
  split; apply Haccepted; (split; [ discriminate | ]);
    repeat split; vm_compute; reflexivity.
Defined.

(** ** Accounts: what a broken UNIQUE constraint is answered *)

(** The code of a constraint error is not the one the routes test for,
    so their 409 branches are never taken. *)
Lemma constraint_code_not_unique :
  String.eqb Accounts.constraint_code "SQLITE_CONSTRAINT_UNIQUE" = false.
Proof. reflexivity. Qed.

(** X23: the profile route changes at most the email of the session's
    own user and never answers 409. For a session whose user exists it
    answers 500 with "Database error", changing nothing, exactly when
    another user holds the address, and otherwise stores it and answers
    200; so no two users ever come to share an address. *)
Theorem profile_email_stays_unique
    (s : Auth.session) (users : gmap Z Accounts.user_row) (email : option string) :
  let r := Accounts.putProfile s users email in
  (Accounts.unique_emails users -> Accounts.unique_emails (fst r)) /\
  (forall n, Auth.userId s <> Some n -> fst r !! n = users !! n) /\
  Auth.status (snd r) <> 409 /\
  (forall n u e, Auth.no_user s = false -> Auth.userId s = Some n -> users !! n = Some u ->
     email = Some e -> e <> "" ->
     (Auth.status (snd r) = 500 <->
        exists m v, m <> n /\ users !! m = Some v /\ Accounts.email v = e) /\
     (Auth.status (snd r) = 500 ->
        fst r = users /\ Auth.body (snd r) = Auth.Error "Database error") /\
     (Auth.status (snd r) <> 500 ->
        Auth.status (snd r) = 200 /\ fst r = <[n := Accounts.set_email u e]> users /\
        Auth.body (snd r)
          = Auth.RowMessage (Some (n, Accounts.username u, e, Accounts.role u))
              "Profile updated successfully")).
Proof.
  intros r. subst r. unfold Accounts.putProfile. rewrite constraint_code_not_unique.
  destruct (requireAuth_cases (row := Accounts.public_user) s) as [ (Hno & E) | (Hno & E) ];
    rewrite E.
  { cbn [fst snd Auth.status]. split; [ tauto | ]. split; [ reflexivity | ].
    split; [ discriminate | ]. intros; congruence. }
  destruct (JS.absent email) eqn:Habsent.
  { cbn [fst snd Auth.status]. split; [ tauto | ]. split; [ reflexivity | ].
    split; [ discriminate | ].
    intros n u e _ _ _ -> He. unfold JS.absent, JS.falsy in Habsent. simpl in Habsent.
    apply String.eqb_eq in Habsent. congruence. }
  destruct (Auth.userId s ≫= (fun n => (fun u => (n, u)) <$> users !! n))
    as [ [ k row ] | ] eqn:Htarget.
  2: { pose proof (proj1 (target_None users (Auth.userId s)) Htarget) as Hnone.
       cbn [fst snd Auth.status]. split; [ tauto | ]. split; [ reflexivity | ].
       split; [ discriminate | ].
       intros n u e _ Hn Hu. rewrite (Hnone n Hn) in Hu. discriminate. }
  apply target_Some in Htarget. destruct Htarget as (Hk & Hrow).
  pose proof (email_taken_spec users k (JS.orEmpty email)) as Htaken.
  destruct (Accounts.email_taken users k (JS.orEmpty email)).
  - cbn [fst snd Auth.status Auth.body]. split; [ tauto | ]. split; [ reflexivity | ].
    split; [ discriminate | ].
    intros n u e _ Hn Hu -> He. assert (n = k) by congruence. subst n.
    split; [ split; [ intros _; apply Htaken; reflexivity | reflexivity ] | ].
    split; [ intros _; split; reflexivity | ]. intros H. destruct (H eq_refl).
  - assert (Hfree : forall m v, m <> k -> users !! m = Some v -> Accounts.email v <> JS.orEmpty email).
    { intros m v Hm Hv He. assert (false = true); [ | discriminate ].
      apply Htaken. exists m, v. repeat split; assumption. }
    cbn [fst snd Auth.status Auth.body]. split; [ | split; [ | split; [ discriminate | ] ] ].
    + intros Huniq n m u v.
      destruct (decide (n = k)) as [ -> | Hn ]; destruct (decide (m = k)) as [ -> | Hm ];
        rewrite ?lookup_insert_eq, ?lookup_insert_ne by congruence.
      * reflexivity.
      * intros [= <-] Hv He. simpl in He. destruct (Hfree m v Hm Hv). congruence.
      * intros Hu [= <-] He. simpl in He. destruct (Hfree n u Hn Hu). congruence.
      * apply Huniq.
    + intros n Hn. apply lookup_insert_ne. congruence.
    + intros n u e _ Hn Hu -> He. assert (n = k) by congruence. subst n.
      assert (u = row) by congruence. subst u. simpl JS.orEmpty in *.
      split; [ split; [ discriminate | ] | ].
      { intros (m & v & Hm & Hv & Hev). destruct (Hfree m v Hm Hv Hev). }
      split; [ discriminate | ]. intros _. split; [ reflexivity | ]. split; [ reflexivity | ].
      rewrite Hk. simpl. unfold Accounts.select_user. rewrite lookup_insert_eq. reflexivity.
Qed.

(** X23 on the sample accounts: steve asks for the address of alex and
    is answered 500 with nothing changed, then for a free address, which
    is stored. *)
Lemma profile_email_witness :
  Accounts.putProfile user_session three_users (Some "alex@example.org")
    = (three_users, {| Auth.status := 500; Auth.body := Auth.Error "Database error" |}) /\
  Auth.status (snd (Accounts.putProfile user_session three_users (Some "alex@example.org")))
    <> 409 /\
  Auth.status (snd (Accounts.putProfile user_session three_users (Some "steve@example.net")))
    = 200 /\
  Accounts.email <$> fst (Accounts.putProfile user_session three_users
                            (Some "steve@example.net")) !! 2
    = Some "steve@example.net".
Proof.
  split; [ vm_compute; reflexivity | ].
  split;
    [ exact (proj1 (proj2 (proj2 (profile_email_stays_unique user_session three_users
                                    (Some "alex@example.org")))))
    | ].
  split; vm_compute; reflexivity.
Defined.


